(** * A shallow embedding of [app.py], the AI career assistant

    The script is a Streamlit front end over a hosted language model.  The
    parts that carry logic are embedded here as executable definitions:

    - [linkedin_import]             (the import adapter),
    - [generate_localized_content]  (prompt builder and generation client),
    - [create_download_link]        (the export writer),
    - [import_profile]              (the "Import Profile" callback of [main]).

    Python strings are sequences of Unicode code points, byte strings are
    sequences of bytes; the two are kept apart because the export writer
    encodes one into the other.  Everything the script reaches through a
    library or the operating system and that it does not determine itself
    (the language model, [json.loads], the PDF and DOCX writers, the
    platform's line separator and path syntax, failing file operations,
    what the template formatter does beyond plain names) is gathered in
    the class [Externals]; the theorems hold for every instance of it. *)

From Stdlib Require Import String Ascii NArith ZArith List Lia.
From Stdlib Require Import Strings.Byte.
From Stdlib Require Import Floats.SpecFloat.
From stdpp Require Import base option list gmap.

Local Open Scope N_scope.
Set Warnings "-register-all".

(** ** Python strings and byte strings *)

Abbreviation str := (list N).
Abbreviation bytes := (list byte).

(** [lit] turns a literal of the development into a Python string. *)
Definition lit (s : string) : str :=
  map N_of_ascii (list_ascii_of_string s).
Arguments lit _%_string.

Definition LF : N := 10.      (* "\n" *)
Definition CR : N := 13.      (* "\r" *)
Definition DQ : N := 34.      (* the double quote *)
Definition LBRACE : N := 123. (* "{" *)
Definition RBRACE : N := 125. (* "}" *)

(** A double-quoted token, as it appears inside JSON text. *)
Definition quoted (s : str) : str := DQ :: s ++ [DQ].

Fixpoint str_eqb (a b : str) : bool :=
  match a, b with
  | [], [] => true
  | x :: a', y :: b' => (x =? y) && str_eqb a' b'
  | _, _ => false
  end.

(** [s.startswith(p)] *)
Fixpoint startswith (s p : str) {struct p} : bool :=
  match p with
  | [] => true
  | c :: p' =>
      match s with
      | [] => false
      | d :: s' => (d =? c) && startswith s' p'
      end
  end.

(** [p in s] for two strings: [p] occurs as a substring of [s]. *)
Fixpoint contains_substring (s p : str) : bool :=
  startswith s p ||
  match s with
  | [] => false
  | _ :: s' => contains_substring s' p
  end.

Fixpoint digits (u : Decimal.uint) : str :=
  match u with
  | Decimal.Nil => []
  | Decimal.D0 u' => 48 :: digits u'
  | Decimal.D1 u' => 49 :: digits u'
  | Decimal.D2 u' => 50 :: digits u'
  | Decimal.D3 u' => 51 :: digits u'
  | Decimal.D4 u' => 52 :: digits u'
  | Decimal.D5 u' => 53 :: digits u'
  | Decimal.D6 u' => 54 :: digits u'
  | Decimal.D7 u' => 55 :: digits u'
  | Decimal.D8 u' => 56 :: digits u'
  | Decimal.D9 u' => 57 :: digits u'
  end.

(** [str(n)] for a natural number. *)
Definition str_of_nat (n : nat) : str := digits (Nat.to_uint n).

(** [sep.join(parts)] *)
Fixpoint join (sep : str) (parts : list str) : str :=
  match parts with
  | [] => []
  | [p] => p
  | p :: rest => p ++ sep ++ join sep rest
  end.

(** ** Exceptions and the two monads of the embedding *)

Inductive exn_class :=
| ValueError | TypeError | KeyError | AttributeError | RuntimeError
| JSONDecodeError | UnicodeEncodeError | OSError
| OtherException. (* any other subclass of [Exception], such as the
                     errors of the model client *)

(** An exception object: its class and what [str(e)] gives.  Every class
    above derives from [Exception], so [except Exception] catches all. *)
Record exn := Raise { exn_class_of : exn_class; exn_str : str }.

Inductive outcome (A : Type) :=
| Return (a : A)
| Raised (e : exn).
Arguments Return {A} a.
Arguments Raised {A} e.

Definition obind {A B} (c : outcome A) (k : A -> outcome B) : outcome B :=
  match c with
  | Return a => k a
  | Raised e => Raised e
  end.

(** ** Python values, as [json.loads] produces them *)

Inductive json :=
| JNull
| JBool (b : bool)
| JInt (z : Z)
| JFloat (f : spec_float)
| JStr (s : str)
| JArr (l : list json)
| JObj (d : list (str * json)).

(** A [dict] is kept as an association list in insertion order. *)
Abbreviation dict := (list (str * json)).

Fixpoint dict_get (d : dict) (k : str) : option json :=
  match d with
  | [] => None
  | (k', v) :: d' => if str_eqb k' k then Some v else dict_get d' k
  end.

(** [d[k] = v]: replace in place, or append a new key. *)
Fixpoint dict_set (d : dict) (k : str) (v : json) : dict :=
  match d with
  | [] => [(k, v)]
  | (k', v') :: d' =>
      if str_eqb k' k then (k', v) :: d' else (k', v') :: dict_set d' k v
  end.

Definition dict_has (d : dict) (k : str) : bool :=
  match dict_get d k with Some _ => true | None => false end.

Definition type_name (v : json) : str :=
  match v with
  | JNull => lit "NoneType"
  | JBool _ => lit "bool"
  | JInt _ => lit "int"
  | JFloat _ => lit "float"
  | JStr _ => lit "str"
  | JArr _ => lit "list"
  | JObj _ => lit "dict"
  end.

Definition is_JStr (k : str) (v : json) : bool :=
  match v with JStr s => str_eqb s k | _ => false end.

(** [field in v] *)
Definition py_in (field : str) (v : json) : outcome bool :=
  match v with
  | JObj d => Return (dict_has d field)
  | JArr l => Return (existsb (is_JStr field) l)
  | JStr s => Return (contains_substring s field)
  | _ => Raised (Raise TypeError
           (lit "argument of type '" ++ type_name v ++ lit "' is not iterable"))
  end.

(** [all(field in v for field in fields)], stopping at the first [False]. *)
Fixpoint py_all_in (fields : list str) (v : json) : outcome bool :=
  match fields with
  | [] => Return true
  | f :: rest =>
      obind (py_in f v) (fun b => if b then py_all_in rest v else Return false)
  end.

Definition is_zero_float (f : spec_float) : bool :=
  match f with S754_zero _ => true | _ => false end.

(** Truth value of an object, as [if v:] tests it. *)
Definition py_bool (v : json) : bool :=
  match v with
  | JNull => false
  | JBool b => b
  | JInt z => negb (Z.eqb z 0)
  | JFloat f => negb (is_zero_float f)
  | JStr s => match s with [] => false | _ => true end
  | JArr l => match l with [] => false | _ => true end
  | JObj d => match d with [] => false | _ => true end
  end.

(** [v.get(k, default)] *)
Definition py_get (v : json) (k : str) (default : json) : outcome json :=
  match v with
  | JObj d => Return (match dict_get d k with Some x => x | None => default end)
  | _ => Raised (Raise AttributeError
           (lit "'" ++ type_name v ++ lit "' object has no attribute 'get'"))
  end.

(** The items of an iterable handed to [str.join]; each must be a [str]. *)
Fixpoint join_items (i : nat) (l : list json) : outcome (list str) :=
  match l with
  | [] => Return []
  | JStr s :: rest => obind (join_items (S i) rest) (fun r => Return (s :: r))
  | x :: _ => Raised (Raise TypeError
                (lit "sequence item " ++ str_of_nat i
                 ++ lit ": expected str instance, "
                 ++ type_name x ++ lit " found"))
  end.

(** [sep.join(v)]: a list is joined item by item, a string character by
    character, a dict by its keys; anything else is not iterable. *)
Definition py_join (sep : str) (v : json) : outcome str :=
  match v with
  | JArr l => obind (join_items 0 l) (fun parts => Return (join sep parts))
  | JStr s => Return (join sep (map (fun c => [c]) s))
  | JObj d => Return (join sep (map fst d))
  | _ => Raised (Raise TypeError (lit "can only join an iterable"))
  end.

(** ** Regular expressions: the fragment [re.search] is used with

    A pattern is a sequence of items, each a single-character atom or its
    greedy closure.  [match_here] is the backtracking matcher of [re]: a
    closure first takes as many characters as it can and gives them back
    one at a time while the rest of the pattern fails.  It returns the
    length of the match. *)

Inductive atom :=
| Lit (c : N)   (* an escaped literal such as [\{] *)
| AnyChar.      (* [.] under [re.DOTALL]: any character, newline included *)

Inductive item :=
| One (a : atom)
| Star (a : atom).  (* [a*], greedy *)

Definition atom_matches (a : atom) (c : N) : bool :=
  match a with
  | Lit d => c =? d
  | AnyChar => true
  end.

Fixpoint match_here (r : list item) : str -> option nat :=
  match r with
  | [] => fun _ => Some 0%nat
  | One a :: r' => fun s =>
      match s with
      | c :: t => if atom_matches a c then option_map S (match_here r' t) else None
      | [] => None
      end
  | Star a :: r' =>
      fix star (s : str) : option nat :=
        match s with
        | c :: t =>
            if atom_matches a c then
              match star t with
              | Some n => Some (S n)
              | None => match_here r' s
              end
            else match_here r' s
        | [] => match_here r' s
        end
  end.

(** [re.search]: the first start position, left to right, at which the
    pattern matches; the match object is (start, length). *)
Fixpoint search_from (r : list item) (s : str) (i : nat) : option (nat * nat) :=
  match match_here r s with
  | Some n => Some (i, n)
  | None =>
      match s with
      | [] => None
      | _ :: t => search_from r t (S i)
      end
  end.

Definition re_search (r : list item) (s : str) : option (nat * nat) :=
  search_from r s 0.

(** [m.group()] *)
Definition group (s : str) (m : nat * nat) : str :=
  take (snd m) (drop (fst m) s).

(** [r'\{.*\}'] *)
Definition json_pattern : list item :=
  [One (Lit LBRACE); Star AnyChar; One (Lit RBRACE)].

(** ** Prompt templates

    [ChatPromptTemplate] reads its templates in Python's format-string
    syntax, with the parser of [string.Formatter]: [{{] and [}}] stand
    for a brace, and a replacement field [{name!c:spec}] has a name, an
    optional conversion character and an optional format specification.
    The name ends at the first [}], [:] or [!] outside square brackets;
    the specification runs to the brace that closes the field and may
    hold braces of its own, which are counted.  The parser raises
    [ValueError] on a template it cannot read, with the texts below. *)

Inductive piece :=
| Text (c : N)
| Field (name : str) (conversion : option N) (format_spec : str).

(** Where the parser is: in literal text, in the name of a field (its
    characters so far in reverse), between the square brackets of a
    name, at the conversion character, behind it, or in the format
    specification at some depth of braces. *)
Inductive mode :=
| InText
| InName (acc : str)
| InIndex (acc : str)
| AtConversion (name : str)
| AfterConversion (name : str) (conversion : N)
| InSpec (name : str) (conversion : option N) (acc : str) (depth : nat).

Definition LBRACKET : N := 91. (* "[" *)
Definition RBRACKET : N := 93. (* "]" *)
Definition COLON : N := 58.    (* ":" *)
Definition BANG : N := 33.     (* "!" *)
Definition DOT : N := 46.      (* "." *)

Definition malformed {A} (text : string) : outcome A :=
  Raised (Raise ValueError (lit text)).

Definition then_piece (p : piece) (rest : outcome (list piece))
  : outcome (list piece) :=
  obind rest (fun ps => Return (p :: ps)).

Fixpoint parse_template (m : mode) (s : str) {struct s} : outcome (list piece) :=
  match s with
  | [] =>
      match m with
      | InText => Return []
      | InName _ | InIndex _ => malformed "expected '}' before end of string"
      | AtConversion _ =>
          malformed "end of string while looking for conversion specifier"
      | AfterConversion _ _ | InSpec _ _ _ _ =>
          malformed "unmatched '{' in format spec"
      end
  | c :: t =>
      match m with
      | InText =>
          if c =? LBRACE then
            match t with
            | [] => malformed "Single '{' encountered in format string"
            | c' :: t' =>
                if c' =? LBRACE
                then then_piece (Text LBRACE) (parse_template InText t')
                else parse_template (InName []) t
            end
          else if c =? RBRACE then
            match t with
            | [] => malformed "Single '}' encountered in format string"
            | c' :: t' =>
                if c' =? RBRACE
                then then_piece (Text RBRACE) (parse_template InText t')
                else malformed "Single '}' encountered in format string"
            end
          else then_piece (Text c) (parse_template InText t)
      | InName acc =>
          if c =? LBRACE then malformed "unexpected '{' in field name"
          else if c =? LBRACKET then parse_template (InIndex (c :: acc)) t
          else if c =? RBRACE
          then then_piece (Field (rev acc) None []) (parse_template InText t)
          else if c =? COLON then parse_template (InSpec (rev acc) None [] 0) t
          else if c =? BANG then parse_template (AtConversion (rev acc)) t
          else parse_template (InName (c :: acc)) t
      | InIndex acc =>
          if c =? RBRACKET then parse_template (InName (c :: acc)) t
          else parse_template (InIndex (c :: acc)) t
      | AtConversion name => parse_template (AfterConversion name c) t
      | AfterConversion name conversion =>
          if c =? RBRACE
          then then_piece (Field name (Some conversion) [])
                          (parse_template InText t)
          else if c =? COLON
          then parse_template (InSpec name (Some conversion) [] 0) t
          else malformed "expected ':' after conversion specifier"
      | InSpec name conversion acc depth =>
          if c =? LBRACE
          then parse_template (InSpec name conversion (c :: acc) (S depth)) t
          else if c =? RBRACE then
            match depth with
            | O => then_piece (Field name conversion (rev acc))
                              (parse_template InText t)
            | S d => parse_template (InSpec name conversion (c :: acc) d) t
            end
          else parse_template (InSpec name conversion (c :: acc) depth) t
      end
  end.

(** The input variables of a template: the names of its fields. *)
Fixpoint variables (ps : list piece) : list str :=
  match ps with
  | [] => []
  | Text _ :: ps' => variables ps'
  | Field name _ _ :: ps' => name :: variables ps'
  end.

Definition is_digit (c : N) : bool := (48 <=? c) && (c <=? 57).

(** A name that the formatter looks up as it stands: it has no [.] and
    no [[], which select an attribute or an item, and it is not read as
    a number, which would be a position.  The second is decided here by
    the first character, an ASCII character other than a digit; the
    names of the templates of this script are of this kind. *)
Definition plain_name (name : str) : bool :=
  match name with
  | [] => false
  | c :: _ =>
      (c <? 128) && negb (is_digit c)
      && forallb (fun x => negb ((x =? DOT) || (x =? LBRACKET))) name
  end.

(** ** UTF-8 and base64 *)

Definition byte_of_N (n : N) : byte :=
  match Byte.of_N (n mod 256) with
  | Some b => b
  | None => x00
  end.

(** [c.encode("utf-8")] for one code point; surrogates cannot be encoded. *)
Definition utf8_encode_char (c : N) : option bytes :=
  if c <? 128 then Some [byte_of_N c]
  else if c <? 2048 then
    Some [byte_of_N (192 + c / 64); byte_of_N (128 + c mod 64)]
  else if c <? 65536 then
    if (55296 <=? c) && (c <=? 57343) then None
    else Some [byte_of_N (224 + c / 4096);
               byte_of_N (128 + (c / 64) mod 64);
               byte_of_N (128 + c mod 64)]
  else if c <? 1114112 then
    Some [byte_of_N (240 + c / 262144);
          byte_of_N (128 + (c / 4096) mod 64);
          byte_of_N (128 + (c / 64) mod 64);
          byte_of_N (128 + c mod 64)]
  else None.

Fixpoint utf8_encode (s : str) : option bytes :=
  match s with
  | [] => Some []
  | c :: t =>
      match utf8_encode_char c, utf8_encode t with
      | Some b, Some r => Some (b ++ r)
      | _, _ => None
      end
  end.

Definition b64_alphabet : str :=
  lit "ABCDEFGHIJKLMNOPQRSTUVWXYZabcdefghijklmnopqrstuvwxyz0123456789+/".

Definition b64_char (i : N) : N := nth (N.to_nat i) b64_alphabet 0.

Definition PAD : N := 61. (* "=" *)

Fixpoint b64_groups (l : list N) : str :=
  match l with
  | [] => []
  | [a] =>
      [b64_char (a / 4); b64_char ((a mod 4) * 16); PAD; PAD]
  | [a; b] =>
      [b64_char (a / 4); b64_char ((a mod 4) * 16 + b / 16);
       b64_char ((b mod 16) * 4); PAD]
  | a :: b :: c :: t =>
      [b64_char (a / 4); b64_char ((a mod 4) * 16 + b / 16);
       b64_char ((b mod 16) * 4 + c / 64); b64_char (c mod 64)]
      ++ b64_groups t
  end.

(** [base64.b64encode(data).decode()] *)
Definition b64encode (data : bytes) : str :=
  b64_groups (map Byte.to_N data).

(** *** The text of an encoding error

    The encoder stops at the first surrogate and reports it, or the run
    of surrogates it starts, with its position in the text. *)

Definition is_surrogate (c : N) : bool := (55296 <=? c) && (c <=? 57343).

Definition hex_digit (n : N) : N := if n <? 10 then 48 + n else 87 + n.

Definition hex4 (c : N) : str :=
  [hex_digit ((c / 4096) mod 16); hex_digit ((c / 256) mod 16);
   hex_digit ((c / 16) mod 16); hex_digit (c mod 16)].

Fixpoint surrogate_run (s : str) : nat :=
  match s with
  | c :: t => if is_surrogate c then S (surrogate_run t) else 0%nat
  | [] => 0%nat
  end.

(** The position of the first surrogate, the surrogate, and how many
    surrogates stand there in a row. *)
Fixpoint first_surrogate (i : nat) (s : str) : option (nat * N * nat) :=
  match s with
  | [] => None
  | c :: t =>
      if is_surrogate c then Some (i, c, S (surrogate_run t))
      else first_surrogate (S i) t
  end.

(** [str(e)] of the [UnicodeEncodeError] of [text.encode("utf-8")]; a
    text without a surrogate that still has no encoding holds a number
    beyond U+10FFFF, which is not a character of a Python string. *)
Definition encode_error_text (text : str) : str :=
  match first_surrogate 0 text with
  | Some (i, c, 1%nat) =>
      lit "'utf-8' codec can't encode character '\u" ++ hex4 c
      ++ lit "' in position " ++ str_of_nat i ++ lit ": surrogates not allowed"
  | Some (i, _, n) =>
      lit "'utf-8' codec can't encode characters in position " ++ str_of_nat i
      ++ lit "-" ++ str_of_nat (i + n - 1) ++ lit ": surrogates not allowed"
  | None => lit "'utf-8' codec can't encode character: code point not in range(0x110000)"
  end.

(** ** The world the script runs in *)

(** What the page shows: [st.error] and [st.success] calls, in order. *)
Inductive ui_msg :=
| StError (s : str)
| StSuccess (s : str).

Record world := World {
  ui : list ui_msg;             (* messages emitted so far *)
  fs : gmap str bytes;          (* the files on disk, by path *)
  resume_data : gmap str json   (* [st.session_state.resume_data] *)
}.

Definition add_ui (m : ui_msg) (w : world) : world :=
  World (ui w ++ [m]) (fs w) (resume_data w).

Definition set_fs (f : gmap str bytes) (w : world) : world :=
  World (ui w) f (resume_data w).

Definition set_resume_data (r : gmap str json) (w : world) : world :=
  World (ui w) (fs w) r.

(** A statement sequence: it ends in a value or an exception and leaves a
    world behind either way. *)
Definition M (A : Type) : Type := world -> outcome A * world.

Definition ret {A} (a : A) : M A := fun w => (Return a, w).

Definition raise {A} (e : exn) : M A := fun w => (Raised e, w).

Definition bind {A B} (c : M A) (k : A -> M B) : M B :=
  fun w =>
    match c w with
    | (Return a, w') => k a w'
    | (Raised e, w') => (Raised e, w')
    end.

Definition lift {A} (o : outcome A) : M A := fun w => (o, w).

Notation "'let!' x ':=' c 'in' k" := (bind c (fun x => k))
  (at level 10, x name, c at level 100, k at level 200).

(** [try: body  except Exception as e: handler e] *)
Definition try_except {A} (body : M A) (handler : exn -> M A) : M A :=
  fun w =>
    match body w with
    | (Return a, w') => (Return a, w')
    | (Raised e, w') => handler e w'
    end.

(** [try: body  finally: cleanup]; an exception of [cleanup] replaces the
    result of [body]. *)
Definition try_finally {A} (body : M A) (cleanup : M unit) : M A :=
  fun w =>
    match body w with
    | (r, w') =>
        match cleanup w' with
        | (Return _, w'') => (r, w'')
        | (Raised e, w'') => (Raised e, w'')
        end
    end.

Definition st_error (msg : str) : M unit :=
  fun w => (Return tt, add_ui (StError msg) w).

Definition st_success (msg : str) : M unit :=
  fun w => (Return tt, add_ui (StSuccess msg) w).

(** ** What the script does not determine itself *)

Inductive role := System | Human.

(** The file operations of the export writer that the operating system
    may refuse. *)
Inductive io_op := OpenWrite | WriteText | OpenRead | Remove.

(** What a document library does with its target path: the bytes it
    leaves there, if any, and the exception it ends in, if any. *)
Record written := Written {
  left_on_disk : option bytes;
  ends_in : option exn
}.

Class Externals := {
  (** [init_groq_chain() | StrOutputParser()]: the hosted model, from the
      chat messages to the text of its answer, or the exception the call
      ends in; every action of the script calls it at most once *)
  model_invoke : list (role * str) -> outcome str;
  (** [json.loads] *)
  json_loads : str -> outcome json;
  (** [str.upper] *)
  str_upper : str -> str;
  (** [os.linesep] *)
  linesep : str;
  (** [tempfile.gettempdir()] *)
  gettempdir : str;
  (** [os.path.join] *)
  os_path_join : str -> str -> str;
  (** [config]: the PDF renderer, or [None] when the wkhtmltopdf binary
      is not installed; given the content ([pdfkit.from_string]) *)
  config : option (str -> written);
  (** [Document(); add_paragraph(content); save(path)] *)
  docx_save : str -> written;
  (** the exception a file operation ends in when the system refuses it *)
  io_fault : io_op -> option exn;
  (** [str(e)] of the [KeyError] with which a prompt template refuses an
      input that lacks variables of the template, given these variables
      and the input; the text names the variables and the keys in an
      order the script does not determine *)
  missing_variables_text : list str -> gmap str str -> str;
  (** what [string.Formatter] puts in place of a field that is more than
      a plain name (a position, an attribute, an item, a conversion, a
      format specification), or the exception it raises there: given the
      fields before it in the template, latest first, then the name, the
      conversion and the specification of the field, and the input *)
  format_other_field :
    list piece -> str -> option N -> str -> gmap str str -> outcome str
}.

Section Program.
Context `{Externals}.

(** *** Files *)

(** Text written through a file opened with [newline=None]: each ["\n"]
    leaves as [os.linesep]. *)
Definition translate_newlines (s : str) : str :=
  flat_map (fun c => if c =? LF then linesep else [c]) s.

(** [open(path, "w", encoding="utf-8")]: the file is created or emptied. *)
Definition open_w (path : str) : M unit :=
  fun w =>
    match io_fault OpenWrite with
    | Some e => (Raised e, w)
    | None => (Return tt, set_fs (<[path := []]> (fs w)) w)
    end.

(** [f.write(content)] followed by the close of the [with] block.  The
    text is encoded as a whole before any byte is written. *)
Definition write_text (path content : str) : M unit :=
  fun w =>
    match utf8_encode (translate_newlines content) with
    | None =>
        (Raised (Raise UnicodeEncodeError
                   (encode_error_text (translate_newlines content))), w)
    | Some b =>
        match io_fault WriteText with
        | Some e => (Raised e, w)
        | None => (Return tt, set_fs (<[path := b]> (fs w)) w)
        end
    end.

(** [with open(path, "rb") as f: data = f.read()] *)
Definition read_binary (path : str) : M bytes :=
  fun w =>
    match io_fault OpenRead with
    | Some e => (Raised e, w)
    | None =>
        match fs w !! path with
        | Some b => (Return b, w)
        | None =>
            (Raised (Raise OSError
                       (lit "[Errno 2] No such file or directory: '" ++ path ++ lit "'")), w)
        end
    end.

(** [os.path.exists(path)] *)
Definition os_path_exists (path : str) : M bool :=
  fun w => (Return (bool_decide (is_Some (fs w !! path))), w).

(** [os.remove(path)] *)
Definition os_remove (path : str) : M unit :=
  fun w =>
    match io_fault Remove with
    | Some e => (Raised e, w)
    | None =>
        match fs w !! path with
        | Some _ => (Return tt, set_fs (delete path (fs w)) w)
        | None =>
            (Raised (Raise OSError
                       (lit "[Errno 2] No such file or directory: '" ++ path ++ lit "'")), w)
        end
    end.

(** A document library writing to [path]. *)
Definition external_write (path : str) (r : written) : M unit :=
  fun w =>
    let w' := match left_on_disk r with
              | Some b => set_fs (<[path := b]> (fs w)) w
              | None => w
              end in
    match ends_in r with
    | Some e => (Raised e, w')
    | None => (Return tt, w')
    end.

(** *** Formatting a prompt template

    The values of a prompt context are kept as the text [str] gives for
    them, which is what a plain field shows of a value. *)

(** The value put in place of one field. *)
Definition replace_field (seen : list piece) (name : str)
    (conversion : option N) (format_spec : str) (ctx : gmap str str)
  : outcome str :=
  match conversion, format_spec with
  | None, [] =>
      if plain_name name then
        match ctx !! name with
        | Some v => Return v
        | None => Raised (Raise KeyError (lit "'" ++ name ++ lit "'"))
        end
      else format_other_field seen name conversion format_spec ctx
  | _, _ => format_other_field seen name conversion format_spec ctx
  end.

(** [Formatter.vformat]: the pieces in order, the first exception ends
    it; [seen] holds the fields already replaced, latest first. *)
Fixpoint render (seen : list piece) (ps : list piece) (ctx : gmap str str)
  : outcome str :=
  match ps with
  | [] => Return []
  | Text c :: ps' => obind (render seen ps' ctx) (fun r => Return (c :: r))
  | Field name conversion format_spec :: ps' =>
      obind (replace_field seen name conversion format_spec ctx) (fun v =>
      obind (render (Field name conversion format_spec :: seen) ps' ctx)
            (fun r => Return (v ++ r)))
  end.

(** Every variable has a value in the input. *)
Definition bound (ctx : gmap str str) (vars : list str) : bool :=
  forallb (fun name => bool_decide (is_Some (ctx !! name))) vars.

(** [ChatPromptTemplate.from_template(template)] applied to the input
    mapping: the template is parsed when the prompt is built; the input
    is checked against its variables when it arrives, and only then are
    the fields replaced. *)
Definition format_template (template : str) (ctx : gmap str str) : outcome str :=
  obind (parse_template InText template) (fun ps =>
  if bound ctx (variables ps) then render [] ps ctx
  else Raised (Raise KeyError (missing_variables_text (variables ps) ctx))).

Fixpoint parse_messages (ms : list (role * str))
  : outcome (list (role * list piece)) :=
  match ms with
  | [] => Return []
  | (r, t) :: rest =>
      obind (parse_template InText t) (fun ps =>
      obind (parse_messages rest) (fun pms => Return ((r, ps) :: pms)))
  end.

Fixpoint render_messages (pms : list (role * list piece)) (ctx : gmap str str)
  : outcome (list (role * str)) :=
  match pms with
  | [] => Return []
  | (r, ps) :: rest =>
      obind (render [] ps ctx) (fun p =>
      obind (render_messages rest ctx) (fun out => Return ((r, p) :: out)))
  end.

(** *** Configuration *)

Definition LANGUAGES : list str :=
  [lit "English"; lit "Spanish"; lit "French"; lit "German"; lit "Chinese"].

(** *** The import adapter *)

Definition LINKEDIN_PREFIX : str := lit "https://www.linkedin.com/in/".

Definition system_prompt : str :=
  lit "Extract professional details from LinkedIn profile in strict JSON format: " ++ [LF]
  ++ lit "{{" ++ [LF]
  ++ lit "    " ++ quoted (lit "name") ++ lit ": " ++ quoted (lit "Full Name") ++ lit "," ++ [LF]
  ++ lit "    " ++ quoted (lit "experience") ++ lit ": ["
     ++ quoted (lit "Position1 at Company1") ++ lit ", "
     ++ quoted (lit "Position2 at Company2") ++ lit "]," ++ [LF]
  ++ lit "    " ++ quoted (lit "education") ++ lit ": ["
     ++ quoted (lit "Degree1 at School1") ++ lit ", "
     ++ quoted (lit "Degree2 at School2") ++ lit "]," ++ [LF]
  ++ lit "    " ++ quoted (lit "skills") ++ lit ": ["
     ++ quoted (lit "Skill1") ++ lit ", " ++ quoted (lit "Skill2") ++ lit ", "
     ++ quoted (lit "Skill3") ++ lit "]" ++ [LF]
  ++ lit "}}".

(** [ChatPromptTemplate.from_messages(...)] applied to the input mapping:
    the templates are parsed when the prompt is built, the input is
    checked against the variables of all of them when it arrives, and
    then every message is formatted. *)
Definition format_messages (ms : list (role * str)) (ctx : gmap str str)
  : outcome (list (role * str)) :=
  obind (parse_messages ms) (fun pms =>
  let vars := flat_map (fun m => variables (snd m)) pms in
  if bound ctx vars then render_messages pms ctx
  else Raised (Raise KeyError (missing_variables_text vars ctx))).

Definition required_fields : list str :=
  [lit "name"; lit "experience"; lit "education"; lit "skills"].

(** Lines 85 to 92: parse the extracted text and check the keys. *)
Definition parse_and_validate (json_str : str) : M json :=
  let! parsed_data := lift (json_loads json_str) in
  let! ok := lift (py_all_in required_fields parsed_data) in
  if negb ok then
    raise (Raise ValueError (lit "Missing required fields in parsed data"))
  else ret parsed_data.

(** Lines 81 to 83 and the [group()] of line 85. *)
Definition extract_json (response : str) : M str :=
  match re_search json_pattern response with
  | None => raise (Raise ValueError (lit "No valid JSON found in response"))
  | Some m => ret (group response m)
  end.

Definition import_failed (e : exn) : M json :=
  let! _ := st_error (lit "LinkedIn import error: " ++ exn_str e) in
  ret (JObj []).

Definition linkedin_import (url : str) : M json :=
  try_except
    (if negb (startswith url LINKEDIN_PREFIX) then
       raise (Raise ValueError (lit "Invalid LinkedIn profile URL format"))
     else
       let! messages := lift (format_messages
                           [(System, system_prompt); (Human, lit "Profile URL: {url}")]
                           {[ lit "url" := url ]}) in
       let! response := lift (model_invoke messages) in
       let! json_str := extract_json response in
       parse_and_validate json_str)
    import_failed.

(** *** Prompt builder and generation client *)

(** The text the f-string of line 102 puts after the template. *)
Definition language_directive (language : str) : str :=
  lit " " ++ [LF] ++ lit "Respond in " ++ language ++ lit " language".

Definition generate_localized_content
    (prompt_template language : str) (context : gmap str str) : outcome str :=
  let full_context := <[ lit "language" := language ]> context in
  let localized_prompt := prompt_template ++ language_directive language in
  obind (format_template localized_prompt full_context)
        (fun prompt => model_invoke [(Human, prompt)]).

(** *** The export writer *)

Definition download_link (b64 filename format_type : str) : str :=
  lit "<a href=" ++ quoted (lit "data:application/octet-stream;base64," ++ b64)
  ++ lit " download=" ++ quoted (filename ++ lit "." ++ format_type)
  ++ lit ">Download " ++ str_upper format_type ++ lit "</a>".

Definition temp_path_of (format_type filename : str) : str :=
  os_path_join gettempdir (filename ++ lit "." ++ format_type).

(** Lines 142 to 152: put the document at [temp_path]. *)
Definition generate_file (content format_type temp_path : str) : M unit :=
  if str_eqb format_type (lit "pdf") then
    match config with
    | None => raise (Raise RuntimeError (lit "PDF export requires wkhtmltopdf installation"))
    | Some from_string => external_write temp_path (from_string content)
    end
  else if str_eqb format_type (lit "docx") then
    external_write temp_path (docx_save content)
  else
    let! _ := open_w temp_path in
    write_text temp_path content.

Definition export_failed (format_type : str) (e : exn) : M str :=
  let! _ := st_error (lit "Error generating " ++ format_type ++ lit ": " ++ exn_str e) in
  ret [].

(** Lines 168 to 172. *)
Definition cleanup (temp_path : str) : M unit :=
  try_except
    (let! present := os_path_exists temp_path in
     if present then os_remove temp_path else ret tt)
    (fun cleanup_error =>
       st_error (lit "Error cleaning up files: " ++ exn_str cleanup_error)).

(** The path is computed first, inside the [try]; joining the two names
    does not fail. *)
Definition create_download_link (content format_type filename : str) : M str :=
  let temp_path := temp_path_of format_type filename in
  try_finally
    (try_except
       (let! _ := generate_file content format_type temp_path in
        let! data := read_binary temp_path in
        let b64 := b64encode data in
        ret (download_link b64 filename format_type))
       (export_failed format_type))
    (cleanup temp_path).

(** *** The "Import Profile" action of [main] (lines 194 to 207) *)

Definition flattened_profile (imported_data : json) : outcome (list (str * json)) :=
  obind (py_get imported_data (lit "name") (JStr [])) (fun name =>
  obind (py_get imported_data (lit "experience") (JArr [])) (fun e =>
  obind (py_join [LF] e) (fun experience =>
  obind (py_get imported_data (lit "education") (JArr [])) (fun d =>
  obind (py_join [LF] d) (fun education =>
  obind (py_get imported_data (lit "skills") (JArr [])) (fun s =>
  obind (py_join (lit ", ") s) (fun skills =>
  Return [(lit "name", name);
          (lit "experience", JStr experience);
          (lit "education", JStr education);
          (lit "skills", JStr skills)]))))))).

(** [st.session_state.resume_data.update(items)] *)
Definition resume_data_update (items : list (str * json)) : M unit :=
  fun w =>
    (Return tt,
     set_resume_data (foldl (fun m kv => <[ fst kv := snd kv ]> m) (resume_data w) items) w).

Definition import_profile (linkedin_url : str) : M unit :=
  match linkedin_url with
  | [] => ret tt
  | _ =>
      try_except
        (let! imported_data := linkedin_import linkedin_url in
         let! _ := (if py_bool imported_data then
                      let! items := lift (flattened_profile imported_data) in
                      resume_data_update items
                    else ret tt) in
         st_success (lit "Profile imported successfully!"))
        (fun e => st_error (lit "Failed to process LinkedIn profile: " ++ exn_str e))
  end.

End Program.

(** ** The generators (lines 106 to 133) *)

(** [context[key]]; the text of a [KeyError] is the key in quotes. *)
Definition getitem (context : gmap str str) (key : str) : outcome str :=
  match context !! key with
  | Some v => Return v
  | None => Raised (Raise KeyError (lit "'" ++ key ++ lit "'"))
  end.

Definition salary_guide_prompt : str :=
  lit "Generate salary negotiation advice for:"
  ++ [LF] ++ lit "    Industry: {industry}"
  ++ [LF] ++ lit "    Experience: {experience} years"
  ++ [LF] ++ lit "    Location: {location}"
  ++ [LF] ++ lit "    Current Salary: {current_salary}"
  ++ [LF] ++ lit "    Include: Market rates, negotiation strategies, benefits considerations".

Definition interview_preparation_prompt : str :=
  lit "Generate interview preparation guide for:"
  ++ [LF] ++ lit "    Position: {position}"
  ++ [LF] ++ lit "    Company Type: {company_type}"
  ++ [LF] ++ lit "    Technical Skills: {skills}"
  ++ [LF] ++ lit "    Include: Common questions, STAR method examples, technical tests preparation".

Definition reference_letter_prompt : str :=
  lit "Write professional reference letter from:"
  ++ [LF] ++ lit "    Referee: {referee_name}"
  ++ [LF] ++ lit "    Relationship: {relationship}"
  ++ [LF] ++ lit "    Duration: {duration}"
  ++ [LF] ++ lit "    Key achievements: {achievements}"
  ++ [LF] ++ lit "    Contact: {contact_info}".

Section Generators.
Context `{Externals}.

(** The argument [context['language']] is evaluated before the call. *)
Definition salary_guide (context : gmap str str) : outcome str :=
  obind (getitem context (lit "language")) (fun language =>
  generate_localized_content salary_guide_prompt language context).

Definition interview_preparation (context : gmap str str) : outcome str :=
  obind (getitem context (lit "language")) (fun language =>
  generate_localized_content interview_preparation_prompt language context).

Definition generate_reference_letter (context : gmap str str) : outcome str :=
  obind (getitem context (lit "language")) (fun language =>
  generate_localized_content reference_letter_prompt language context).

End Generators.

(** ** One run of [main] (lines 174 to 345)

    Streamlit runs the script from top to bottom on every interaction.
    A run is given the value every widget returns in it; it reads and
    writes the session state and the files, and it shows texts.  Calls
    that only lay out the page ([st.title], [st.header], [st.subheader],
    [st.divider], [st.tabs], [st.columns], the fixed sidebar note) are
    left out. *)

Inductive language_choice := English | Spanish | French | German | Chinese.

(** [st.selectbox("Language", LANGUAGES)] returns the chosen element. *)
Definition language_text (c : language_choice) : str :=
  match c with
  | English => lit "English"
  | Spanish => lit "Spanish"
  | French => lit "French"
  | German => lit "German"
  | Chinese => lit "Chinese"
  end.

Inductive export_choice := PDF | DOCX | TXT.

(** [export_format.lower()] for the options "PDF", "DOCX" and "TXT". *)
Definition export_format_lower (c : export_choice) : str :=
  match c with
  | PDF => lit "pdf"
  | DOCX => lit "docx"
  | TXT => lit "txt"
  end.

Inductive company_choice := Startup | Corporate | NonProfit | Government.

Definition company_text (c : company_choice) : str :=
  match c with
  | Startup => lit "Startup"
  | Corporate => lit "Corporate"
  | NonProfit => lit "Non-Profit"
  | Government => lit "Government"
  end.

(** The values of the widgets in one run: selections, text fields,
    number fields and whether each button was pressed. *)
Record widgets := Widgets {
  in_language : language_choice;
  in_export_format : export_choice;
  in_linkedin_url : str;
  in_import : bool;
  in_full_name : str;
  in_email : str;
  in_phone : str;
  in_education : str;
  in_experience : str;
  in_skills : str;
  in_job_description : str;
  in_generate_resume : bool;
  in_generate_cover : bool;
  in_company_type : company_choice;
  in_technical_skills : str;
  in_generate_prep : bool;
  in_industry : str;
  in_years : nat;
  in_location : str;
  in_current_salary : nat;
  in_generate_guide : bool;
  in_ref_name : str;
  in_ref_title : str;
  in_relationship : str;
  in_duration : str;
  in_generate_letter : bool
}.

(** [st.session_state] together with the files and what the page shows;
    [page] holds the texts given to [st.markdown], in order. *)
Record session := Session {
  base : world;
  ss_language : option str;
  ss_cover_letter : str;
  ss_interview_prep : gmap str str;
  ss_resume_content : option str;
  ss_interview_guide : option str;
  ss_salary_guide : option str;
  ss_reference_letter : option str;
  page : list str
}.

Definition with_base (w : world) (s : session) : session :=
  Session w (ss_language s) (ss_cover_letter s) (ss_interview_prep s)
          (ss_resume_content s) (ss_interview_guide s) (ss_salary_guide s)
          (ss_reference_letter s) (page s).

Definition with_language (l : str) (s : session) : session :=
  Session (base s) (Some l) (ss_cover_letter s) (ss_interview_prep s)
          (ss_resume_content s) (ss_interview_guide s) (ss_salary_guide s)
          (ss_reference_letter s) (page s).

Definition with_cover_letter (t : str) (s : session) : session :=
  Session (base s) (ss_language s) t (ss_interview_prep s)
          (ss_resume_content s) (ss_interview_guide s) (ss_salary_guide s)
          (ss_reference_letter s) (page s).

Definition with_interview_prep (m : gmap str str) (s : session) : session :=
  Session (base s) (ss_language s) (ss_cover_letter s) m
          (ss_resume_content s) (ss_interview_guide s) (ss_salary_guide s)
          (ss_reference_letter s) (page s).

Definition with_resume_content (t : str) (s : session) : session :=
  Session (base s) (ss_language s) (ss_cover_letter s) (ss_interview_prep s)
          (Some t) (ss_interview_guide s) (ss_salary_guide s)
          (ss_reference_letter s) (page s).

Definition with_interview_guide (t : str) (s : session) : session :=
  Session (base s) (ss_language s) (ss_cover_letter s) (ss_interview_prep s)
          (ss_resume_content s) (Some t) (ss_salary_guide s)
          (ss_reference_letter s) (page s).

Definition with_salary_guide (t : str) (s : session) : session :=
  Session (base s) (ss_language s) (ss_cover_letter s) (ss_interview_prep s)
          (ss_resume_content s) (ss_interview_guide s) (Some t)
          (ss_reference_letter s) (page s).

Definition with_reference_letter (t : str) (s : session) : session :=
  Session (base s) (ss_language s) (ss_cover_letter s) (ss_interview_prep s)
          (ss_resume_content s) (ss_interview_guide s) (ss_salary_guide s)
          (Some t) (page s).

Definition with_page (p : list str) (s : session) : session :=
  Session (base s) (ss_language s) (ss_cover_letter s) (ss_interview_prep s)
          (ss_resume_content s) (ss_interview_guide s) (ss_salary_guide s)
          (ss_reference_letter s) p.

(** The statements of [main]: they end in a value or an exception and
    leave a session behind. *)
Definition Run (A : Type) : Type := session -> outcome A * session.

Definition sret {A} (a : A) : Run A := fun s => (Return a, s).

Definition sbind {A B} (c : Run A) (k : A -> Run B) : Run B :=
  fun s =>
    match c s with
    | (Return a, s') => k a s'
    | (Raised e, s') => (Raised e, s')
    end.

Notation "'let*' x ':=' c 'in' k" := (sbind c (fun x => k))
  (at level 10, x name, c at level 100, k at level 200).

(** A statement sequence of the functions above, run on the world of the
    session. *)
Definition in_world {A} (c : M A) : Run A :=
  fun s => let '(r, w') := c (base s) in (r, with_base w' s).

(** A call that touches nothing. *)
Definition call {A} (o : outcome A) : Run A := fun s => (o, s).

Definition read {A} (f : session -> A) : Run A := fun s => (Return (f s), s).

Definition update (f : session -> session) : Run unit := fun s => (Return tt, f s).

(** [st.markdown(text)] *)
Definition st_markdown (text : str) : Run unit :=
  update (fun s => with_page (page s ++ [text]) s).

(** [st.session_state.language]; reading it before it is set raises (the
    text of that error is abbreviated). *)
Definition session_language : Run str :=
  fun s =>
    match ss_language s with
    | Some l => (Return l, s)
    | None =>
        (Raised (Raise AttributeError
                   (lit "st.session_state has no attribute language")), s)
    end.

(** What [str] gives for the values the script turns into text: the
    resume data as a whole, and a field of it that is not a string. *)
Class PyStr := {
  str_of_dict : gmap str json -> str;
  str_of_value : json -> str
}.

Definition resume_prompt : str :=
  lit "Create {language} resume with template: {template}"
  ++ [LF] ++ lit "                    ATS-friendly, include: {sections}".

Definition cover_letter_prompt : str :=
  lit "Write {language} cover letter for:"
  ++ [LF] ++ lit "                Resume: {resume}"
  ++ [LF] ++ lit "                Job: {job_desc}".

Section Main.
Context `{Externals} `{PyStr}.

(** [str(v)] *)
Definition py_str (v : json) : str :=
  match v with
  | JStr s => s
  | _ => str_of_value v
  end.

(** [st.session_state.resume_data.get(key, "")], as text. *)
Definition resume_field (key : str) : Run str :=
  read (fun s => py_str (default (JStr []) (resume_data (base s) !! key))).

(** The sidebar (lines 186 to 207). *)
Definition sidebar (i : widgets) : Run unit :=
  let* _ := update (with_language (language_text (in_language i))) in
  if in_import i then in_world (import_profile (in_linkedin_url i))
  else sret tt.

(** The seven assignments of the resume form (lines 224 to 235). *)
Definition form_data (i : widgets) (r : gmap str json) : gmap str json :=
  <[ lit "job_description" := JStr (in_job_description i) ]>
    (<[ lit "skills" := JStr (in_skills i) ]>
       (<[ lit "experience" := JStr (in_experience i) ]>
          (<[ lit "education" := JStr (in_education i) ]>
             (<[ lit "phone" := JStr (in_phone i) ]>
                (<[ lit "email" := JStr (in_email i) ]>
                   (<[ lit "name" := JStr (in_full_name i) ]> r)))))).

Definition resume_form (i : widgets) : Run unit :=
  update (fun s => with_base (set_resume_data (form_data i (resume_data (base s))) (base s)) s).

(** A generated text shown with its download link. *)
Definition show_with_link (i : widgets) (content filename : str) : Run unit :=
  let* _ := st_markdown content in
  let* link := in_world (create_download_link content
                           (export_format_lower (in_export_format i)) filename) in
  st_markdown link.

(** The resume builder (lines 219 to 255). *)
Definition tab1 (i : widgets) : Run unit :=
  let* _ := resume_form i in
  let* _ := (if in_generate_resume i then
               let* language := session_language in
               let* data := read (fun s => resume_data (base s)) in
               let* resume_content :=
                 call (generate_localized_content resume_prompt language
                         (<[ lit "sections" := str_of_dict data ]>
                            {[ lit "template" := lit "Chronological" ]})) in
               update (with_resume_content resume_content)
             else sret tt) in
  let* content := read ss_resume_content in
  match content with
  | Some resume_content => show_with_link i resume_content (lit "resume")
  | None => sret tt
  end.

(** Cover letters (lines 257 to 276). *)
Definition tab2 (i : widgets) : Run unit :=
  let* _ := (if in_generate_cover i then
               let* language := session_language in
               let* data := read (fun s => resume_data (base s)) in
               let* job_desc := resume_field (lit "job_description") in
               let* cover_letter :=
                 call (generate_localized_content cover_letter_prompt language
                         (<[ lit "job_desc" := job_desc ]>
                            {[ lit "resume" := str_of_dict data ]})) in
               update (with_cover_letter cover_letter)
             else sret tt) in
  let* cover_letter := read ss_cover_letter in
  match cover_letter with
  | [] => sret tt
  | _ => show_with_link i cover_letter (lit "cover_letter")
  end.

(** [st.session_state.interview_prep[key]] *)
Definition interview_prep_item (key : str) : Run str :=
  fun s => (getitem (ss_interview_prep s) key, s).

(** Interview preparation (lines 278 to 296). *)
Definition tab3 (i : widgets) : Run unit :=
  let* _ := update (fun s =>
              with_interview_prep
                (<[ lit "company_type" := company_text (in_company_type i) ]>
                   (ss_interview_prep s)) s) in
  let* _ := update (fun s =>
              with_interview_prep
                (<[ lit "technical_skills" := in_technical_skills i ]>
                   (ss_interview_prep s)) s) in
  let* _ := (if in_generate_prep i then
               let* language := session_language in
               let* position := resume_field (lit "job_description") in
               let* company_type := interview_prep_item (lit "company_type") in
               let* skills := interview_prep_item (lit "technical_skills") in
               let* guide :=
                 call (interview_preparation
                         (<[ lit "skills" := skills ]>
                            (<[ lit "company_type" := company_type ]>
                               (<[ lit "position" := position ]>
                                  {[ lit "language" := language ]})))) in
               update (with_interview_guide guide)
             else sret tt) in
  let* guide := read ss_interview_guide in
  match guide with
  | Some text => st_markdown text
  | None => sret tt
  end.

(** The salary guide (lines 298 to 319); the two numbers are formatted
    as [str] formats an [int]. *)
Definition tab4 (i : widgets) : Run unit :=
  let* _ := (if in_generate_guide i then
               let* language := session_language in
               let* guide :=
                 call (salary_guide
                         (<[ lit "current_salary" := str_of_nat (in_current_salary i) ]>
                            (<[ lit "location" := in_location i ]>
                               (<[ lit "experience" := str_of_nat (in_years i) ]>
                                  (<[ lit "industry" := in_industry i ]>
                                     {[ lit "language" := language ]}))))) in
               update (with_salary_guide guide)
             else sret tt) in
  let* guide := read ss_salary_guide in
  match guide with
  | Some text => st_markdown text
  | None => sret tt
  end.

(** References (lines 321 to 345). *)
Definition tab5 (i : widgets) : Run unit :=
  let* _ := (if in_generate_letter i then
               let* language := session_language in
               let* achievements := resume_field (lit "experience") in
               let* letter :=
                 call (generate_reference_letter
                         (<[ lit "contact_info" := in_ref_title i ]>
                            (<[ lit "achievements" := achievements ]>
                               (<[ lit "duration" := in_duration i ]>
                                  (<[ lit "relationship" := in_relationship i ]>
                                     (<[ lit "referee_name" := in_ref_name i ]>
                                        {[ lit "language" := language ]})))))) in
               update (with_reference_letter letter)
             else sret tt) in
  let* letter := read ss_reference_letter in
  match letter with
  | Some text => show_with_link i text (lit "reference_letter")
  | None => sret tt
  end.

Definition main (i : widgets) : Run unit :=
  let* _ := sidebar i in
  let* _ := tab1 i in
  let* _ := tab2 i in
  let* _ := tab3 i in
  let* _ := tab4 i in
  tab5 i.

End Main.

(** * Reference definitions used in the statements *)

(** The tail of [json_pattern] after its opening brace. *)
Definition closing : list item := [Star AnyChar; One (Lit RBRACE)].

(** The system message as the model receives it: the system template
    with its doubled braces read as braces. *)
Definition system_message : str :=
  lit "Extract professional details from LinkedIn profile in strict JSON format: " ++ [LF]
  ++ lit "{" ++ [LF]
  ++ lit "    " ++ quoted (lit "name") ++ lit ": " ++ quoted (lit "Full Name") ++ lit "," ++ [LF]
  ++ lit "    " ++ quoted (lit "experience") ++ lit ": ["
     ++ quoted (lit "Position1 at Company1") ++ lit ", "
     ++ quoted (lit "Position2 at Company2") ++ lit "]," ++ [LF]
  ++ lit "    " ++ quoted (lit "education") ++ lit ": ["
     ++ quoted (lit "Degree1 at School1") ++ lit ", "
     ++ quoted (lit "Degree2 at School2") ++ lit "]," ++ [LF]
  ++ lit "    " ++ quoted (lit "skills") ++ lit ": ["
     ++ quoted (lit "Skill1") ++ lit ", " ++ quoted (lit "Skill2") ++ lit ", "
     ++ quoted (lit "Skill3") ++ lit "]" ++ [LF]
  ++ lit "}".

(** The chat messages the import adapter sends for a profile URL. *)
Definition profile_messages (url : str) : list (role * str) :=
  [(System, system_message); (Human, lit "Profile URL: " ++ url)].

(** Two readings of "the first brace-delimited substring" of a text,
    following the words of the specification: from the first opening
    brace through the nearest closing brace after it, and from the first
    opening brace through the brace that balances it. *)
Fixpoint through_first (c : N) (s : str) : option str :=
  match s with
  | [] => None
  | x :: t => if x =? c then Some [x] else option_map (cons x) (through_first c t)
  end.

Fixpoint first_brace_block (s : str) : option str :=
  match s with
  | [] => None
  | x :: t =>
      if x =? LBRACE then option_map (cons x) (through_first RBRACE t)
      else first_brace_block t
  end.

Fixpoint through_balancing (depth : nat) (s : str) : option str :=
  match s with
  | [] => None
  | x :: t =>
      if x =? RBRACE then
        match depth with
        | O => Some [x]
        | S d => option_map (cons x) (through_balancing d t)
        end
      else if x =? LBRACE then option_map (cons x) (through_balancing (S depth) t)
      else option_map (cons x) (through_balancing depth t)
  end.

Fixpoint first_balanced_block (s : str) : option str :=
  match s with
  | [] => None
  | x :: t =>
      if x =? LBRACE then option_map (cons x) (through_balancing 0 t)
      else first_balanced_block t
  end.

(** All the substrings of a text that start at its first character. *)
Fixpoint prefixes (s : str) : list str :=
  [] :: match s with
        | [] => []
        | c :: t => map (cons c) (prefixes t)
        end.

(** All the non-empty substrings of a text, by start position. *)
Fixpoint substrings (s : str) : list str :=
  match s with
  | [] => []
  | c :: t => map (cons c) (prefixes t) ++ substrings t
  end.

Definition is_object (o : outcome json) : bool :=
  match o with
  | Return (JObj _) => true
  | _ => false
  end.

(** The JSON objects a text contains: its substrings from an opening
    brace to a closing brace that the decoder reads as an object. *)
Definition json_objects_in (loads : str -> outcome json) (s : str) : list str :=
  List.filter
    (fun m => startswith m [LBRACE] && startswith (rev m) [RBRACE] && is_object (loads m))
    (substrings s).

(** A text without braces. *)
Definition brace_free (d : str) : bool :=
  forallb (fun c => negb (c =? LBRACE) && negb (c =? RBRACE)) d.

Definition SUCCESS : ui_msg := StSuccess (lit "Profile imported successfully!").

(** [w'] differs from [w] at most by the file at [p] and by messages added
    to the page. *)
Definition touches_only (p : str) (w w' : world) : Prop :=
  resume_data w' = resume_data w
  /\ (forall q, q <> p -> fs w' !! q = fs w !! q)
  /\ exists msgs, ui w' = ui w ++ msgs.

(** A statement sequence that, from every world, touches only [p]. *)
Definition keeps {A} (p : str) (c : M A) : Prop :=
  forall w, touches_only p w (snd (c w)).

(** The readers of the export: a base64 decoder for padded text, as the
    browser applies it to the data URL of the link, and a strict UTF-8
    decoder, as a reader of the downloaded text file applies it.  Both
    work on the numbers of the bytes. *)
Fixpoint index_of (c : N) (l : str) : option N :=
  match l with
  | [] => None
  | x :: t => if x =? c then Some 0 else option_map N.succ (index_of c t)
  end.

Definition b64_index (c : N) : option N := index_of c b64_alphabet.

Fixpoint b64decode_groups (l : str) : option (list N) :=
  match l with
  | [] => Some []
  | c1 :: c2 :: c3 :: c4 :: t =>
      match b64_index c1, b64_index c2 with
      | Some i1, Some i2 =>
          if (c3 =? PAD) && (c4 =? PAD) then
            match t with
            | [] => Some [i1 * 4 + i2 / 16]
            | _ => None
            end
          else
            match b64_index c3 with
            | Some i3 =>
                if c4 =? PAD then
                  match t with
                  | [] => Some [i1 * 4 + i2 / 16; (i2 mod 16) * 16 + i3 / 4]
                  | _ => None
                  end
                else
                  match b64_index c4, b64decode_groups t with
                  | Some i4, Some r =>
                      Some (i1 * 4 + i2 / 16
                            :: (i2 mod 16) * 16 + i3 / 4
                            :: (i3 mod 4) * 64 + i4 :: r)
                  | _, _ => None
                  end
            | None => None
            end
      | _, _ => None
      end
  | _ => None
  end.

Definition b64decode (s : str) : option bytes :=
  option_map (map byte_of_N) (b64decode_groups s).

Definition continuation (b : N) : bool := (128 <=? b) && (b <? 192).

Fixpoint utf8_decode_bytes (l : list N) : option str :=
  match l with
  | [] => Some []
  | b0 :: t =>
      if b0 <? 128 then option_map (cons b0) (utf8_decode_bytes t)
      else if (194 <=? b0) && (b0 <? 224) then
        match t with
        | b1 :: t' =>
            if continuation b1
            then option_map (cons ((b0 - 192) * 64 + (b1 - 128))) (utf8_decode_bytes t')
            else None
        | _ => None
        end
      else if (224 <=? b0) && (b0 <? 240) then
        match t with
        | b1 :: b2 :: t' =>
            let c := (b0 - 224) * 4096 + (b1 - 128) * 64 + (b2 - 128) in
            if continuation b1 && continuation b2
               && (2048 <=? c) && negb ((55296 <=? c) && (c <=? 57343))
            then option_map (cons c) (utf8_decode_bytes t')
            else None
        | _ => None
        end
      else if (240 <=? b0) && (b0 <? 245) then
        match t with
        | b1 :: b2 :: b3 :: t' =>
            let c := (b0 - 240) * 262144 + (b1 - 128) * 4096
                     + (b2 - 128) * 64 + (b3 - 128) in
            if continuation b1 && continuation b2 && continuation b3
               && (65536 <=? c) && (c <? 1114112)
            then option_map (cons c) (utf8_decode_bytes t')
            else None
        | _ => None
        end
      else None
  end.

Definition utf8_decode (b : bytes) : option str :=
  utf8_decode_bytes (map Byte.to_N b).

(** A statement of a run that leaves the resume data as it was. *)
Definition keeps_resume_data {A} (c : Run A) : Prop :=
  forall s, resume_data (base (snd (c s))) = resume_data (base s).

(** A statement of a run that, from every session satisfying [P], ends
    in a value [a] and a session satisfying [Q a]. *)
Definition ends_well {A} (P : session -> Prop) (c : Run A)
    (Q : A -> session -> Prop) : Prop :=
  forall s, P s -> exists a s', c s = (Return a, s') /\ Q a s'.

(** The model answers every request. *)
Definition model_answers `{Externals} : Prop :=
  forall messages, exists answer, model_invoke messages = Return answer.

(** The language of the sidebar is selected. *)
Definition selected (l : str) (s : session) : Prop := ss_language s = Some l.

(** The language is selected and the two entries of the interview form
    are stored. *)
Definition prepared (l : str) (s : session) : Prop :=
  selected l s
  /\ is_Some (ss_interview_prep s !! lit "company_type")
  /\ is_Some (ss_interview_prep s !! lit "technical_skills").

(** * A concrete environment

    An instance of [Externals] on which the definitions can be run.  The
    decoder reads the JSON of RFC 8259 except numbers with a fraction or
    an exponent and [\u] escapes, which it rejects; the text of its
    errors is reduced to the first words of Python's.  Of the fields
    that are more than a plain name the formatter handles the
    conversions [!s] and [!r] of a value of letters, digits and spaces;
    the text of a missing variable is reduced to its first sentence. *)

Module Demo.

Definition is_ws (c : N) : bool :=
  (c =? 32) || (c =? 9) || (c =? 10) || (c =? 13).

Fixpoint skip_ws (s : str) : str :=
  match s with
  | c :: t => if is_ws c then skip_ws t else s
  | [] => []
  end.

Definition unescape (c : N) : option N :=
  if c =? 34 then Some 34        (* an escaped quote *)
  else if c =? 92 then Some 92   (* an escaped backslash *)
  else if c =? 47 then Some 47   (* an escaped slash *)
  else if c =? 98 then Some 8    (* b: backspace *)
  else if c =? 102 then Some 12  (* f: form feed *)
  else if c =? 110 then Some 10  (* n: line feed *)
  else if c =? 114 then Some 13  (* r: carriage return *)
  else if c =? 116 then Some 9   (* t: tab *)
  else None.

(** The characters of a string up to its closing quote. *)
Fixpoint string_body (s : str) (acc : str) : option (str * str) :=
  match s with
  | [] => None
  | c :: t =>
      if c =? 34 then Some (rev acc, t)
      else if c =? 92 then
        match t with
        | e :: t' =>
            match unescape e with
            | Some x => string_body t' (x :: acc)
            | None => None
            end
        | [] => None
        end
      else if c <? 32 then None
      else string_body t (c :: acc)
  end.

Fixpoint digits_value (s : str) (acc : Z) : Z * str :=
  match s with
  | c :: t =>
      if is_digit c then digits_value t (10 * acc + Z.of_N (c - 48))%Z
      else (acc, s)
  | [] => (acc, [])
  end.

Definition starts_fraction (s : str) : bool :=
  match s with
  | c :: _ => (c =? 46) || (c =? 101) || (c =? 69)
  | [] => false
  end.

(** An integer: zero, or a non-zero digit followed by digits. *)
Definition natural (s : str) : option (Z * str) :=
  match s with
  | c :: t =>
      if c =? 48 then (if starts_fraction t then None else Some (0%Z, t))
      else if is_digit c then
        let '(z, rest) := digits_value s 0%Z in
        if starts_fraction rest then None else Some (z, rest)
      else None
  | [] => None
  end.

Fixpoint value (fuel : nat) (s : str) : option (json * str) :=
  match fuel with
  | O => None
  | S n =>
      match skip_ws s with
      | [] => None
      | c :: t =>
          if c =? LBRACE then
            match skip_ws t with
            | c' :: t' => if c' =? RBRACE then Some (JObj [], t') else members n t []
            | [] => None
            end
          else if c =? 91 then
            match skip_ws t with
            | c' :: t' => if c' =? 93 then Some (JArr [], t') else elements n t []
            | [] => None
            end
          else if c =? 34 then
            match string_body t [] with
            | Some (x, rest) => Some (JStr x, rest)
            | None => None
            end
          else if c =? 45 then
            match natural t with
            | Some (z, rest) => Some (JInt (- z), rest)
            | None => None
            end
          else if startswith (c :: t) (lit "true") then Some (JBool true, drop 4 (c :: t))
          else if startswith (c :: t) (lit "false") then Some (JBool false, drop 5 (c :: t))
          else if startswith (c :: t) (lit "null") then Some (JNull, drop 4 (c :: t))
          else
            match natural (c :: t) with
            | Some (z, rest) => Some (JInt z, rest)
            | None => None
            end
      end
  end
with members (fuel : nat) (s : str) (acc : dict) : option (json * str) :=
  match fuel with
  | O => None
  | S n =>
      match skip_ws s with
      | c :: t =>
          if c =? 34 then
            match string_body t [] with
            | Some (k, t1) =>
                match skip_ws t1 with
                | c1 :: t2 =>
                    if c1 =? 58 then
                      match value n t2 with
                      | Some (v, t3) =>
                          match skip_ws t3 with
                          | c3 :: t4 =>
                              if c3 =? 44 then members n t4 (dict_set acc k v)
                              else if c3 =? RBRACE then Some (JObj (dict_set acc k v), t4)
                              else None
                          | [] => None
                          end
                      | None => None
                      end
                    else None
                | [] => None
                end
            | None => None
            end
          else None
      | [] => None
      end
  end
with elements (fuel : nat) (s : str) (acc : list json) : option (json * str) :=
  match fuel with
  | O => None
  | S n =>
      match value n s with
      | Some (v, t1) =>
          match skip_ws t1 with
          | c :: t2 =>
              if c =? 44 then elements n t2 (v :: acc)
              else if c =? 93 then Some (JArr (rev (v :: acc)), t2)
              else None
          | [] => None
          end
      | None => None
      end
  end.

Definition json_decode (s : str) : outcome json :=
  match value (S (length s)) s with
  | Some (v, rest) =>
      match skip_ws rest with
      | [] => Return v
      | _ => Raised (Raise JSONDecodeError (lit "Extra data"))
      end
  | None => Raised (Raise JSONDecodeError (lit "Expecting value"))
  end.

(** [str.upper] on ASCII text. *)
Definition ascii_upper (s : str) : str :=
  map (fun c => if (97 <=? c) && (c <=? 122) then c - 32 else c) s.

(** [os.path.join] of a directory without a trailing separator and a
    plain file name. *)
Definition join_with (sep : N) (dir name : str) : str := dir ++ sep :: name.

Definition no_fault : io_op -> option exn := fun _ => None.

(** The first sentence of the error for a missing variable, naming the
    first variable that has no value. *)
Definition missing_text (vars : list str) (ctx : gmap str str) : str :=
  lit "Input to ChatPromptTemplate is missing variables {"
  ++ match List.filter (fun name => negb (bool_decide (is_Some (ctx !! name)))) vars with
     | name :: _ => lit "'" ++ name ++ lit "'"
     | [] => []
     end
  ++ lit "}".

Definition is_simple (c : N) : bool :=
  (c =? 32) || is_digit c
  || ((65 <=? c) && (c <=? 90)) || ((97 <=? c) && (c <=? 122)).

(** [{name!s}] and [{name!r}] for a value whose [repr] is the value in
    single quotes. *)
Definition other_field (seen : list piece) (name : str)
    (conversion : option N) (format_spec : str) (ctx : gmap str str)
  : outcome str :=
  let unsupported :=
    Raised (Raise OtherException (lit "field not handled by this formatter")) in
  match conversion, format_spec, ctx !! name with
  | Some c, [], Some v =>
      if plain_name name && forallb is_simple v then
        if c =? 115 then Return v
        else if c =? 114 then Return (lit "'" ++ v ++ lit "'")
        else unsupported
      else unsupported
  | _, _, _ => unsupported
  end.

(** A platform: its line separator, its temporary directory and its path
    separator. *)
Record platform := Platform {
  p_linesep : str;
  p_tempdir : str;
  p_sep : N
}.

Definition posix : platform := Platform [LF] (lit "/tmp") 47.
Definition windows : platform := Platform [CR; LF] (lit "C:\Temp") 92.

(** The environment with the model [model], on platform [p], with the
    file operations failing as [faults] says; wkhtmltopdf is not
    installed and the DOCX library does [docx]. *)
Definition env_with (model : list (role * str) -> outcome str) (p : platform)
    (faults : io_op -> option exn) (docx : written) : Externals := {|
  model_invoke := model;
  json_loads := json_decode;
  str_upper := ascii_upper;
  linesep := p_linesep p;
  gettempdir := p_tempdir p;
  os_path_join := join_with (p_sep p);
  config := None;
  docx_save := fun _ => docx;
  io_fault := faults;
  missing_variables_text := missing_text;
  format_other_field := other_field
|}.

(** The environment in which the model gives [answer] to every request. *)
Definition env (answer : outcome str) (p : platform)
    (faults : io_op -> option exn) (docx : written) : Externals :=
  env_with (fun _ => answer) p faults docx.

(** A DOCX library that cannot save. *)
Definition docx_refused : written :=
  Written None (Some (Raise OSError (lit "[Errno 28] No space left on device"))).

Definition empty_world : world := World [] ∅ ∅.

End Demo.

(** * Sample inputs *)

Module Examples.
Import Demo.

Definition profile_url : str := lit "https://www.linkedin.com/in/ann".

Definition other_url : str := lit "https://example.com/in/ann".

(** A profile object with the four required keys, between its braces. *)
Definition ann_fields : str :=
  quoted (lit "name") ++ lit ": " ++ quoted (lit "Ann") ++ lit ", "
  ++ quoted (lit "experience") ++ lit ": [" ++ quoted (lit "Engineer at Acme") ++ lit "], "
  ++ quoted (lit "education") ++ lit ": [" ++ quoted (lit "BSc at MIT") ++ lit "], "
  ++ quoted (lit "skills") ++ lit ": [" ++ quoted (lit "Rocq") ++ lit ", "
  ++ quoted (lit "Python") ++ lit "]".

Definition ann_object : str := LBRACE :: ann_fields ++ [RBRACE].

Definition ann_dict : dict :=
  [(lit "name", JStr (lit "Ann"));
   (lit "experience", JArr [JStr (lit "Engineer at Acme")]);
   (lit "education", JArr [JStr (lit "BSc at MIT")]);
   (lit "skills", JArr [JStr (lit "Rocq"); JStr (lit "Python")])].

(** The same person without [skills]. *)
Definition no_skills_object : str :=
  lit "{" ++ quoted (lit "name") ++ lit ": " ++ quoted (lit "Ann") ++ lit ", "
  ++ quoted (lit "experience") ++ lit ": [], "
  ++ quoted (lit "education") ++ lit ": []}".

Definition no_skills_dict : dict :=
  [(lit "name", JStr (lit "Ann"));
   (lit "experience", JArr []);
   (lit "education", JArr [])].

(** The same person with nothing known about the experience. *)
Definition null_experience_object : str :=
  lit "{" ++ quoted (lit "name") ++ lit ": " ++ quoted (lit "Ann") ++ lit ", "
  ++ quoted (lit "experience") ++ lit ": null, "
  ++ quoted (lit "education") ++ lit ": [], "
  ++ quoted (lit "skills") ++ lit ": []}".

(** A second object, as a model may add one after the first. *)
Definition note_object : str :=
  lit "{" ++ quoted (lit "note") ++ lit ": " ++ quoted (lit "inferred from the URL") ++ lit "}".

(** Answers of the model. *)
Definition framed_answer : str :=
  lit "Here is the profile: " ++ ann_object ++ lit " Done.".

Definition two_objects_answer : str :=
  ann_object ++ lit " " ++ note_object.

Definition stray_braces_answer : str :=
  lit "Format {name, skills}: " ++ ann_object.

(** The model answering [answer] on a POSIX system without faults. *)
Definition answering (answer : str) : Externals :=
  env (Return answer) posix no_fault docx_refused.

Definition null_experience_dict : dict :=
  [(lit "name", JStr (lit "Ann"));
   (lit "experience", JNull);
   (lit "education", JArr []);
   (lit "skills", JArr [])].

(** A session in which the resume form holds a name already. *)
Definition filled_world : world :=
  World [] ∅ {[ lit "name" := JStr (lit "Bob") ]}.

(** A model that answers with the text it is sent, one message per
    line, on a POSIX system without faults. *)
Definition echoing : Externals :=
  env_with (fun messages => Return (join [LF] (map snd messages)))
           posix no_fault docx_refused.

(** A two-line document, and a text with a lone surrogate. *)
Definition two_lines : str := lit "a" ++ [LF] ++ lit "b".


(** A world in which an earlier export left its file behind. *)
Definition stale_world : world :=
  World [] {[ lit "/tmp/resume.pdf" := [x25; x50; x44; x46] ]} ∅.

(** A Windows system without faults, and one on which the exported file
    cannot be removed because another process holds it. *)
Definition on_windows : Externals :=
  env (Return []) windows no_fault docx_refused.

Definition remove_refused (op : io_op) : option exn :=
  match op with
  | Remove =>
      Some (Raise OSError
              (lit "[WinError 32] The process cannot access the file because it is being used by another process"))
  | _ => None
  end.

Definition locked_windows : Externals :=
  env (Return []) windows remove_refused docx_refused.

End Examples.

(** * More sample inputs *)

Module Cases.
Import Demo Examples.

(** The model is out of reach. *)
Definition outage : exn := Raise OtherException (lit "Connection error.").

Definition model_down : Externals :=
  env (Raised outage) posix no_fault docx_refused.

(** A profile whose experience is one string. *)
Definition string_experience_object : str :=
  lit "{" ++ quoted (lit "name") ++ lit ": " ++ quoted (lit "Ann") ++ lit ", "
  ++ quoted (lit "experience") ++ lit ": " ++ quoted (lit "Dev") ++ lit ", "
  ++ quoted (lit "education") ++ lit ": [], "
  ++ quoted (lit "skills") ++ lit ": []}".

Definition string_experience_dict : dict :=
  [(lit "name", JStr (lit "Ann"));
   (lit "experience", JStr (lit "Dev"));
   (lit "education", JArr []);
   (lit "skills", JArr [])].

(** Document libraries that work: what they leave at the path. *)
Definition docx_bytes : bytes := [x50; x4b; x03; x04].
Definition pdf_bytes : bytes := [x25; x50; x44; x46].

Definition office : Externals := {|
  model_invoke := fun _ => Return [];
  json_loads := json_decode;
  str_upper := ascii_upper;
  linesep := [LF];
  gettempdir := lit "/tmp";
  os_path_join := join_with 47;
  config := Some (fun _ => Written (Some pdf_bytes) None);
  docx_save := fun _ => Written (Some docx_bytes) None;
  io_fault := no_fault;
  missing_variables_text := missing_text;
  format_other_field := other_field
|}.

(** A world with a file of the user's beside the temporary files. *)
Definition notes_world : world :=
  World [] {[ lit "/tmp/notes.txt" := [x68; x69] ]} ∅.

(** A rendering of the resume data in the manner of Python's, in the
    order of the map and without escapes; the theorems do not depend on
    it. *)
Definition show_value (v : json) : str :=
  match v with
  | JStr s => lit "'" ++ s ++ lit "'"
  | _ => lit "..."
  end.

Definition plain_str : PyStr := {|
  str_of_dict := fun d =>
    lit "{"
    ++ join (lit ", ")
         (map (fun kv => lit "'" ++ fst kv ++ lit "': " ++ show_value (snd kv))
              (map_to_list d))
    ++ lit "}";
  str_of_value := show_value
|}.

(** What the widgets return when nothing is entered and no button is
    pressed, and when "Generate Resume" or "Generate Cover Letter" is
    pressed for Ann. *)
Definition idle_widgets : widgets :=
  Widgets French TXT [] false [] [] [] [] [] [] [] false false
          Startup [] false [] 0 [] 0 false [] [] [] [] false.

Definition resume_widgets : widgets :=
  Widgets French TXT [] false (lit "Ann") (lit "ann@example.com") [] []
          (lit "Engineer at Acme") (lit "Rocq") (lit "Proof engineer")
          true false Startup [] false [] 0 [] 0 false [] [] [] [] false.

Definition cover_widgets : widgets :=
  Widgets French TXT [] false (lit "Ann") (lit "ann@example.com") [] []
          (lit "Engineer at Acme") (lit "Rocq") (lit "Proof engineer")
          false true Startup [] false [] 0 [] 0 false [] [] [] [] false.

(** The session before the first run, and after the sidebar of a run in
    which French is selected. *)
Definition fresh_session : session :=
  Session empty_world None [] ∅ None None None None [].

Definition french_session : session :=
  Session empty_world (Some (lit "French")) [] ∅ None None None None [].

(** Contexts as the forms of the script build them. *)
Definition salary_context : gmap str str :=
  <[ lit "current_salary" := lit "50000" ]>
    (<[ lit "location" := lit "Paris" ]>
       (<[ lit "experience" := lit "5" ]>
          (<[ lit "industry" := lit "Software" ]>
             {[ lit "language" := lit "French" ]}))).

Definition interview_context : gmap str str :=
  <[ lit "skills" := lit "Rocq" ]>
    (<[ lit "company_type" := lit "Startup" ]>
       (<[ lit "position" := lit "Proof engineer" ]>
          {[ lit "language" := lit "French" ]})).

Definition reference_context : gmap str str :=
  <[ lit "contact_info" := lit "CTO" ]>
    (<[ lit "achievements" := lit "Engineer at Acme" ]>
       (<[ lit "duration" := lit "3 years" ]>
          (<[ lit "relationship" := lit "Manager" ]>
             (<[ lit "referee_name" := lit "Bob" ]>
                {[ lit "language" := lit "French" ]})))).

End Cases.

(** * Properties *)

(** ** The library functions on known values *)

Example b64encode_foobar :
  b64encode (map byte_of_N (lit "foobar")) = lit "Zm9vYmFy"
  /\ b64encode (map byte_of_N (lit "fooba")) = lit "Zm9vYmE="
  /\ b64encode (map byte_of_N (lit "foob")) = lit "Zm9vYg=="
  /\ b64encode [] = [].
Proof. repeat split; vm_compute; reflexivity. Qed.

(** U+00E9, U+20AC and U+1F600; a lone surrogate has no encoding. *)
Example utf8_encode_samples :
  utf8_encode [233; 8364; 128512]
  = Some [xc3; xa9; xe2; x82; xac; xf0; x9f; x98; x80]
  /\ utf8_encode [97; 55296] = None.
Proof. split; vm_compute; reflexivity. Qed.

Example re_search_is_greedy :
  re_search json_pattern (lit "a{b}c{d}e") = Some (1%nat, 7%nat)
  /\ group (lit "a{b}c{d}e") (1%nat, 7%nat) = lit "{b}c{d}"
  /\ re_search json_pattern (lit "} no match {") = None.
Proof. repeat split; vm_compute; reflexivity. Qed.

(** The texts are those of Python 3's parser. *)
Example parse_template_samples :
  parse_template InText (lit "{{x}} is {name}")
  = Return (map Text (lit "{x} is ") ++ [Field (lit "name") None []])
  /\ parse_template InText (lit "{name!r:>{width}} {a[b}c].d}")
     = Return [Field (lit "name") (Some 114) (lit ">{width}"); Text 32;
               Field (lit "a[b}c].d") None []]
  /\ parse_template InText (lit "{}") = Return [Field [] None []]
  /\ parse_template InText (lit "open {name")
     = Raised (Raise ValueError (lit "expected '}' before end of string"))
  /\ parse_template InText (lit "a } b")
     = Raised (Raise ValueError (lit "Single '}' encountered in format string"))
  /\ parse_template InText (lit "{a{b}}")
     = Raised (Raise ValueError (lit "unexpected '{' in field name"))
  /\ parse_template InText (lit "{a!rx}")
     = Raised (Raise ValueError (lit "expected ':' after conversion specifier"))
  /\ parse_template InText (lit "{a:{b}")
     = Raised (Raise ValueError (lit "unmatched '{' in format spec")).
Proof. repeat split; vm_compute; reflexivity. Qed.

Example format_template_samples :
  format_template (H := Demo.env (Return []) Demo.posix Demo.no_fault (Written None None))
    (lit "{{x}} is {name}") {[ lit "name" := lit "Ann" ]}
  = Return (lit "{x} is Ann")
  /\ format_template (H := Demo.env (Return []) Demo.posix Demo.no_fault (Written None None))
       (lit "{name!r}") {[ lit "name" := lit "Ann" ]}
     = Return (lit "'Ann'")
  /\ exn_class_of
       (Raise KeyError
          (missing_variables_text
             (Externals := Demo.env (Return []) Demo.posix Demo.no_fault (Written None None))
             [lit "name"] ∅))
     = KeyError
  /\ format_template (H := Demo.env (Return []) Demo.posix Demo.no_fault (Written None None))
       (lit "{name}") ∅
     = Raised (Raise KeyError
                 (lit "Input to ChatPromptTemplate is missing variables {'name'}")).
Proof. repeat split; vm_compute; reflexivity. Qed.

(** The text of an encoding error names the surrogate and its place. *)
Example encode_error_text_samples :
  encode_error_text [97; 55296]
  = lit "'utf-8' codec can't encode character '\ud800' in position 1: surrogates not allowed"
  /\ encode_error_text [233; 56448; 56449; 56450]
     = lit "'utf-8' codec can't encode characters in position 1-3: surrogates not allowed".
Proof. split; vm_compute; reflexivity. Qed.

Example json_decode_samples :
  Demo.json_decode (lit " [1, -2, [true, null], {}] ")
  = Return (JArr [JInt 1; JInt (-2); JArr [JBool true; JNull]; JObj []])
  /\ Demo.json_decode Examples.ann_object = Return (JObj Examples.ann_dict)
  /\ Demo.json_decode (lit "{a}")
     = Raised (Raise JSONDecodeError (lit "Expecting value"))
  /\ Demo.json_decode (lit "{} {}")
     = Raised (Raise JSONDecodeError (lit "Extra data")).
Proof. repeat split; vm_compute; reflexivity. Qed.

(** ** Strings *)

Lemma str_eqb_eq (a b : str) : str_eqb a b = true <-> a = b.
Proof.
  revert b; induction a as [|x a IH]; intros [|y b]; simpl; split;
    try congruence; try reflexivity.
  - intros E. apply andb_prop in E as [E1 E2].
    apply N.eqb_eq in E1. apply IH in E2. congruence.
  - intros E. injection E as -> ->.
    rewrite N.eqb_refl. simpl. now apply IH.
Qed.

Lemma str_eqb_neq (a b : str) : a <> b -> str_eqb a b = false.
Proof.
  intros Hne. destruct (str_eqb a b) eqn:E; [|reflexivity].
  apply str_eqb_eq in E. contradiction.
Qed.

Lemma startswith_app (p t : str) : startswith (p ++ t) p = true.
Proof.
  induction p as [|c p IH]; simpl; [reflexivity|].
  now rewrite N.eqb_refl, IH.
Qed.

(** A character test that can be run. *)
Lemma absent_char (c : N) (s : str) :
  forallb (fun x => negb (x =? c)) s = true -> c ∉ s.
Proof.
  induction s as [|x s IH]; simpl; intros E.
  - apply not_elem_of_nil.
  - apply andb_prop in E as [E1 E2].
    apply not_elem_of_cons. split; [|now apply IH].
    intros ->. now rewrite N.eqb_refl in E1.
Qed.

(** ** The scan [re.search(r'\{.*\}', response, re.DOTALL)] *)


Lemma match_closing_cons (c : N) (t : str) :
  match_here closing (c :: t) =
  match match_here closing t with
  | Some n => Some (S n)
  | None => if c =? RBRACE then Some 1%nat else None
  end.
Proof.
  unfold closing. simpl.
  destruct (c =? RBRACE); reflexivity.
Qed.

Lemma match_closing_nil : match_here closing [] = None.
Proof. reflexivity. Qed.

(** Without a closing brace, the tail of the pattern fails. *)
Lemma match_closing_none (s : str) :
  RBRACE ∉ s -> match_here closing s = None.
Proof.
  induction s as [|c t IH]; intros Hn; [reflexivity|].
  rewrite match_closing_cons.
  apply not_elem_of_cons in Hn as [Hc Ht].
  rewrite (IH Ht).
  destruct (N.eqb_spec c RBRACE); [congruence|reflexivity].
Qed.

(** The closure runs to the last closing brace. *)
Lemma match_closing_last (mid post : str) :
  RBRACE ∉ post ->
  match_here closing (mid ++ RBRACE :: post) = Some (S (length mid)).
Proof.
  intros Hp. induction mid as [|c mid IH]; simpl app.
  - rewrite match_closing_cons, (match_closing_none _ Hp).
    now rewrite N.eqb_refl.
  - rewrite match_closing_cons, IH. reflexivity.
Qed.

(** Conversely, where the tail of the pattern fails there is no closing
    brace, and where it succeeds it stops at the last one. *)
Lemma match_closing_inv (s : str) :
  match match_here closing s with
  | Some n => exists mid post,
      s = mid ++ RBRACE :: post /\ (RBRACE ∉ post) /\ n = S (length mid)
  | None => RBRACE ∉ s
  end.
Proof.
  induction s as [|c t IH].
  - simpl. apply not_elem_of_nil.
  - rewrite match_closing_cons.
    destruct (match_here closing t) as [n|].
    + destruct IH as (mid & post & -> & Hp & ->).
      exists (c :: mid), post. repeat split; assumption.
    + destruct (N.eqb_spec c RBRACE) as [->|Hc].
      * exists [], t. repeat split; assumption.
      * apply not_elem_of_cons. split; [congruence|assumption].
Qed.

Lemma match_json_pattern_cons (c : N) (t : str) :
  match_here json_pattern (c :: t) =
  if c =? LBRACE then option_map S (match_here closing t) else None.
Proof. reflexivity. Qed.

Lemma match_json_pattern_nil : match_here json_pattern [] = None.
Proof. reflexivity. Qed.

(** The span from the first opening brace to the last closing brace. *)
Lemma search_from_outermost (pre mid post : str) (i : nat) :
  LBRACE ∉ pre -> RBRACE ∉ post ->
  search_from json_pattern (pre ++ LBRACE :: mid ++ RBRACE :: post) i
  = Some ((i + length pre)%nat, S (S (length mid))).
Proof.
  intros Hpre Hpost. revert i.
  induction pre as [|c pre IH]; intros i; simpl app.
  - unfold search_from; fold search_from.
    rewrite match_json_pattern_cons, N.eqb_refl.
    rewrite (match_closing_last _ _ Hpost). simpl.
    do 2 f_equal. lia.
  - apply not_elem_of_cons in Hpre as [Hc Hpre].
    unfold search_from; fold search_from.
    rewrite match_json_pattern_cons.
    destruct (N.eqb_spec c LBRACE); [congruence|].
    rewrite (IH Hpre). simpl. do 2 f_equal. lia.
Qed.

(** No opening brace with a closing brace after it: no match. *)
Lemma search_from_none (s : str) (i : nat) :
  (forall pre mid post, s <> pre ++ LBRACE :: mid ++ RBRACE :: post) ->
  search_from json_pattern s i = None.
Proof.
  revert i. induction s as [|c t IH]; intros i Hno; [reflexivity|].
  unfold search_from; fold search_from.
  rewrite match_json_pattern_cons.
  destruct (N.eqb_spec c LBRACE) as [->|Hc].
  - pose proof (match_closing_inv t) as Ht.
    destruct (match_here closing t) as [n|].
    + destruct Ht as (mid & post & -> & _ & _).
      exfalso. apply (Hno [] mid post). reflexivity.
    + simpl. apply IH. intros pre mid post ->.
      apply (Hno (LBRACE :: pre) mid post). reflexivity.
  - apply IH. intros pre mid post ->.
    apply (Hno (c :: pre) mid post). reflexivity.
Qed.

Lemma group_outermost (pre mid post : str) :
  group (pre ++ LBRACE :: mid ++ RBRACE :: post)
        (length pre, S (S (length mid)))
  = LBRACE :: mid ++ [RBRACE].
Proof.
  unfold group. simpl fst. simpl snd.
  rewrite drop_app_length. simpl. f_equal.
  change (RBRACE :: post) with ([RBRACE] ++ post).
  rewrite app_assoc.
  replace (S (length mid)) with (length (mid ++ [RBRACE]))
    by (rewrite length_app; simpl; lia).
  apply take_app_length.
Qed.

(** ** Prompt templates *)

Lemma parse_template_cons (m : mode) (c : N) (t : str) :
  parse_template m (c :: t)
  = match m with
    | InText =>
        if c =? LBRACE then
          match t with
          | [] => malformed "Single '{' encountered in format string"
          | c' :: t' =>
              if c' =? LBRACE
              then then_piece (Text LBRACE) (parse_template InText t')
              else parse_template (InName []) t
          end
        else if c =? RBRACE then
          match t with
          | [] => malformed "Single '}' encountered in format string"
          | c' :: t' =>
              if c' =? RBRACE
              then then_piece (Text RBRACE) (parse_template InText t')
              else malformed "Single '}' encountered in format string"
          end
        else then_piece (Text c) (parse_template InText t)
    | InName acc =>
        if c =? LBRACE then malformed "unexpected '{' in field name"
        else if c =? LBRACKET then parse_template (InIndex (c :: acc)) t
        else if c =? RBRACE
        then then_piece (Field (rev acc) None []) (parse_template InText t)
        else if c =? COLON then parse_template (InSpec (rev acc) None [] 0) t
        else if c =? BANG then parse_template (AtConversion (rev acc)) t
        else parse_template (InName (c :: acc)) t
    | InIndex acc =>
        if c =? RBRACKET then parse_template (InName (c :: acc)) t
        else parse_template (InIndex (c :: acc)) t
    | AtConversion name => parse_template (AfterConversion name c) t
    | AfterConversion name conversion =>
        if c =? RBRACE
        then then_piece (Field name (Some conversion) [])
                        (parse_template InText t)
        else if c =? COLON
        then parse_template (InSpec name (Some conversion) [] 0) t
        else malformed "expected ':' after conversion specifier"
    | InSpec name conversion acc depth =>
        if c =? LBRACE
        then parse_template (InSpec name conversion (c :: acc) (S depth)) t
        else if c =? RBRACE then
          match depth with
          | O => then_piece (Field name conversion (rev acc))
                            (parse_template InText t)
          | S d => parse_template (InSpec name conversion (c :: acc) d) t
          end
        else parse_template (InSpec name conversion (c :: acc) depth) t
    end.
Proof. destruct m; reflexivity. Qed.

Lemma variables_app (ps qs : list piece) :
  variables (ps ++ qs) = variables ps ++ variables qs.
Proof.
  induction ps as [|[c|name conv spec] ps IH]; simpl; [reflexivity|exact IH|].
  now rewrite IH.
Qed.

Lemma variables_only_text (s : str) : variables (map Text s) = [].
Proof. induction s as [|c s IH]; [reflexivity|exact IH]. Qed.

Lemma variables_text (s : str) (ps : list piece) :
  variables (map Text s ++ ps) = variables ps.
Proof. now rewrite variables_app, variables_only_text. Qed.

Lemma parse_system_prompt :
  parse_template InText system_prompt = Return (map Text system_message).
Proof. vm_compute. reflexivity. Qed.

Lemma parse_human_template :
  parse_template InText (lit "Profile URL: {url}")
  = Return (map Text (lit "Profile URL: ") ++ [Field (lit "url") None []]).
Proof. vm_compute. reflexivity. Qed.

Section Templates.
Context `{Externals}.

Lemma render_text (seen : list piece) (s : str) (ps : list piece)
    (ctx : gmap str str) :
  render seen (map Text s ++ ps) ctx
  = obind (render seen ps ctx) (fun r => Return (s ++ r)).
Proof.
  induction s as [|c s IH]; simpl.
  - destruct (render seen ps ctx); reflexivity.
  - rewrite IH. destruct (render seen ps ctx); reflexivity.
Qed.

Lemma render_only_text (seen : list piece) (s : str) (ctx : gmap str str) :
  render seen (map Text s) ctx = Return s.
Proof.
  rewrite <- (app_nil_r (map Text s)), render_text. simpl.
  now rewrite app_nil_r.
Qed.

(** A plain field with a value is replaced by the value. *)
Lemma render_field (seen : list piece) (k v : str) (ps : list piece)
    (ctx : gmap str str) :
  plain_name k = true -> ctx !! k = Some v ->
  render seen (Field k None [] :: ps) ctx
  = obind (render (Field k None [] :: seen) ps ctx) (fun r => Return (v ++ r)).
Proof.
  intros Hplain Hk. cbn [render]. unfold replace_field.
  rewrite Hplain, Hk. reflexivity.
Qed.

Lemma bound_cons (ctx : gmap str str) (k v : str) (vars : list str) :
  ctx !! k = Some v -> bound ctx (k :: vars) = bound ctx vars.
Proof.
  intros Hk. unfold bound. cbn [forallb]. rewrite Hk.
  rewrite bool_decide_eq_true_2 by (now exists v). reflexivity.
Qed.

Lemma bound_missing (ctx : gmap str str) (name : str) (vars : list str) :
  name ∈ vars -> ctx !! name = None -> bound ctx vars = false.
Proof.
  intros Hin Hmiss. unfold bound.
  destruct (forallb _ vars) eqn:E; [|reflexivity].
  apply list_elem_of_In in Hin.
  pose proof (proj1 (forallb_forall _ _) E name Hin) as Hb.
  apply bool_decide_eq_true_1 in Hb. rewrite Hmiss in Hb.
  now destruct Hb.
Qed.

Lemma format_profile_messages (url : str) :
  format_messages [(System, system_prompt); (Human, lit "Profile URL: {url}")]
                  {[ lit "url" := url ]}
  = Return (profile_messages url).
Proof.
  unfold format_messages, parse_messages.
  rewrite parse_system_prompt, parse_human_template.
  cbn [obind flat_map snd].
  rewrite variables_only_text, variables_text.
  cbn [variables app].
  rewrite (bound_cons _ _ url) by apply lookup_singleton_eq.
  cbn [bound forallb render_messages].
  rewrite render_only_text, render_text.
  rewrite (render_field _ _ url) by (reflexivity || apply lookup_singleton_eq).
  cbn [render obind]. unfold profile_messages. now rewrite app_nil_r.
Qed.

End Templates.

(** ** The import adapter *)

Section ImportAdapter.
Context `{Externals}.

Lemma extract_json_outermost (pre mid post : str) (w : world) :
  LBRACE ∉ pre -> RBRACE ∉ post ->
  extract_json (pre ++ LBRACE :: mid ++ RBRACE :: post) w
  = (Return (LBRACE :: mid ++ [RBRACE]), w).
Proof.
  intros Hpre Hpost. unfold extract_json, re_search.
  rewrite (search_from_outermost _ _ _ _ Hpre Hpost).
  simpl Nat.add. now rewrite group_outermost.
Qed.

Lemma extract_json_none (response : str) (w : world) :
  (forall pre mid post, response <> pre ++ LBRACE :: mid ++ RBRACE :: post) ->
  extract_json response w
  = (Raised (Raise ValueError (lit "No valid JSON found in response")), w).
Proof.
  intros Hno. unfold extract_json, re_search.
  now rewrite (search_from_none _ _ Hno).
Qed.

(** With a well-formed URL and an answer of the model, the adapter is the
    scan of the answer followed by parsing and validation. *)
Lemma linkedin_import_answer (url response : str) (w : world) :
  startswith url LINKEDIN_PREFIX = true ->
  model_invoke (profile_messages url) = Return response ->
  linkedin_import url w
  = try_except (let! json_str := extract_json response in
                parse_and_validate json_str) import_failed w.
Proof.
  intros Hurl Hresp. unfold linkedin_import, try_except.
  rewrite Hurl. simpl negb. cbv iota.
  unfold bind at 1. unfold lift at 1.
  rewrite format_profile_messages.
  unfold bind at 1. unfold lift at 1. rewrite Hresp.
  reflexivity.
Qed.

(** The adapter changes nothing but the messages on the page, and it
    never lets an exception escape. *)
Lemma linkedin_import_total (url : str) (w : world) :
  exists v msgs,
    linkedin_import url w = (Return v, World (ui w ++ msgs) (fs w) (resume_data w)).
Proof.
  assert (Hw : w = World (ui w ++ []) (fs w) (resume_data w))
    by (destruct w; simpl; now rewrite app_nil_r).
  assert (Hfail : forall e, exists v msgs,
             import_failed e w
             = (Return v, World (ui w ++ msgs) (fs w) (resume_data w))).
  { intros e. eexists _, [_]. reflexivity. }
  unfold linkedin_import, try_except.
  destruct (negb (startswith url LINKEDIN_PREFIX)); [apply Hfail|].
  unfold bind, lift, extract_json, parse_and_validate, bind, lift, raise, ret.
  destruct (format_messages _ _); [|apply Hfail].
  destruct (model_invoke _) as [response|]; [|apply Hfail].
  destruct (re_search json_pattern response); [|apply Hfail].
  destruct (json_loads _) as [v|]; [|apply Hfail].
  destruct (py_all_in required_fields v) as [[|]|]; simpl; try apply Hfail.
  exists v, []. now rewrite <- Hw.
Qed.

End ImportAdapter.

(** ** Key validation *)

Lemma py_all_in_dict (fields : list str) (d : dict) :
  py_all_in fields (JObj d) = Return (forallb (dict_has d) fields).
Proof.
  induction fields as [|f rest IH]; simpl; [reflexivity|].
  destruct (dict_has d f); simpl; [exact IH|reflexivity].
Qed.

Lemma forallb_required (d : dict) :
  Forall (fun k => dict_has d k = true) required_fields ->
  forallb (dict_has d) required_fields = true.
Proof.
  intros Hall. apply forallb_forall. intros k Hk.
  rewrite Forall_forall in Hall. apply Hall.
  now apply list_elem_of_In.
Qed.

Lemma forallb_missing (d : dict) (k : str) :
  k ∈ required_fields -> dict_has d k = false ->
  forallb (dict_has d) required_fields = false.
Proof.
  intros Hk Hmiss.
  destruct (forallb (dict_has d) required_fields) eqn:E; [|reflexivity].
  rewrite forallb_forall in E.
  rewrite (E k) in Hmiss; [discriminate|].
  now apply list_elem_of_In.
Qed.

(** ** Templates followed by text without braces *)

Lemma brace_free_cons (c : N) (d : str) :
  brace_free (c :: d) = true ->
  (c =? LBRACE) = false /\ (c =? RBRACE) = false /\ brace_free d = true.
Proof.
  unfold brace_free. simpl. intros E.
  apply andb_prop in E as [E1 E2]. apply andb_prop in E1 as [Ea Eb].
  apply negb_true_iff in Ea, Eb. auto.
Qed.

Lemma brace_free_app (a b : str) :
  brace_free (a ++ b) = brace_free a && brace_free b.
Proof. unfold brace_free. apply forallb_app. Qed.

(** A field left open is never closed by a text without braces. *)
Lemma parse_open_brace_free (d : str) :
  brace_free d = true ->
  forall m, m <> InText ->
            exists text, parse_template m d = Raised (Raise ValueError (lit text)).
Proof.
  induction d as [|c d IH]; intros Hd m Hm.
  - destruct m; try (now destruct Hm); simpl; unfold malformed; eauto.
  - apply brace_free_cons in Hd as (Hl & Hr & Hd).
    rewrite parse_template_cons.
    destruct m as [|acc|acc|name|name conv|name conv acc depth];
      [now destruct Hm| | | | |]; rewrite ?Hl, ?Hr.
    + destruct (c =? LBRACKET); [now apply IH|].
      destruct (c =? COLON); [now apply IH|].
      destruct (c =? BANG); now apply IH.
    + destruct (c =? RBRACKET); now apply IH.
    + now apply IH.
    + destruct (c =? COLON); [now apply IH|].
      unfold malformed. eauto.
    + now apply IH.
Qed.

Lemma parse_text_brace_free (d : str) :
  brace_free d = true -> parse_template InText d = Return (map Text d).
Proof.
  induction d as [|c d IH]; intros Hd; [reflexivity|].
  apply brace_free_cons in Hd as (Hl & Hr & Hd).
  rewrite parse_template_cons, Hl, Hr, (IH Hd). reflexivity.
Qed.

Lemma then_piece_suffix (p : piece) (o o' : outcome (list piece)) (d : str) :
  match o with
  | Return ps => o' = Return (ps ++ map Text d)
  | Raised e =>
      exn_class_of e = ValueError
      /\ exists text, o' = Raised (Raise ValueError (lit text))
  end ->
  match then_piece p o with
  | Return ps => then_piece p o' = Return (ps ++ map Text d)
  | Raised e =>
      exn_class_of e = ValueError
      /\ exists text, then_piece p o' = Raised (Raise ValueError (lit text))
  end.
Proof.
  destruct o as [ps|e]; simpl.
  - intros ->. reflexivity.
  - intros (He & text & ->). split; [exact He|]. now exists text.
Qed.

(** A template followed by text without braces parses as the template
    followed by that text, and a template that cannot be read stays so;
    the parser raises nothing but [ValueError].  The statement is for
    every template of length at most [n], from every place of the
    parser. *)
Lemma parse_template_suffix_bounded (d : str) :
  brace_free d = true ->
  forall (n : nat) (t : str),
    (length t <= n)%nat ->
    forall m,
      match parse_template m t with
      | Return ps => parse_template m (t ++ d) = Return (ps ++ map Text d)
      | Raised e =>
          exn_class_of e = ValueError
          /\ exists text,
              parse_template m (t ++ d) = Raised (Raise ValueError (lit text))
      end.
Proof.
  intros Hd.
  assert (Hnil : forall m,
             match parse_template m [] with
             | Return ps => parse_template m d = Return (ps ++ map Text d)
             | Raised e =>
                 exn_class_of e = ValueError
                 /\ exists text,
                     parse_template m d = Raised (Raise ValueError (lit text))
             end).
  { intros m. destruct m; simpl;
      try (split; [reflexivity|]; now apply parse_open_brace_free).
    now apply parse_text_brace_free. }
  induction n as [|n IH]; intros t Hlen m.
  { destruct t; [|simpl in Hlen; lia]. apply Hnil. }
  destruct t as [|c t]; [apply Hnil|].
  simpl in Hlen. assert (Ht : (length t <= n)%nat) by lia.
  rewrite <- app_comm_cons, !parse_template_cons.
  destruct m as [|acc|acc|name|name conv|name conv acc depth].
  - destruct (c =? LBRACE).
    + destruct t as [|c' t].
      * simpl app. unfold malformed at 1. split; [reflexivity|].
        destruct d as [|x d]; [unfold malformed; eauto|].
        destruct (brace_free_cons _ _ Hd) as (Hl & _ & _).
        rewrite Hl. now apply parse_open_brace_free.
      * rewrite <- app_comm_cons. destruct (c' =? LBRACE).
        -- apply then_piece_suffix. apply IH. simpl in Ht. lia.
        -- rewrite app_comm_cons. now apply IH.
    + destruct (c =? RBRACE).
      * destruct t as [|c' t].
        -- simpl app. unfold malformed at 1. split; [reflexivity|].
           destruct d as [|x d]; [unfold malformed; eauto|].
           destruct (brace_free_cons _ _ Hd) as (_ & Hr & _).
           rewrite Hr. unfold malformed. eauto.
        -- rewrite <- app_comm_cons. destruct (c' =? RBRACE).
           ++ apply then_piece_suffix. apply IH. simpl in Ht. lia.
           ++ unfold malformed. split; [reflexivity|]. eauto.
      * apply then_piece_suffix. now apply IH.
  - destruct (c =? LBRACE); [unfold malformed; split; [reflexivity|]; eauto|].
    destruct (c =? LBRACKET); [now apply IH|].
    destruct (c =? RBRACE); [apply then_piece_suffix; now apply IH|].
    destruct (c =? COLON); [now apply IH|].
    destruct (c =? BANG); now apply IH.
  - destruct (c =? RBRACKET); now apply IH.
  - now apply IH.
  - destruct (c =? RBRACE); [apply then_piece_suffix; now apply IH|].
    destruct (c =? COLON); [now apply IH|].
    unfold malformed. split; [reflexivity|]. eauto.
  - destruct (c =? LBRACE); [now apply IH|].
    destruct (c =? RBRACE); [|now apply IH].
    destruct depth; [apply then_piece_suffix|]; now apply IH.
Qed.

Lemma parse_template_suffix (t d : str) :
  brace_free d = true ->
  match parse_template InText t with
  | Return ps => parse_template InText (t ++ d) = Return (ps ++ map Text d)
  | Raised e =>
      exn_class_of e = ValueError
      /\ exists text,
          parse_template InText (t ++ d) = Raised (Raise ValueError (lit text))
  end.
Proof.
  intros Hd.
  apply (parse_template_suffix_bounded d Hd (length t) t (le_n _)).
Qed.

Section TemplateSuffix.
Context `{Externals}.

Lemma render_suffix (seen ps : list piece) (d : str) (ctx : gmap str str) :
  render seen (ps ++ map Text d) ctx
  = obind (render seen ps ctx) (fun r => Return (r ++ d)).
Proof.
  revert seen. induction ps as [|[c|name conv spec] ps IH]; intros seen.
  - simpl. apply render_only_text.
  - simpl. rewrite IH. destruct (render seen ps ctx); reflexivity.
  - rewrite <- app_comm_cons. cbn [render].
    destruct (replace_field seen name conv spec ctx) as [v|e]; [|reflexivity].
    cbn [obind]. rewrite IH.
    destruct (render _ ps ctx); simpl; [|reflexivity].
    now rewrite app_assoc.
Qed.

(** Formatting a template followed by text without braces: the text
    follows what the template gives, and a template that raises still
    raises an exception of the same class. *)
Lemma format_template_suffix (t d : str) (ctx : gmap str str) :
  brace_free d = true ->
  match format_template t ctx with
  | Return p => format_template (t ++ d) ctx = Return (p ++ d)
  | Raised e =>
      exists e', format_template (t ++ d) ctx = Raised e'
                 /\ exn_class_of e' = exn_class_of e
  end.
Proof.
  intros Hd. unfold format_template.
  pose proof (parse_template_suffix t d Hd) as Hp.
  destruct (parse_template InText t) as [ps|e].
  - rewrite Hp. cbn [obind].
    rewrite variables_app, variables_only_text, app_nil_r.
    destruct (bound ctx (variables ps)).
    + rewrite render_suffix. destruct (render [] ps ctx) as [p|e].
      * reflexivity.
      * exists e. split; reflexivity.
    + eexists. split; reflexivity.
  - destruct Hp as (He & text & ->). cbn [obind].
    eexists. split; [reflexivity|]. now rewrite He.
Qed.

End TemplateSuffix.

Lemma language_directive_brace_free (language : str) :
  language ∈ LANGUAGES -> brace_free (language_directive language) = true.
Proof.
  unfold LANGUAGES. intros Hin.
  repeat (apply elem_of_cons in Hin as [->|Hin]; [vm_compute; reflexivity|]).
  now apply elem_of_nil in Hin.
Qed.

(** ** The export writer *)

Section ExportWriter.
Context `{Externals}.

Lemma translate_newlines_lf (s : str) :
  linesep = [LF] -> translate_newlines s = s.
Proof.
  intros Hsep. unfold translate_newlines.
  induction s as [|c s IH]; simpl; [reflexivity|].
  rewrite IH. destruct (N.eqb_spec c LF) as [->|_].
  - now rewrite Hsep.
  - reflexivity.
Qed.

(** The cleanup step never raises. *)
Lemma cleanup_returns (p : str) (w : world) :
  fst (cleanup p w) = Return tt.
Proof.
  unfold cleanup, try_except, bind, os_path_exists, os_remove, st_error, ret.
  destruct (bool_decide (is_Some (fs w !! p))); [|reflexivity].
  destruct (io_fault Remove); [reflexivity|].
  destruct (fs w !! p); reflexivity.
Qed.

(** Where [os.remove] is not refused, the path is gone afterwards. *)
Lemma cleanup_removes (p : str) (w : world) :
  io_fault Remove = None -> fs (snd (cleanup p w)) !! p = None.
Proof.
  intros Hrm.
  unfold cleanup, try_except, bind, os_path_exists, os_remove, st_error, ret.
  rewrite Hrm.
  destruct (bool_decide (is_Some (fs w !! p))) eqn:E.
  - apply bool_decide_eq_true in E as [b Hb]. rewrite Hb. simpl.
    apply lookup_delete_eq.
  - apply bool_decide_eq_false in E. simpl.
    destruct (fs w !! p) eqn:Hb; [|reflexivity].
    exfalso. apply E. eauto.
Qed.


(** The cleanup where [os.remove] is not refused. *)
Lemma cleanup_exact (p : str) (w : world) :
  io_fault Remove = None ->
  cleanup p w = (Return tt, set_fs (delete p (fs w)) w).
Proof.
  intros Hrm.
  unfold cleanup, try_except, bind, os_path_exists, os_remove, st_error, ret.
  rewrite Hrm.
  destruct (bool_decide (is_Some (fs w !! p))) eqn:E.
  - apply bool_decide_eq_true in E as [b Hb]. now rewrite Hb.
  - apply bool_decide_eq_false in E.
    assert (Hn : fs w !! p = None).
    { destruct (fs w !! p) eqn:Hb; [|reflexivity]. exfalso. apply E. eauto. }
    rewrite (delete_id _ _ Hn). now destruct w.
Qed.


(** The writer is its guarded body followed by the cleanup. *)
Lemma create_download_link_unfold (content format_type filename : str) (w : world) :
  let p := temp_path_of format_type filename in
  let attempt :=
    try_except
      (let! _ := generate_file content format_type p in
       let! data := read_binary p in
       ret (download_link (b64encode data) filename format_type))
      (export_failed format_type) w in
  create_download_link content format_type filename w
  = (fst attempt, snd (cleanup p (snd attempt))).
Proof.
  intros p attempt. unfold create_download_link, try_finally.
  fold p. fold attempt. destruct attempt as [r w1]. simpl.
  pose proof (cleanup_returns p w1) as Hc.
  destruct (cleanup p w1) as [[[]|e] w2]; simpl in *; [reflexivity|discriminate].
Qed.

(** The guarded body always ends in a value. *)
Lemma export_attempt_returns (body : M str) (format_type : str) (w : world) :
  exists s, fst (try_except body (export_failed format_type) w) = Return s.
Proof.
  unfold try_except. destruct (body w) as [[s|e] w1].
  - exists s. reflexivity.
  - exists []. reflexivity.
Qed.

Lemma set_fs_set_fs (f g : gmap str bytes) (w : world) :
  set_fs f (set_fs g w) = set_fs f w.
Proof. reflexivity. Qed.

(** The plain-text branch where the system cooperates. *)
Lemma write_as_text (content p : str) (b : bytes) (w : world) :
  io_fault OpenWrite = None -> io_fault WriteText = None ->
  utf8_encode (translate_newlines content) = Some b ->
  (let! _ := open_w p in write_text p content) w
  = (Return tt, set_fs (<[p := b]> (fs w)) w).
Proof.
  intros Ho Hw Hb. unfold bind, open_w, write_text.
  rewrite Ho, Hb, Hw. simpl fs.
  now rewrite insert_insert_eq, set_fs_set_fs.
Qed.

Lemma read_back (p : str) (b : bytes) (w : world) :
  io_fault OpenRead = None ->
  read_binary p (set_fs (<[p := b]> (fs w)) w)
  = (Return b, set_fs (<[p := b]> (fs w)) w).
Proof.
  intros Hr. unfold read_binary. rewrite Hr. simpl fs.
  now rewrite lookup_insert_eq.
Qed.

Lemma generate_file_other (content format_type p : str) :
  format_type <> lit "pdf" -> format_type <> lit "docx" ->
  generate_file content format_type p
  = (let! _ := open_w p in write_text p content).
Proof.
  intros Hpdf Hdocx. unfold generate_file.
  now rewrite (str_eqb_neq _ _ Hpdf), (str_eqb_neq _ _ Hdocx).
Qed.

(** What the writer returns for a format tag other than pdf and docx
    where the system cooperates. *)
Lemma create_download_link_text
    (content format_type filename : str) (b : bytes) (w : world) :
  format_type <> lit "pdf" -> format_type <> lit "docx" ->
  io_fault OpenWrite = None -> io_fault WriteText = None ->
  io_fault OpenRead = None ->
  utf8_encode (translate_newlines content) = Some b ->
  fst (create_download_link content format_type filename w)
  = Return (download_link (b64encode b) filename format_type).
Proof.
  intros Hpdf Hdocx Ho Hw Hr Hb.
  rewrite create_download_link_unfold. cbv zeta. simpl fst.
  unfold try_except. unfold bind at 1.
  rewrite (generate_file_other _ _ _ Hpdf Hdocx).
  rewrite (write_as_text _ _ _ _ Ho Hw Hb).
  unfold bind. rewrite (read_back _ _ _ Hr). reflexivity.
Qed.

End ExportWriter.

(** ** The "Import Profile" action *)

Section ImportProfile.
Context `{Externals}.

(** The action after the adapter has returned [v]. *)
Lemma import_profile_after (url : str) (w w' : world) (v : json) :
  url <> [] ->
  linkedin_import url w = (Return v, w') ->
  import_profile url w
  = if py_bool v then
      match flattened_profile v with
      | Return items =>
          (Return tt, add_ui SUCCESS (snd (resume_data_update items w')))
      | Raised e =>
          (Return tt,
           add_ui (StError (lit "Failed to process LinkedIn profile: " ++ exn_str e)) w')
      end
    else (Return tt, add_ui SUCCESS w').
Proof.
  intros Hurl Himp. unfold import_profile.
  destruct url as [|c url]; [contradiction|].
  unfold try_except. unfold bind at 1. rewrite Himp.
  destruct (py_bool v); [|reflexivity].
  unfold bind, lift. destruct (flattened_profile v); reflexivity.
Qed.

End ImportProfile.

(** * The claims *)

Section ImportClaims.
Context `{Externals}.

(** C1 (as amended).  The text handed to the JSON parser is the span of
    the answer from its first opening brace to its last closing brace,
    which is what the greedy scan matches; an answer without an opening
    brace followed by a closing brace is not parsed at all and the
    import fails with "No valid JSON found in response". *)
Theorem linkedin_import_parses_outermost_braces
    (url response : str) (w : world) :
  startswith url LINKEDIN_PREFIX = true ->
  model_invoke (profile_messages url) = Return response ->
  (forall pre mid post,
      response = pre ++ LBRACE :: mid ++ RBRACE :: post ->
      LBRACE ∉ pre -> RBRACE ∉ post ->
      extract_json response w = (Return (LBRACE :: mid ++ [RBRACE]), w) /\
      linkedin_import url w
      = try_except (parse_and_validate (LBRACE :: mid ++ [RBRACE])) import_failed w)
  /\
  ((forall pre mid post, response <> pre ++ LBRACE :: mid ++ RBRACE :: post) ->
   linkedin_import url w
   = (Return (JObj []),
      add_ui (StError (lit "LinkedIn import error: No valid JSON found in response")) w)).
Proof.
  intros Hurl Hresp. split.
  - intros pre mid post -> Hpre Hpost.
    pose proof (extract_json_outermost pre mid post w Hpre Hpost) as Hx.
    split; [exact Hx|].
    rewrite (linkedin_import_answer _ _ _ Hurl Hresp).
    unfold try_except, bind. rewrite Hx. reflexivity.
  - intros Hno.
    rewrite (linkedin_import_answer _ _ _ Hurl Hresp).
    unfold try_except, bind. rewrite (extract_json_none _ _ Hno).
    reflexivity.
Qed.

(** C2 (as amended).  When the answer holds one JSON object with the four
    required keys, no opening brace before it and no closing brace after
    it, the import adapter returns the mapping the parser read from that
    object, unchanged, and reports nothing. *)
Theorem linkedin_import_returns_object_verbatim
    (url pre mid post : str) (d : dict) (w : world) :
  startswith url LINKEDIN_PREFIX = true ->
  model_invoke (profile_messages url)
  = Return (pre ++ LBRACE :: mid ++ RBRACE :: post) ->
  LBRACE ∉ pre -> RBRACE ∉ post ->
  json_loads (LBRACE :: mid ++ [RBRACE]) = Return (JObj d) ->
  Forall (fun k => dict_has d k = true) required_fields ->
  linkedin_import url w = (Return (JObj d), w).
Proof.
  intros Hurl Hresp Hpre Hpost Hload Hkeys.
  rewrite (linkedin_import_answer _ _ _ Hurl Hresp).
  unfold try_except, bind.
  rewrite (extract_json_outermost pre mid post w Hpre Hpost).
  unfold parse_and_validate, bind, lift.
  rewrite Hload, py_all_in_dict, (forallb_required _ Hkeys).
  reflexivity.
Qed.

(** C3.  For a URL that does not start with
    "https://www.linkedin.com/in/" the import adapter returns the empty
    mapping; no exception leaves it, and the error appears as one
    message on the page. *)
Theorem linkedin_import_rejects_other_urls (url : str) (w : world) :
  startswith url LINKEDIN_PREFIX = false ->
  linkedin_import url w
  = (Return (JObj []),
     add_ui (StError (lit "LinkedIn import error: Invalid LinkedIn profile URL format")) w).
Proof.
  intros Hurl. unfold linkedin_import, try_except. rewrite Hurl.
  reflexivity.
Qed.

(** C4.  When the object parsed from the extracted text lacks one of the
    keys name, experience, education and skills, the import adapter
    returns the empty mapping (and reports the missing fields). *)
Theorem linkedin_import_missing_key
    (url response json_str k : str) (d : dict) (w : world) :
  startswith url LINKEDIN_PREFIX = true ->
  model_invoke (profile_messages url) = Return response ->
  extract_json response w = (Return json_str, w) ->
  json_loads json_str = Return (JObj d) ->
  k ∈ required_fields -> dict_has d k = false ->
  linkedin_import url w
  = (Return (JObj []),
     add_ui (StError (lit "LinkedIn import error: Missing required fields in parsed data")) w).
Proof.
  intros Hurl Hresp Hx Hload Hk Hmiss.
  rewrite (linkedin_import_answer _ _ _ Hurl Hresp).
  unfold try_except, bind. rewrite Hx.
  unfold parse_and_validate, bind, lift.
  rewrite Hload, py_all_in_dict, (forallb_missing _ _ Hk Hmiss).
  reflexivity.
Qed.

End ImportClaims.

Import Demo Examples.

Lemma linkedin_import_parses_outermost_braces_witness :
  linkedin_import (H := answering framed_answer) profile_url empty_world
  = try_except
      (parse_and_validate (H := answering framed_answer) ann_object)
      import_failed empty_world.
Proof.
  destruct (linkedin_import_parses_outermost_braces
              (H := answering framed_answer)
              profile_url framed_answer empty_world eq_refl eq_refl)
    as [Hfound _].
  apply (Hfound (lit "Here is the profile: ") ann_fields (lit " Done."));
    [reflexivity | |]; apply absent_char; reflexivity.
Defined.

(** C1, as stated, fails on an answer with two objects: the parser is
    handed the whole answer, not its first brace-delimited substring
    (on either reading), and the import fails where parsing the first
    object would have succeeded. *)
Lemma linkedin_import_first_block_counterexample :
  first_brace_block two_objects_answer = Some ann_object /\
  first_balanced_block two_objects_answer = Some ann_object /\
  extract_json two_objects_answer empty_world
  = (Return two_objects_answer, empty_world) /\
  two_objects_answer <> ann_object /\
  fst (linkedin_import (H := answering two_objects_answer) profile_url empty_world)
  = Return (JObj []) /\
  fst (try_except (parse_and_validate (H := answering two_objects_answer) ann_object)
         import_failed empty_world)
  = Return (JObj ann_dict).
Proof.
  repeat split; try (vm_compute; reflexivity).
  intros E. vm_compute in E. discriminate E.
Qed.

Lemma linkedin_import_returns_object_verbatim_witness :
  linkedin_import (H := answering framed_answer) profile_url empty_world
  = (Return (JObj ann_dict), empty_world).
Proof.
  apply (linkedin_import_returns_object_verbatim (H := answering framed_answer)
           profile_url (lit "Here is the profile: ") ann_fields (lit " Done.")
           ann_dict empty_world);
    try reflexivity;
    try (apply absent_char; reflexivity).
  repeat constructor.
Defined.

(** C2, as stated, fails on an answer that holds exactly one JSON object
    with the four keys next to other braces: the span from the first
    opening brace is not JSON and the adapter returns the empty mapping. *)
Lemma linkedin_import_single_object_counterexample :
  json_objects_in json_decode stray_braces_answer = [ann_object] /\
  json_decode ann_object = Return (JObj ann_dict) /\
  forallb (dict_has ann_dict) required_fields = true /\
  startswith profile_url LINKEDIN_PREFIX = true /\
  fst (linkedin_import (H := answering stray_braces_answer) profile_url empty_world)
  = Return (JObj []).
Proof. repeat split; vm_compute; reflexivity. Qed.

Lemma linkedin_import_rejects_other_urls_witness :
  linkedin_import (H := answering framed_answer) other_url empty_world
  = (Return (JObj []),
     add_ui (StError (lit "LinkedIn import error: Invalid LinkedIn profile URL format"))
            empty_world).
Proof.
  apply (linkedin_import_rejects_other_urls (H := answering framed_answer)).
  reflexivity.
Defined.

Lemma linkedin_import_missing_key_witness :
  linkedin_import (H := answering no_skills_object) profile_url empty_world
  = (Return (JObj []),
     add_ui (StError (lit "LinkedIn import error: Missing required fields in parsed data"))
            empty_world).
Proof.
  apply (linkedin_import_missing_key (H := answering no_skills_object)
           profile_url no_skills_object no_skills_object (lit "skills")
           no_skills_dict empty_world);
    try (vm_compute; reflexivity).
  unfold required_fields. repeat constructor.
Defined.



Section ExportClaims.
Context `{Externals}.

(** C6 (as amended).  Exporting a content string that UTF-8 can encode in
    TXT format writes, and reads back, the UTF-8 encoding of the content
    with every "\n" replaced by the line separator of the platform, and
    the link carries these bytes; they are the encoding of the content
    itself where the line separator is "\n". *)
Theorem txt_export_round_trip
    (content filename : str) (b : bytes) (w : world) :
  io_fault OpenWrite = None -> io_fault WriteText = None ->
  io_fault OpenRead = None ->
  utf8_encode (translate_newlines content) = Some b ->
  let p := temp_path_of (lit "txt") filename in
  (let! _ := generate_file content (lit "txt") p in read_binary p) w
  = (Return b, set_fs (<[p := b]> (fs w)) w)
  /\ fst (create_download_link content (lit "txt") filename w)
     = Return (download_link (b64encode b) filename (lit "txt"))
  /\ (linesep = [LF] -> utf8_encode content = Some b).
Proof.
  intros Ho Hw Hr Hb p.
  assert (Hpdf : lit "txt" <> lit "pdf") by discriminate.
  assert (Hdocx : lit "txt" <> lit "docx") by discriminate.
  split; [|split].
  - unfold bind at 1.
    rewrite (generate_file_other _ _ _ Hpdf Hdocx).
    rewrite (write_as_text _ _ _ _ Ho Hw Hb).
    apply (read_back _ _ _ Hr).
  - now apply create_download_link_text.
  - intros Hsep. now rewrite <- (translate_newlines_lf content Hsep).
Qed.

(** C7 (as amended).  After every call of the export writer in which
    [os.remove] is not itself refused, whether the export succeeded or
    any step of it failed, the temporary path does not exist; the call
    ends in a value, never in an exception. *)
Theorem create_download_link_removes_temp_file
    (content format_type filename : str) (w : world) :
  io_fault Remove = None ->
  (exists link,
      fst (create_download_link content format_type filename w) = Return link)
  /\ fs (snd (create_download_link content format_type filename w))
       !! temp_path_of format_type filename = None.
Proof.
  intros Hrm. rewrite create_download_link_unfold. cbv zeta. simpl fst. simpl snd.
  split.
  - apply export_attempt_returns.
  - now apply cleanup_removes.
Qed.


End ExportClaims.

Lemma txt_export_round_trip_witness :
  fst (create_download_link (H := answering framed_answer)
         two_lines (lit "txt") (lit "resume") empty_world)
  = Return (download_link (H := answering framed_answer)
              (b64encode [x61; x0a; x62]) (lit "resume") (lit "txt"))
  /\ utf8_encode two_lines = Some [x61; x0a; x62].
Proof.
  destruct (txt_export_round_trip (H := answering framed_answer)
              two_lines (lit "resume") [x61; x0a; x62] empty_world
              eq_refl eq_refl eq_refl eq_refl) as (_ & Hlink & Hsame).
  split; [exact Hlink | apply Hsame; reflexivity].
Defined.

(** C6, as stated, fails where the line separator is "\r\n": the bytes
    read back from the exported file differ from the UTF-8 encoding of
    the content. *)
Lemma txt_export_newline_counterexample :
  fst ((let! _ := generate_file (H := on_windows) two_lines (lit "txt")
                    (temp_path_of (H := on_windows) (lit "txt") (lit "resume")) in
        read_binary (H := on_windows)
          (temp_path_of (H := on_windows) (lit "txt") (lit "resume")))
         empty_world)
  = Return [x61; x0d; x0a; x62]
  /\ utf8_encode two_lines = Some [x61; x0a; x62]
  /\ fst (create_download_link (H := on_windows)
            two_lines (lit "txt") (lit "resume") empty_world)
     <> Return (download_link (H := on_windows)
                  (b64encode [x61; x0a; x62]) (lit "resume") (lit "txt")).
Proof.
  repeat split; try (vm_compute; reflexivity).
  intros E. vm_compute in E. discriminate E.
Qed.

Lemma create_download_link_removes_temp_file_witness :
  fs (snd (generate_file (H := answering framed_answer) two_lines (lit "txt")
             (temp_path_of (H := answering framed_answer) (lit "txt") (lit "resume"))
             empty_world))
    !! temp_path_of (H := answering framed_answer) (lit "txt") (lit "resume")
  = Some [x61; x0a; x62]
  /\ fs (snd (create_download_link (H := answering framed_answer)
                two_lines (lit "txt") (lit "resume") empty_world))
       !! temp_path_of (H := answering framed_answer) (lit "txt") (lit "resume")
     = None
  /\ fs stale_world
       !! temp_path_of (H := answering framed_answer) (lit "pdf") (lit "resume")
     = Some [x25; x50; x44; x46]
  /\ fst (create_download_link (H := answering framed_answer)
             two_lines (lit "pdf") (lit "resume") stale_world)
     = Return []
  /\ fs (snd (create_download_link (H := answering framed_answer)
                two_lines (lit "pdf") (lit "resume") stale_world))
       !! temp_path_of (H := answering framed_answer) (lit "pdf") (lit "resume")
     = None.
Proof.
  split; [vm_compute; reflexivity|].
  split.
  { apply (create_download_link_removes_temp_file (H := answering framed_answer)
             two_lines (lit "txt") (lit "resume") empty_world).
    reflexivity. }
  split; [vm_compute; reflexivity|].
  split; [vm_compute; reflexivity|].
  apply (create_download_link_removes_temp_file (H := answering framed_answer)
           two_lines (lit "pdf") (lit "resume") stale_world).
  reflexivity.
Defined.

(** C7, as stated, fails when the removal itself is refused: the export
    succeeds, the cleanup error is shown, and the file is still there. *)
Lemma create_download_link_leaves_file_counterexample :
  fs (snd (create_download_link (H := locked_windows)
             two_lines (lit "txt") (lit "resume") empty_world))
    !! temp_path_of (H := locked_windows) (lit "txt") (lit "resume")
  = Some [x61; x0d; x0a; x62]
  /\ ui (snd (create_download_link (H := locked_windows)
                two_lines (lit "txt") (lit "resume") empty_world))
     = [StError (lit "Error cleaning up files: [WinError 32] The process cannot access the file because it is being used by another process")].
Proof. split; vm_compute; reflexivity. Qed.



Section ImportProfileClaims.
Context `{Externals}.

(** C8.  When the import adapter fails, that is, returns the empty
    mapping, the Import Profile action leaves the resume data of the
    session (name, email, phone, education, experience, skills,
    job_description) as it was, for every session state and every URL. *)
Theorem import_failure_leaves_resume_data (url : str) (w : world) :
  fst (linkedin_import url w) = Return (JObj []) ->
  resume_data (snd (import_profile url w)) = resume_data w.
Proof.
  intros Hfail.
  destruct url as [|c url]; [reflexivity|].
  destruct (linkedin_import_total (c :: url) w) as (v & msgs & Himp).
  rewrite Himp in Hfail. simpl in Hfail.
  assert (Hv : v = JObj []) by congruence. subst v.
  assert (Hurl : c :: url <> []) by discriminate.
  rewrite (import_profile_after _ _ _ _ Hurl Himp).
  reflexivity.
Qed.

(** C10 (as amended).  For a non-empty URL, the Import Profile action
    emits "Profile imported successfully!" when the adapter returns the
    empty mapping (the import failed) and when it returns a mapping whose
    fields can be flattened, which it then stores; when flattening the
    returned mapping raises, it emits "Failed to process LinkedIn
    profile: ..." instead, and no success message. *)
Theorem import_profile_success_message
    (url : str) (w w' : world) (v : json) :
  url <> [] ->
  linkedin_import url w = (Return v, w') ->
  (py_bool v = false ->
   import_profile url w = (Return tt, add_ui SUCCESS w'))
  /\
  (forall items,
      py_bool v = true -> flattened_profile v = Return items ->
      import_profile url w
      = (Return tt, add_ui SUCCESS (snd (resume_data_update items w'))))
  /\
  (forall e,
      py_bool v = true -> flattened_profile v = Raised e ->
      import_profile url w
      = (Return tt,
         add_ui (StError (lit "Failed to process LinkedIn profile: " ++ exn_str e)) w')).
Proof.
  intros Hurl Himp.
  rewrite (import_profile_after _ _ _ _ Hurl Himp).
  repeat split.
  - intros ->. reflexivity.
  - intros items -> ->. reflexivity.
  - intros e -> ->. reflexivity.
Qed.

End ImportProfileClaims.

Lemma import_failure_leaves_resume_data_witness :
  resume_data (snd (import_profile (H := answering no_skills_object)
                      profile_url filled_world))
  = resume_data filled_world.
Proof.
  apply (import_failure_leaves_resume_data (H := answering no_skills_object)).
  vm_compute. reflexivity.
Defined.

Lemma import_profile_success_message_witness :
  import_profile (H := answering no_skills_object) profile_url empty_world
  = (Return tt,
     add_ui SUCCESS
       (add_ui (StError (lit "LinkedIn import error: Missing required fields in parsed data"))
          empty_world)).
Proof.
  assert (Hurl : profile_url <> []) by discriminate.
  refine (proj1 (import_profile_success_message (H := answering no_skills_object)
                   profile_url empty_world _ (JObj []) Hurl _) eq_refl).
  vm_compute. reflexivity.
Defined.

(** C10, as stated, fails when the adapter returns a mapping that cannot
    be flattened: it returns without raising, yet the page shows the
    processing error and no success message. *)
Lemma import_profile_no_success_counterexample :
  fst (linkedin_import (H := answering null_experience_object)
         profile_url empty_world)
  = Return (JObj null_experience_dict)
  /\ ui (snd (import_profile (H := answering null_experience_object)
                profile_url empty_world))
     = [StError (lit "Failed to process LinkedIn profile: can only join an iterable")]
  /\ SUCCESS ∉ ui (snd (import_profile (H := answering null_experience_object)
                          profile_url empty_world)).
Proof.
  assert (Hui : ui (snd (import_profile (H := answering null_experience_object)
                           profile_url empty_world))
                = [StError (lit "Failed to process LinkedIn profile: can only join an iterable")])
    by (vm_compute; reflexivity).
  split; [vm_compute; reflexivity|]. split; [exact Hui|].
  rewrite Hui. intros Hin.
  apply list_elem_of_singleton in Hin. discriminate Hin.
Qed.

(** * Further properties of the code *)

(** ** The scan, for every pattern of the fragment *)

Lemma match_here_star (a : atom) (r : list item) (s : str) :
  match_here (Star a :: r) s
  = match s with
    | c :: t =>
        if atom_matches a c then
          match match_here (Star a :: r) t with
          | Some n => Some (S n)
          | None => match_here r s
          end
        else match_here r s
    | [] => match_here r s
    end.
Proof. destruct s; reflexivity. Qed.

(** A match never runs past the end of the text. *)
Lemma match_here_bound (r : list item) :
  forall (s : str) (n : nat), match_here r s = Some n -> (n <= length s)%nat.
Proof.
  induction r as [|[a|a] r IH]; intros s n Hm.
  - simpl in Hm. injection Hm as <-. lia.
  - destruct s as [|c t]; simpl in Hm; [discriminate|].
    destruct (atom_matches a c); [|discriminate].
    destruct (match_here r t) as [m|] eqn:E; [|discriminate].
    injection Hm as <-. apply IH in E. simpl. lia.
  - revert n Hm. induction s as [|c t IHs]; intros n Hm;
      rewrite match_here_star in Hm.
    + now apply IH in Hm.
    + destruct (atom_matches a c).
      * destruct (match_here (Star a :: r) t) as [m|] eqn:E.
        -- injection Hm as <-. specialize (IHs m eq_refl). simpl. lia.
        -- now apply IH in Hm.
      * now apply IH in Hm.
Qed.

Lemma search_from_inv (r : list item) :
  forall (s : str) (i j n : nat),
    search_from r s i = Some (j, n) ->
    exists k, j = (i + k)%nat /\ (k <= length s)%nat /\
              match_here r (drop k s) = Some n /\
              forall k', (k' < k)%nat -> match_here r (drop k' s) = None.
Proof.
  induction s as [|c t IH]; intros i j n Hs;
    unfold search_from in Hs; fold search_from in Hs.
  - destruct (match_here r []) as [m|] eqn:E; [|discriminate].
    injection Hs as <- <-. exists 0%nat.
    repeat split; [lia | simpl; lia | exact E | intros k' Hk; lia].
  - destruct (match_here r (c :: t)) as [m|] eqn:E.
    + injection Hs as <- <-. exists 0%nat.
      repeat split; [lia | simpl; lia | exact E | intros k' Hk; lia].
    + destruct (IH _ _ _ Hs) as (k & -> & Hk & Hm & Hbefore).
      exists (S k). repeat split; [lia | simpl; lia | exact Hm |].
      intros [|k'] Hlt; [exact E|]. simpl. apply Hbefore. lia.
Qed.

Lemma search_from_None_inv (r : list item) :
  forall (s : str) (i : nat),
    search_from r s i = None ->
    forall k, (k <= length s)%nat -> match_here r (drop k s) = None.
Proof.
  induction s as [|c t IH]; intros i Hs k Hk;
    unfold search_from in Hs; fold search_from in Hs.
  - destruct (match_here r []) eqn:E; [discriminate|].
    simpl in Hk. now replace k with 0%nat by lia.
  - destruct (match_here r (c :: t)) eqn:E; [discriminate|].
    destruct k as [|k]; [exact E|].
    simpl. apply (IH _ Hs). simpl in Hk. lia.
Qed.

(** X1.  [re.search] on the patterns of the fragment: a match lies
    within the text, so that [group()] is the matched part of it; the
    pattern matches at the reported position and at no earlier one; and
    where no match is reported the pattern matches nowhere. *)
Theorem re_search_first_match_in_range (r : list item) (s : str) :
  (forall i n,
      re_search r s = Some (i, n) ->
      (i + n <= length s)%nat
      /\ s = take i s ++ group s (i, n) ++ drop (i + n) s
      /\ length (group s (i, n)) = n
      /\ match_here r (drop i s) = Some n
      /\ forall j, (j < i)%nat -> match_here r (drop j s) = None)
  /\
  (re_search r s = None ->
   forall j, (j <= length s)%nat -> match_here r (drop j s) = None).
Proof.
  split.
  - intros i n Hs. unfold re_search in Hs.
    destruct (search_from_inv r s 0 i n Hs) as (k & Hi & Hk & Hm & Hbefore).
    simpl in Hi. subst k.
    pose proof (match_here_bound r _ _ Hm) as Hn.
    rewrite length_drop in Hn.
    assert (Hin : (i + n <= length s)%nat) by lia.
    unfold group. simpl fst. simpl snd.
    repeat split; try assumption.
    + rewrite <- drop_drop, take_drop. now rewrite take_drop.
    + rewrite length_take, length_drop. lia.
  - intros Hs. now apply (search_from_None_inv r s 0).
Qed.

Lemma re_search_first_match_in_range_witness :
  (1 + 7 <= length (lit "a{b}c{d}e"))%nat
  /\ lit "a{b}c{d}e"
     = take 1 (lit "a{b}c{d}e") ++ group (lit "a{b}c{d}e") (1%nat, 7%nat)
       ++ drop (1 + 7) (lit "a{b}c{d}e")
  /\ length (group (lit "a{b}c{d}e") (1%nat, 7%nat)) = 7%nat
  /\ match_here json_pattern (drop 1 (lit "a{b}c{d}e")) = Some 7%nat
  /\ forall j, (j < 1)%nat -> match_here json_pattern (drop j (lit "a{b}c{d}e")) = None.
Proof.
  apply (proj1 (re_search_first_match_in_range json_pattern (lit "a{b}c{d}e"))).
  reflexivity.
Defined.

(** ** What the import adapter extracts *)

(** A text either has an opening brace with a closing brace after it, and
    then an outermost span, or it has none. *)
Lemma outermost_cases (s : str) :
  (exists pre mid post,
      s = pre ++ LBRACE :: mid ++ RBRACE :: post
      /\ (LBRACE ∉ pre) /\ (RBRACE ∉ post))
  \/ (forall pre mid post, s <> pre ++ LBRACE :: mid ++ RBRACE :: post).
Proof.
  induction s as [|c t IH].
  - right. intros [|x pre] mid post; discriminate.
  - destruct (N.eqb_spec c LBRACE) as [->|Hc].
    + pose proof (match_closing_inv t) as Ht.
      destruct (match_here closing t) as [n|].
      * destruct Ht as (mid & post & -> & Hpost & _).
        left. exists [], mid, post.
        repeat split; [apply not_elem_of_nil | exact Hpost].
      * right. intros pre mid post E. apply Ht.
        destruct pre as [|x pre]; simpl in E.
        -- injection E as ->.
           apply elem_of_app. right. apply elem_of_cons. now left.
        -- injection E as _ ->.
           apply elem_of_app. right. apply elem_of_cons. right.
           apply elem_of_app. right. apply elem_of_cons. now left.
    + destruct IH as [(pre & mid & post & -> & Hpre & Hpost)|Hno].
      * left. exists (c :: pre), mid, post.
        repeat split; [|exact Hpost].
        apply not_elem_of_cons. split; [congruence|exact Hpre].
      * right. intros pre mid post E.
        destruct pre as [|x pre]; simpl in E; injection E as E1 E2.
        -- congruence.
        -- now apply (Hno pre mid post).
Qed.

Section ImportAdapterMore.
Context `{Externals}.

Lemma extract_json_inv (response m : str) (w w' : world) :
  extract_json response w = (Return m, w') ->
  w' = w /\
  exists pre mid post,
    response = pre ++ LBRACE :: mid ++ RBRACE :: post
    /\ (LBRACE ∉ pre) /\ (RBRACE ∉ post) /\ m = LBRACE :: mid ++ [RBRACE].
Proof.
  intros Hx.
  destruct (outermost_cases response)
    as [(pre & mid & post & -> & Hpre & Hpost)|Hno].
  - rewrite (extract_json_outermost pre mid post w Hpre Hpost) in Hx.
    injection Hx as <- <-. split; [reflexivity|].
    exists pre, mid, post. repeat split; assumption.
  - rewrite (extract_json_none _ w Hno) in Hx. discriminate.
Qed.

(** X2.  What the adapter extracts from an answer is a contiguous part
    of the answer that starts with an opening brace and ends with a
    closing brace, the page is not touched, and extracting from the
    extracted text gives that text again. *)
Theorem extract_json_idempotent (response m : str) (w w' : world) :
  extract_json response w = (Return m, w') ->
  w' = w
  /\ (exists pre post, response = pre ++ m ++ post)
  /\ (exists mid, m = LBRACE :: mid ++ [RBRACE])
  /\ extract_json m w = (Return m, w).
Proof.
  intros Hx.
  destruct (extract_json_inv _ _ _ _ Hx)
    as (-> & pre & mid & post & -> & Hpre & Hpost & ->).
  split; [reflexivity|]. split; [|split].
  - exists pre, post. simpl. now rewrite <- app_assoc.
  - now exists mid.
  - apply (extract_json_outermost [] mid [] w); apply not_elem_of_nil.
Qed.

(** The two ways the adapter ends. *)
Lemma linkedin_import_cases (url : str) (w : world) :
  (exists v, linkedin_import url w = (Return v, w)
             /\ py_all_in required_fields v = Return true)
  \/ (exists e, linkedin_import url w
                = (Return (JObj []),
                   add_ui (StError (lit "LinkedIn import error: " ++ exn_str e)) w)).
Proof.
  assert (Hfail : forall e,
             import_failed e w
             = (Return (JObj []),
                add_ui (StError (lit "LinkedIn import error: " ++ exn_str e)) w))
    by reflexivity.
  unfold linkedin_import, try_except.
  destruct (negb (startswith url LINKEDIN_PREFIX)); [right; eauto|].
  unfold bind, lift, extract_json, parse_and_validate, bind, lift, raise, ret.
  destruct (format_messages _ _); [|right; eauto].
  destruct (model_invoke _) as [response|]; [|right; eauto].
  destruct (re_search json_pattern response); [|right; eauto].
  destruct (json_loads _) as [v|]; [|right; eauto].
  destruct (py_all_in required_fields v) as [[|]|] eqn:E; simpl;
    [left; eauto | right; eauto | right; eauto].
Qed.

(** X3.  The import adapter never raises and touches nothing but the
    messages of the page, to which it adds at most one, an error that
    starts with "LinkedIn import error: ". *)
Theorem linkedin_import_contained (url : str) (w : world) :
  exists v msgs,
    linkedin_import url w
    = (Return v, World (ui w ++ msgs) (fs w) (resume_data w))
    /\ (msgs = []
        \/ exists text, msgs = [StError (lit "LinkedIn import error: " ++ text)]).
Proof.
  destruct (linkedin_import_cases url w) as [(v & Hv & _)|(e & He)].
  - exists v, []. split; [|now left].
    rewrite Hv. destruct w; simpl. now rewrite app_nil_r.
  - exists (JObj []), [StError (lit "LinkedIn import error: " ++ exn_str e)].
    split; [exact He|]. right. now exists (exn_str e).
Qed.

(** X4.  The adapter returns the empty mapping exactly when it reported
    an error; any other value it returns passed the key check, and a
    mapping it returns has the four required keys. *)
Theorem linkedin_import_result_invariant (url : str) (w w' : world) (v : json) :
  linkedin_import url w = (Return v, w') ->
  (v = JObj [] ->
   exists text,
     w' = add_ui (StError (lit "LinkedIn import error: " ++ text)) w)
  /\
  (v <> JObj [] ->
   w' = w
   /\ py_all_in required_fields v = Return true
   /\ forall d, v = JObj d ->
                Forall (fun k => dict_has d k = true) required_fields).
Proof.
  intros Himp.
  destruct (linkedin_import_cases url w) as [(v0 & Hv & Hok)|(e & He)];
    rewrite Himp in *.
  - injection Hv as -> ->. split.
    + intros ->. discriminate Hok.
    + intros _. repeat split; [exact Hok|].
      intros d ->. rewrite py_all_in_dict in Hok.
      assert (Hb : forallb (dict_has d) required_fields = true) by congruence.
      apply Forall_forall. intros k Hk.
      apply (proj1 (forallb_forall _ _) Hb).
      now apply list_elem_of_In.
  - injection He as -> ->. split.
    + intros _. now exists (exn_str e).
    + intros Hne. contradiction.
Qed.

(** X5.  When the call of the model raises, the adapter returns the empty
    mapping and shows the text of the exception; nothing is raised. *)
Theorem linkedin_import_model_failure (url : str) (e : exn) (w : world) :
  startswith url LINKEDIN_PREFIX = true ->
  model_invoke (profile_messages url) = Raised e ->
  linkedin_import url w
  = (Return (JObj []),
     add_ui (StError (lit "LinkedIn import error: " ++ exn_str e)) w).
Proof.
  intros Hurl Hm. unfold linkedin_import, try_except. rewrite Hurl.
  simpl negb. cbv iota. unfold bind at 1. unfold lift at 1.
  rewrite format_profile_messages.
  unfold bind at 1. unfold lift at 1. rewrite Hm. reflexivity.
Qed.

(** X6.  When the span between the outermost braces of the answer is not
    JSON, so that the decoder raises, the adapter returns the empty
    mapping and shows the text of the decoder's exception. *)
Theorem linkedin_import_decode_failure
    (url pre mid post : str) (e : exn) (w : world) :
  startswith url LINKEDIN_PREFIX = true ->
  model_invoke (profile_messages url)
  = Return (pre ++ LBRACE :: mid ++ RBRACE :: post) ->
  LBRACE ∉ pre -> RBRACE ∉ post ->
  json_loads (LBRACE :: mid ++ [RBRACE]) = Raised e ->
  linkedin_import url w
  = (Return (JObj []),
     add_ui (StError (lit "LinkedIn import error: " ++ exn_str e)) w).
Proof.
  intros Hurl Hresp Hpre Hpost Hload.
  rewrite (linkedin_import_answer _ _ _ Hurl Hresp).
  unfold try_except, bind.
  rewrite (extract_json_outermost pre mid post w Hpre Hpost).
  unfold parse_and_validate, bind, lift. rewrite Hload. reflexivity.
Qed.

End ImportAdapterMore.

(** ** The export writer: what it leaves alone *)

Lemma touches_only_refl (p : str) (w : world) : touches_only p w w.
Proof.
  repeat split. exists []. now rewrite app_nil_r.
Qed.

Lemma touches_only_trans (p : str) (w1 w2 w3 : world) :
  touches_only p w1 w2 -> touches_only p w2 w3 -> touches_only p w1 w3.
Proof.
  intros (Hr1 & Hf1 & m1 & Hu1) (Hr2 & Hf2 & m2 & Hu2).
  repeat split.
  - congruence.
  - intros q Hq. rewrite (Hf2 q Hq). now apply Hf1.
  - exists (m1 ++ m2). rewrite Hu2, Hu1. now rewrite app_assoc.
Qed.

Lemma touches_only_add_ui (p : str) (m : ui_msg) (w : world) :
  touches_only p w (add_ui m w).
Proof. repeat split. now exists [m]. Qed.

Lemma touches_only_insert (p : str) (b : bytes) (w : world) :
  touches_only p w (set_fs (<[p := b]> (fs w)) w).
Proof.
  repeat split.
  - intros q Hq. simpl. now apply lookup_insert_ne.
  - exists []. simpl. now rewrite app_nil_r.
Qed.

Lemma touches_only_delete (p : str) (w : world) :
  touches_only p w (set_fs (delete p (fs w)) w).
Proof.
  repeat split.
  - intros q Hq. simpl. now apply lookup_delete_ne.
  - exists []. simpl. now rewrite app_nil_r.
Qed.

Lemma keeps_ret {A} (p : str) (a : A) : keeps p (ret a).
Proof. intros w. apply touches_only_refl. Qed.

Lemma keeps_raise {A} (p : str) (e : exn) : keeps p (@raise A e).
Proof. intros w. apply touches_only_refl. Qed.

Lemma keeps_bind {A B} (p : str) (c : M A) (k : A -> M B) :
  keeps p c -> (forall a, keeps p (k a)) -> keeps p (bind c k).
Proof.
  intros Hc Hk w. unfold bind. specialize (Hc w).
  destruct (c w) as [[a|e] w1]; simpl in *; [|exact Hc].
  apply (touches_only_trans _ _ _ _ Hc). apply Hk.
Qed.

Lemma keeps_try_except {A} (p : str) (body : M A) (handler : exn -> M A) :
  keeps p body -> (forall e, keeps p (handler e)) ->
  keeps p (try_except body handler).
Proof.
  intros Hb Hh w. unfold try_except. specialize (Hb w).
  destruct (body w) as [[a|e] w1]; simpl in *; [exact Hb|].
  apply (touches_only_trans _ _ _ _ Hb). apply Hh.
Qed.

Lemma keeps_try_finally {A} (p : str) (body : M A) (fin : M unit) :
  keeps p body -> keeps p fin -> keeps p (try_finally body fin).
Proof.
  intros Hb Hf w. unfold try_finally. specialize (Hb w).
  destruct (body w) as [r w1]. simpl in Hb. specialize (Hf w1).
  destruct (fin w1) as [[u|e] w2]; simpl in *;
    apply (touches_only_trans _ _ _ _ Hb Hf).
Qed.

Lemma keeps_st_error (p msg : str) : keeps p (st_error msg).
Proof. intros w. apply touches_only_add_ui. Qed.

Section ExportWriterMore.
Context `{Externals}.

Lemma keeps_open_w (p : str) : keeps p (open_w p).
Proof.
  intros w. unfold open_w. destruct (io_fault OpenWrite); simpl.
  - apply touches_only_refl.
  - apply touches_only_insert.
Qed.

Lemma keeps_write_text (p content : str) : keeps p (write_text p content).
Proof.
  intros w. unfold write_text.
  destruct (utf8_encode _); [|apply touches_only_refl].
  destruct (io_fault WriteText); simpl.
  - apply touches_only_refl.
  - apply touches_only_insert.
Qed.

Lemma keeps_external_write (p : str) (r : written) : keeps p (external_write p r).
Proof.
  intros w. unfold external_write.
  assert (Hw : touches_only p w
                 match left_on_disk r with
                 | Some b => set_fs (<[p := b]> (fs w)) w
                 | None => w
                 end).
  { destruct (left_on_disk r); [apply touches_only_insert|apply touches_only_refl]. }
  destruct (ends_in r); exact Hw.
Qed.

Lemma keeps_read_binary (p : str) : keeps p (read_binary p).
Proof.
  intros w. unfold read_binary.
  destruct (io_fault OpenRead); [apply touches_only_refl|].
  destruct (fs w !! p); apply touches_only_refl.
Qed.

Lemma keeps_generate_file (content format_type p : str) :
  keeps p (generate_file content format_type p).
Proof.
  unfold generate_file.
  destruct (str_eqb format_type (lit "pdf")).
  - destruct config; [apply keeps_external_write|apply keeps_raise].
  - destruct (str_eqb format_type (lit "docx")).
    + apply keeps_external_write.
    + apply keeps_bind; [apply keeps_open_w|].
      intros _. apply keeps_write_text.
Qed.

Lemma keeps_cleanup (p : str) : keeps p (cleanup p).
Proof.
  unfold cleanup. apply keeps_try_except.
  - apply keeps_bind.
    + intros w. apply touches_only_refl.
    + intros [|]; [|apply keeps_ret].
      intros w. unfold os_remove.
      destruct (io_fault Remove); [apply touches_only_refl|].
      destruct (fs w !! p); [apply touches_only_delete|apply touches_only_refl].
  - intros e. apply keeps_st_error.
Qed.

Lemma keeps_create_download_link (content format_type filename : str) :
  keeps (temp_path_of format_type filename)
        (create_download_link content format_type filename).
Proof.
  unfold create_download_link. cbv zeta.
  apply keeps_try_finally; [|apply keeps_cleanup].
  apply keeps_try_except.
  - apply keeps_bind; [apply keeps_generate_file|].
    intros _. apply keeps_bind; [apply keeps_read_binary|].
    intros data. cbv zeta. apply keeps_ret.
  - intros e. unfold export_failed.
    apply keeps_bind; [apply keeps_st_error|]. intros _. apply keeps_ret.
Qed.

(** X7.  The export writer never raises, whatever fails; it leaves the
    resume data and every file other than its temporary file as they
    were, and only adds to the messages of the page. *)
Theorem create_download_link_contained
    (content format_type filename : str) (w : world) :
  (exists link,
      fst (create_download_link content format_type filename w) = Return link)
  /\ resume_data (snd (create_download_link content format_type filename w))
     = resume_data w
  /\ (forall q, q <> temp_path_of format_type filename ->
                fs (snd (create_download_link content format_type filename w)) !! q
                = fs w !! q)
  /\ exists msgs,
      ui (snd (create_download_link content format_type filename w))
      = ui w ++ msgs.
Proof.
  split.
  - rewrite create_download_link_unfold. cbv zeta. simpl fst.
    apply export_attempt_returns.
  - apply (keeps_create_download_link content format_type filename w).
Qed.

(** X8.  PDF export without wkhtmltopdf: the writer returns the empty
    string and shows one error; it writes nothing, and it removes
    whatever file was at the temporary path before the call. *)
Theorem create_download_link_pdf_without_renderer
    (content filename : str) (w : world) :
  config = None -> io_fault Remove = None ->
  create_download_link content (lit "pdf") filename w
  = (Return [],
     World (ui w ++ [StError (lit "Error generating pdf: PDF export requires wkhtmltopdf installation")])
           (delete (temp_path_of (lit "pdf") filename) (fs w))
           (resume_data w)).
Proof.
  intros Hcfg Hrm. rewrite create_download_link_unfold. cbv zeta.
  unfold try_except, bind, generate_file.
  change (str_eqb (lit "pdf") (lit "pdf")) with true. cbv iota.
  rewrite Hcfg. unfold raise, export_failed, bind, st_error, ret.
  simpl fst. simpl snd.
  rewrite (cleanup_exact _ _ Hrm). reflexivity.
Qed.

(** X9.  DOCX and PDF export: when the document library leaves bytes at
    the temporary path without raising and the file can be read, the
    link carries exactly these bytes. *)
Theorem create_download_link_binary_formats
    (content filename : str) (b : bytes) (w : world) :
  io_fault OpenRead = None ->
  (docx_save content = Written (Some b) None ->
   fst (create_download_link content (lit "docx") filename w)
   = Return (download_link (b64encode b) filename (lit "docx")))
  /\
  (forall from_string,
      config = Some from_string ->
      from_string content = Written (Some b) None ->
      fst (create_download_link content (lit "pdf") filename w)
      = Return (download_link (b64encode b) filename (lit "pdf"))).
Proof.
  intros Hr. split.
  - intros Hd. rewrite create_download_link_unfold. cbv zeta. simpl fst.
    unfold try_except. unfold bind at 1. unfold generate_file.
    change (str_eqb (lit "docx") (lit "pdf")) with false.
    change (str_eqb (lit "docx") (lit "docx")) with true. cbv iota.
    unfold external_write. rewrite Hd. simpl left_on_disk. simpl ends_in.
    cbv iota zeta. unfold bind. rewrite (read_back _ _ _ Hr). reflexivity.
  - intros from_string Hcfg Hp.
    rewrite create_download_link_unfold. cbv zeta. simpl fst.
    unfold try_except. unfold bind at 1. unfold generate_file.
    change (str_eqb (lit "pdf") (lit "pdf")) with true. cbv iota.
    rewrite Hcfg. unfold external_write. rewrite Hp.
    simpl left_on_disk. simpl ends_in.
    cbv iota zeta. unfold bind. rewrite (read_back _ _ _ Hr). reflexivity.
Qed.


End ExportWriterMore.

(** ** The payload of the link can be read back *)

Ltac div_lia := zify; Z.to_euclidean_division_equations; lia.

Lemma byte_of_to_N (b : byte) : byte_of_N (Byte.to_N b) = b.
Proof.
  unfold byte_of_N.
  pose proof (Byte.to_N_bounded b) as Hb.
  rewrite N.mod_small by lia.
  now rewrite Byte.of_to_N.
Qed.

Lemma to_N_byte_of (n : N) : n < 256 -> Byte.to_N (byte_of_N n) = n.
Proof.
  intros Hn. unfold byte_of_N. rewrite N.mod_small by exact Hn.
  destruct (Byte.of_N n) as [b|] eqn:E.
  - now apply Byte.to_of_N in E.
  - apply Byte.of_N_None_iff in E. lia.
Qed.

Lemma map_byte_of_to_N (data : bytes) : map byte_of_N (map Byte.to_N data) = data.
Proof.
  induction data as [|b data IH]; simpl; [reflexivity|].
  now rewrite byte_of_to_N, IH.
Qed.

(** Every index below 64 names a character of the alphabet that is not
    the padding character, and the alphabet gives the index back. *)
Lemma b64_char_index (i : N) :
  i < 64 -> b64_index (b64_char i) = Some i /\ (b64_char i =? PAD) = false
            /\ (b64_char i =? DQ) = false.
Proof.
  intros Hi.
  assert (Hall : forallb
                   (fun n => let i := N.of_nat n in
                             match b64_index (b64_char i) with
                             | Some j => (j =? i) && negb (b64_char i =? PAD)
                                         && negb (b64_char i =? DQ)
                             | None => false
                             end)
                   (seq 0 64) = true) by (vm_compute; reflexivity).
  rewrite forallb_forall in Hall.
  specialize (Hall (N.to_nat i)).
  rewrite N2Nat.id in Hall. cbv zeta in Hall.
  destruct (b64_index (b64_char i)) as [j|].
  - assert (Hin : In (N.to_nat i) (seq 0 64)) by (apply in_seq; lia).
    apply Hall in Hin.
    apply andb_prop in Hin as [Hin Hdq]. apply andb_prop in Hin as [Hj Hpad].
    apply N.eqb_eq in Hj. apply negb_true_iff in Hpad, Hdq.
    subst j. auto.
  - assert (Hin : In (N.to_nat i) (seq 0 64)) by (apply in_seq; lia).
    apply Hall in Hin. discriminate.
Qed.

Lemma b64decode_groups_encode (n : nat) :
  forall l : list N,
    (length l <= n)%nat -> Forall (fun x => x < 256) l ->
    b64decode_groups (b64_groups l) = Some l.
Proof.
  induction n as [|n IH]; intros l Hlen Hl.
  { destruct l; [reflexivity|simpl in Hlen; lia]. }
  destruct l as [|a [|b [|c t]]]; [reflexivity| | |].
  - (* one byte *)
    apply Forall_cons in Hl as [Ha _].
    destruct (b64_char_index (a / 4)) as (E1 & _ & _); [div_lia|].
    destruct (b64_char_index ((a mod 4) * 16)) as (E2 & _ & _); [div_lia|].
    cbn [b64_groups b64decode_groups]. rewrite E1, E2.
    rewrite N.eqb_refl. cbn [andb]. do 2 f_equal. div_lia.
  - (* two bytes *)
    apply Forall_cons in Hl as [Ha Hl]. apply Forall_cons in Hl as [Hb _].
    destruct (b64_char_index (a / 4)) as (E1 & _ & _); [div_lia|].
    destruct (b64_char_index ((a mod 4) * 16 + b / 16)) as (E2 & _ & _); [div_lia|].
    destruct (b64_char_index ((b mod 16) * 4)) as (E3 & P3 & _); [div_lia|].
    cbn [b64_groups b64decode_groups]. rewrite E1, E2, P3, E3.
    rewrite N.eqb_refl. cbn [andb].
    f_equal. f_equal; [div_lia|]. f_equal. div_lia.
  - (* a full group *)
    apply Forall_cons in Hl as [Ha Hl]. apply Forall_cons in Hl as [Hb Hl].
    apply Forall_cons in Hl as [Hc Hl].
    destruct (b64_char_index (a / 4)) as (E1 & _ & _); [div_lia|].
    destruct (b64_char_index ((a mod 4) * 16 + b / 16)) as (E2 & _ & _); [div_lia|].
    destruct (b64_char_index ((b mod 16) * 4 + c / 64)) as (E3 & P3 & _); [div_lia|].
    destruct (b64_char_index (c mod 64)) as (E4 & P4 & _); [div_lia|].
    cbn [b64_groups app]. cbn [b64decode_groups].
    rewrite E1, E2, P3, E3, P4, E4. cbn [andb].
    rewrite (IH t) by (simpl in Hlen; lia || exact Hl).
    f_equal. f_equal; [div_lia|]. f_equal; [div_lia|]. f_equal. div_lia.
Qed.

Lemma b64decode_inverts (data : bytes) :
  b64decode (b64encode data) = Some data.
Proof.
  unfold b64decode, b64encode.
  rewrite (b64decode_groups_encode (length (map Byte.to_N data))).
  - simpl. now rewrite map_byte_of_to_N.
  - lia.
  - apply Forall_forall. intros x Hx.
    apply list_elem_of_In, in_map_iff in Hx as (b & <- & _).
    pose proof (Byte.to_N_bounded b). lia.
Qed.

(** X11.  Decoding the base64 text of any byte string gives the byte
    string back, so that two byte strings with the same base64 text are
    the same: the payload of a download link loses nothing. *)
Theorem b64decode_b64encode (data : bytes) :
  b64decode (b64encode data) = Some data
  /\ forall other, b64encode other = b64encode data -> other = data.
Proof.
  split; [apply b64decode_inverts|].
  intros other Hsame.
  pose proof (b64decode_inverts other) as Hother.
  rewrite Hsame, b64decode_inverts in Hother. congruence.
Qed.

Lemma b64_char_in_alphabet (i : N) : i < 64 -> b64_char i ∈ b64_alphabet.
Proof.
  intros Hi. apply list_elem_of_In. unfold b64_char. apply nth_In.
  change (length b64_alphabet) with 64%nat. lia.
Qed.

Lemma b64_groups_shape (n : nat) :
  forall l : list N,
    (length l <= n)%nat -> Forall (fun x => x < 256) l ->
    Forall (fun c => c ∈ b64_alphabet \/ c = PAD) (b64_groups l)
    /\ length (b64_groups l) = (4 * ((length l + 2) / 3))%nat.
Proof.
  induction n as [|n IH]; intros l Hlen Hl.
  { destruct l; [split; [constructor|reflexivity]|simpl in Hlen; lia]. }
  destruct l as [|a [|b [|c t]]].
  - split; [constructor|reflexivity].
  - apply Forall_cons in Hl as [Ha _]. split; [|reflexivity].
    cbn [b64_groups].
    repeat (apply Forall_cons; split);
      try (left; apply b64_char_in_alphabet; div_lia);
      try (right; reflexivity); try constructor.
  - apply Forall_cons in Hl as [Ha Hl]. apply Forall_cons in Hl as [Hb _].
    split; [|reflexivity]. cbn [b64_groups].
    repeat (apply Forall_cons; split);
      try (left; apply b64_char_in_alphabet; div_lia);
      try (right; reflexivity); try constructor.
  - apply Forall_cons in Hl as [Ha Hl]. apply Forall_cons in Hl as [Hb Hl].
    apply Forall_cons in Hl as [Hc Hl].
    destruct (IH t) as [IHall IHlen]; [simpl in Hlen; lia|exact Hl|].
    cbn [b64_groups app]. split.
    + repeat (apply Forall_cons; split);
        try (left; apply b64_char_in_alphabet; div_lia).
      exact IHall.
    + cbn [length]. rewrite IHlen.
      replace (S (S (S (length t))) + 2)%nat with (length t + 2 + 1 * 3)%nat by lia.
      rewrite Nat.div_add by lia. lia.
Qed.

(** X12.  The base64 text of a byte string consists of characters of the
    base64 alphabet and the padding character only, four for every three
    bytes begun; in particular it holds no double quote, so the payload
    cannot end the attribute of the link that carries it. *)
Theorem b64encode_alphabet (data : bytes) :
  Forall (fun c => c ∈ b64_alphabet \/ c = PAD) (b64encode data)
  /\ length (b64encode data) = (4 * ((length data + 2) / 3))%nat
  /\ DQ ∉ b64encode data.
Proof.
  assert (Hdata : Forall (fun x => x < 256) (map Byte.to_N data)).
  { apply Forall_forall. intros x Hx.
    apply list_elem_of_In, in_map_iff in Hx as (b & <- & _).
    pose proof (Byte.to_N_bounded b). lia. }
  destruct (b64_groups_shape (length (map Byte.to_N data)) _ (le_n _) Hdata)
    as [Hall Hlen].
  unfold b64encode. split; [exact Hall|]. split.
  - rewrite Hlen. now rewrite length_map.
  - intros Hin. rewrite Forall_forall in Hall.
    destruct (Hall _ Hin) as [Ha|Hp]; [|discriminate Hp].
    revert Ha. apply absent_char. vm_compute. reflexivity.
Qed.

(** ** UTF-8 *)

Ltac decide_tests :=
  repeat
    (match goal with
     | |- context [?a <? ?b] =>
         destruct (N.ltb_spec a b); try (exfalso; div_lia)
     | |- context [?a <=? ?b] =>
         destruct (N.leb_spec a b); try (exfalso; div_lia)
     end; cbn [andb orb negb]).

Lemma utf8_decode_char (c : N) (bs : bytes) (rest : list N) :
  utf8_encode_char c = Some bs ->
  utf8_decode_bytes (map Byte.to_N bs ++ rest)
  = option_map (cons c) (utf8_decode_bytes rest).
Proof.
  unfold utf8_encode_char.
  destruct (N.ltb_spec c 128) as [H1|H1].
  { intros E. injection E as <-. cbn [map app].
    rewrite to_N_byte_of by lia. cbn [utf8_decode_bytes].
    destruct (N.ltb_spec c 128); [reflexivity|lia]. }
  destruct (N.ltb_spec c 2048) as [H2|H2].
  { intros E. injection E as <-. cbn [map app].
    rewrite !to_N_byte_of by div_lia.
    cbn [utf8_decode_bytes]. unfold continuation.
    decide_tests. do 2 f_equal. div_lia. }
  destruct (N.ltb_spec c 65536) as [H3|H3].
  { destruct ((55296 <=? c) && (c <=? 57343)) eqn:Hs; [discriminate|].
    intros E. injection E as <-. cbn [map app].
    rewrite !to_N_byte_of by div_lia.
    cbn [utf8_decode_bytes]. unfold continuation. cbv zeta.
    replace ((224 + c / 4096 - 224) * 4096 + (128 + (c / 64) mod 64 - 128) * 64
             + (128 + c mod 64 - 128)) with c by div_lia.
    rewrite Hs. decide_tests. reflexivity. }
  destruct (N.ltb_spec c 1114112) as [H4|H4]; [|discriminate].
  intros E. injection E as <-. cbn [map app].
  rewrite !to_N_byte_of by div_lia.
  cbn [utf8_decode_bytes]. unfold continuation. cbv zeta.
  replace ((240 + c / 262144 - 240) * 262144 + (128 + (c / 4096) mod 64 - 128) * 4096
           + (128 + (c / 64) mod 64 - 128) * 64 + (128 + c mod 64 - 128))
    with c by div_lia.
  decide_tests. reflexivity.
Qed.

Lemma utf8_decode_inverts (s : str) (b : bytes) :
  utf8_encode s = Some b -> utf8_decode b = Some s.
Proof.
  unfold utf8_decode. revert b.
  induction s as [|c s IH]; intros b Hb; simpl in Hb.
  - injection Hb as <-. reflexivity.
  - destruct (utf8_encode_char c) as [bc|] eqn:Ec; [|discriminate].
    destruct (utf8_encode s) as [r|]; [|discriminate].
    injection Hb as <-. rewrite map_app.
    rewrite (utf8_decode_char _ _ _ Ec), (IH r eq_refl). reflexivity.
Qed.

(** X13.  Decoding the UTF-8 encoding of a text gives the text back, and
    no other text has the same encoding: a text that can be encoded is
    never altered or confused with another by the encoding. *)
Theorem utf8_decode_utf8_encode (s : str) (b : bytes) :
  utf8_encode s = Some b ->
  utf8_decode b = Some s
  /\ forall t, utf8_encode t = Some b -> t = s.
Proof.
  intros Hb. split; [now apply utf8_decode_inverts|].
  intros t Ht.
  apply utf8_decode_inverts in Hb, Ht. congruence.
Qed.

Section ExportRoundTrip.
Context `{Externals}.

(** X14.  The TXT export end to end: where the file operations succeed,
    the payload of the returned link, decoded from base64 and then from
    UTF-8, is the content with each "\n" replaced by the line separator
    of the platform, and the content itself where that separator is
    "\n". *)
Theorem txt_download_reads_back
    (content filename : str) (b : bytes) (w : world) :
  io_fault OpenWrite = None -> io_fault WriteText = None ->
  io_fault OpenRead = None ->
  utf8_encode (translate_newlines content) = Some b ->
  fst (create_download_link content (lit "txt") filename w)
  = Return (download_link (b64encode b) filename (lit "txt"))
  /\ option_map utf8_decode (b64decode (b64encode b))
     = Some (Some (translate_newlines content))
  /\ (linesep = [LF] ->
      option_map utf8_decode (b64decode (b64encode b)) = Some (Some content)).
Proof.
  intros Ho Hw Hr Hb.
  assert (Hpdf : lit "txt" <> lit "pdf") by discriminate.
  assert (Hdocx : lit "txt" <> lit "docx") by discriminate.
  assert (Hdec : option_map utf8_decode (b64decode (b64encode b))
                 = Some (Some (translate_newlines content))).
  { rewrite b64decode_inverts. simpl.
    now rewrite (utf8_decode_inverts _ _ Hb). }
  split; [now apply create_download_link_text|].
  split; [exact Hdec|].
  intros Hsep. rewrite Hdec. now rewrite (translate_newlines_lf content Hsep).
Qed.

End ExportRoundTrip.

(** ** The prompt builder *)

Section PromptBuilderMore.
Context `{Externals}.

(** X15.  A template that the parser reads and that has a field whose
    name has no value in the context (the language included) makes the
    prompt builder raise the [KeyError] with which the prompt template
    refuses an input that lacks variables, whatever the model would
    answer: the input is checked before any field is replaced and before
    the model is called. *)
Theorem generate_localized_content_missing_key
    (prompt_template language name : str) (conversion : option N)
    (format_spec : str) (ps : list piece) (context : gmap str str) :
  language ∈ LANGUAGES ->
  parse_template InText prompt_template = Return ps ->
  Field name conversion format_spec ∈ ps ->
  (<[ lit "language" := language ]> context) !! name = None ->
  generate_localized_content prompt_template language context
  = Raised (Raise KeyError
              (missing_variables_text (variables ps)
                 (<[ lit "language" := language ]> context))).
Proof.
  intros Hlang Hparse Hin Hmiss.
  assert (Hvar : name ∈ variables ps).
  { clear Hparse. induction ps as [|[c|n cv sp] ps IH].
    - now apply elem_of_nil in Hin.
    - apply elem_of_cons in Hin as [Hin|Hin]; [discriminate|]. now apply IH.
    - apply elem_of_cons in Hin as [Hin|Hin].
      + injection Hin as -> _ _. apply elem_of_cons. now left.
      + apply elem_of_cons. right. now apply IH. }
  pose proof (parse_template_suffix prompt_template _
                (language_directive_brace_free _ Hlang)) as Hp.
  rewrite Hparse in Hp.
  unfold generate_localized_content, format_template.
  rewrite Hp. cbn [obind].
  rewrite variables_app, variables_only_text, app_nil_r.
  rewrite (bound_missing _ _ _ Hvar Hmiss). reflexivity.
Qed.

Lemma parse_salary_guide_prompt :
  parse_template InText salary_guide_prompt
  = Return (map Text (lit "Generate salary negotiation advice for:" ++ [LF]
                    ++ lit "    Industry: ")
          ++ Field (lit "industry") None []
          :: map Text ([LF] ++ lit "    Experience: ")
          ++ Field (lit "experience") None []
          :: map Text (lit " years" ++ [LF] ++ lit "    Location: ")
          ++ Field (lit "location") None []
          :: map Text ([LF] ++ lit "    Current Salary: ")
          ++ Field (lit "current_salary") None []
          :: map Text ([LF] ++ lit "    Include: Market rates, negotiation strategies, benefits considerations")).
Proof. vm_compute. reflexivity. Qed.

Lemma parse_interview_preparation_prompt :
  parse_template InText interview_preparation_prompt
  = Return (map Text (lit "Generate interview preparation guide for:" ++ [LF]
                    ++ lit "    Position: ")
          ++ Field (lit "position") None []
          :: map Text ([LF] ++ lit "    Company Type: ")
          ++ Field (lit "company_type") None []
          :: map Text ([LF] ++ lit "    Technical Skills: ")
          ++ Field (lit "skills") None []
          :: map Text ([LF] ++ lit "    Include: Common questions, STAR method examples, technical tests preparation")).
Proof. vm_compute. reflexivity. Qed.

Lemma parse_reference_letter_prompt :
  parse_template InText reference_letter_prompt
  = Return (map Text (lit "Write professional reference letter from:" ++ [LF]
                    ++ lit "    Referee: ")
          ++ Field (lit "referee_name") None []
          :: map Text ([LF] ++ lit "    Relationship: ")
          ++ Field (lit "relationship") None []
          :: map Text ([LF] ++ lit "    Duration: ")
          ++ Field (lit "duration") None []
          :: map Text ([LF] ++ lit "    Key achievements: ")
          ++ Field (lit "achievements") None []
          :: map Text ([LF] ++ lit "    Contact: ")
          ++ Field (lit "contact_info") None [] :: []).
Proof. vm_compute. reflexivity. Qed.

(** A context read through the language binding. *)
Lemma lookup_with_language (context : gmap str str) (language k v : str) :
  k <> lit "language" -> context !! k = Some v ->
  (<[ lit "language" := language ]> context) !! k = Some v.
Proof. intros Hk Hv. rewrite lookup_insert_ne by congruence. exact Hv. Qed.

Lemma salary_guide_formats
    (ctx : gmap str str) (industry experience location current_salary : str) :
  ctx !! lit "industry" = Some industry ->
  ctx !! lit "experience" = Some experience ->
  ctx !! lit "location" = Some location ->
  ctx !! lit "current_salary" = Some current_salary ->
  format_template salary_guide_prompt ctx
  = Return ((lit "Generate salary negotiation advice for:" ++ [LF]
             ++ lit "    Industry: ") ++ industry
            ++ ([LF] ++ lit "    Experience: ") ++ experience
            ++ (lit " years" ++ [LF] ++ lit "    Location: ") ++ location
            ++ ([LF] ++ lit "    Current Salary: ") ++ current_salary
            ++ ([LF] ++ lit "    Include: Market rates, negotiation strategies, benefits considerations")).
Proof.
  intros H1 H2 H3 H4.
  unfold format_template. rewrite parse_salary_guide_prompt. cbn [obind].
  repeat (rewrite ?variables_text; cbn [variables]).
  rewrite (bound_cons _ _ industry) by exact H1.
  rewrite (bound_cons _ _ experience) by exact H2.
  rewrite (bound_cons _ _ location) by exact H3.
  rewrite (bound_cons _ _ current_salary) by exact H4.
  cbn [bound forallb].
  rewrite render_text, (render_field _ _ industry) by (reflexivity || exact H1).
  rewrite render_text, (render_field _ _ experience) by (reflexivity || exact H2).
  rewrite render_text, (render_field _ _ location) by (reflexivity || exact H3).
  rewrite render_text, (render_field _ _ current_salary) by (reflexivity || exact H4).
  rewrite render_only_text. reflexivity.
Qed.

Lemma interview_preparation_formats
    (ctx : gmap str str) (position company_type skills : str) :
  ctx !! lit "position" = Some position ->
  ctx !! lit "company_type" = Some company_type ->
  ctx !! lit "skills" = Some skills ->
  format_template interview_preparation_prompt ctx
  = Return ((lit "Generate interview preparation guide for:" ++ [LF]
             ++ lit "    Position: ") ++ position
            ++ ([LF] ++ lit "    Company Type: ") ++ company_type
            ++ ([LF] ++ lit "    Technical Skills: ") ++ skills
            ++ ([LF] ++ lit "    Include: Common questions, STAR method examples, technical tests preparation")).
Proof.
  intros H1 H2 H3.
  unfold format_template. rewrite parse_interview_preparation_prompt. cbn [obind].
  repeat (rewrite ?variables_text; cbn [variables]).
  rewrite (bound_cons _ _ position) by exact H1.
  rewrite (bound_cons _ _ company_type) by exact H2.
  rewrite (bound_cons _ _ skills) by exact H3.
  cbn [bound forallb].
  rewrite render_text, (render_field _ _ position) by (reflexivity || exact H1).
  rewrite render_text, (render_field _ _ company_type) by (reflexivity || exact H2).
  rewrite render_text, (render_field _ _ skills) by (reflexivity || exact H3).
  rewrite render_only_text. reflexivity.
Qed.

Lemma reference_letter_formats
    (ctx : gmap str str)
    (referee_name relationship duration achievements contact_info : str) :
  ctx !! lit "referee_name" = Some referee_name ->
  ctx !! lit "relationship" = Some relationship ->
  ctx !! lit "duration" = Some duration ->
  ctx !! lit "achievements" = Some achievements ->
  ctx !! lit "contact_info" = Some contact_info ->
  format_template reference_letter_prompt ctx
  = Return ((lit "Write professional reference letter from:" ++ [LF]
             ++ lit "    Referee: ") ++ referee_name
            ++ ([LF] ++ lit "    Relationship: ") ++ relationship
            ++ ([LF] ++ lit "    Duration: ") ++ duration
            ++ ([LF] ++ lit "    Key achievements: ") ++ achievements
            ++ ([LF] ++ lit "    Contact: ") ++ contact_info).
Proof.
  intros H1 H2 H3 H4 H5.
  unfold format_template. rewrite parse_reference_letter_prompt. cbn [obind].
  repeat (rewrite ?variables_text; cbn [variables]).
  rewrite (bound_cons _ _ referee_name) by exact H1.
  rewrite (bound_cons _ _ relationship) by exact H2.
  rewrite (bound_cons _ _ duration) by exact H3.
  rewrite (bound_cons _ _ achievements) by exact H4.
  rewrite (bound_cons _ _ contact_info) by exact H5.
  cbn [bound forallb].
  rewrite render_text, (render_field _ _ referee_name) by (reflexivity || exact H1).
  rewrite render_text, (render_field _ _ relationship) by (reflexivity || exact H2).
  rewrite render_text, (render_field _ _ duration) by (reflexivity || exact H3).
  rewrite render_text, (render_field _ _ achievements) by (reflexivity || exact H4).
  rewrite render_text, (render_field _ _ contact_info) by (reflexivity || exact H5).
  cbn [render obind]. now rewrite app_nil_r.
Qed.

(** The prompt builder on a template that formats, for a supported
    language. *)
Lemma generate_localized_content_formatted
    (prompt_template language prompt : str) (context : gmap str str) :
  language ∈ LANGUAGES ->
  format_template prompt_template (<[ lit "language" := language ]> context)
  = Return prompt ->
  generate_localized_content prompt_template language context
  = model_invoke [(Human, prompt ++ language_directive language)].
Proof.
  intros Hlang Hf. unfold generate_localized_content.
  pose proof (format_template_suffix prompt_template _
                (<[ lit "language" := language ]> context)
                (language_directive_brace_free _ Hlang)) as Hs.
  rewrite Hf in Hs. now rewrite Hs.
Qed.

(** X16.  [salary_guide]: with a supported language and the four fields
    of the form in the context, the model receives the advice request
    with the values in place, followed by
    " \nRespond in <language> language", and its answer is the result;
    without a language in the context the call raises [KeyError] for
    'language'. *)
Theorem salary_guide_prompt_sent
    (context : gmap str str)
    (language industry experience location current_salary : str) :
  (context !! lit "language" = Some language ->
   language ∈ LANGUAGES ->
   context !! lit "industry" = Some industry ->
   context !! lit "experience" = Some experience ->
   context !! lit "location" = Some location ->
   context !! lit "current_salary" = Some current_salary ->
   salary_guide context
   = model_invoke
       [(Human,
         ((lit "Generate salary negotiation advice for:" ++ [LF]
           ++ lit "    Industry: ") ++ industry
          ++ ([LF] ++ lit "    Experience: ") ++ experience
          ++ (lit " years" ++ [LF] ++ lit "    Location: ") ++ location
          ++ ([LF] ++ lit "    Current Salary: ") ++ current_salary
          ++ ([LF] ++ lit "    Include: Market rates, negotiation strategies, benefits considerations"))
         ++ lit " " ++ [LF] ++ lit "Respond in " ++ language
         ++ lit " language")])
  /\
  (context !! lit "language" = None ->
   salary_guide context = Raised (Raise KeyError (lit "'language'"))).
Proof.
  split.
  - intros Hl Hlang H1 H2 H3 H4.
    unfold salary_guide, getitem. rewrite Hl. cbn [obind].
    apply (generate_localized_content_formatted _ _ _ _ Hlang).
    apply salary_guide_formats;
      (apply lookup_with_language; [discriminate|assumption]).
  - intros Hl. unfold salary_guide, getitem. now rewrite Hl.
Qed.

(** X17.  [interview_preparation]: with a supported language, a position,
    a company type and the skills in the context, the model receives the
    guide request with the values in place, followed by
    " \nRespond in <language> language", and its answer is the result;
    without a language in the context the call raises [KeyError] for
    'language'. *)
Theorem interview_preparation_prompt_sent
    (context : gmap str str) (language position company_type skills : str) :
  (context !! lit "language" = Some language ->
   language ∈ LANGUAGES ->
   context !! lit "position" = Some position ->
   context !! lit "company_type" = Some company_type ->
   context !! lit "skills" = Some skills ->
   interview_preparation context
   = model_invoke
       [(Human,
         ((lit "Generate interview preparation guide for:" ++ [LF]
           ++ lit "    Position: ") ++ position
          ++ ([LF] ++ lit "    Company Type: ") ++ company_type
          ++ ([LF] ++ lit "    Technical Skills: ") ++ skills
          ++ ([LF] ++ lit "    Include: Common questions, STAR method examples, technical tests preparation"))
         ++ lit " " ++ [LF] ++ lit "Respond in " ++ language
         ++ lit " language")])
  /\
  (context !! lit "language" = None ->
   interview_preparation context = Raised (Raise KeyError (lit "'language'"))).
Proof.
  split.
  - intros Hl Hlang H1 H2 H3.
    unfold interview_preparation, getitem. rewrite Hl. cbn [obind].
    apply (generate_localized_content_formatted _ _ _ _ Hlang).
    apply interview_preparation_formats;
      (apply lookup_with_language; [discriminate|assumption]).
  - intros Hl. unfold interview_preparation, getitem. now rewrite Hl.
Qed.

(** X18.  [generate_reference_letter]: with a supported language and the
    five fields of the letter in the context, the model receives the
    letter request with the values in place, followed by
    " \nRespond in <language> language", and its answer is the result;
    without a language in the context the call raises [KeyError] for
    'language'. *)
Theorem generate_reference_letter_prompt_sent
    (context : gmap str str)
    (language referee_name relationship duration achievements contact_info : str) :
  (context !! lit "language" = Some language ->
   language ∈ LANGUAGES ->
   context !! lit "referee_name" = Some referee_name ->
   context !! lit "relationship" = Some relationship ->
   context !! lit "duration" = Some duration ->
   context !! lit "achievements" = Some achievements ->
   context !! lit "contact_info" = Some contact_info ->
   generate_reference_letter context
   = model_invoke
       [(Human,
         ((lit "Write professional reference letter from:" ++ [LF]
           ++ lit "    Referee: ") ++ referee_name
          ++ ([LF] ++ lit "    Relationship: ") ++ relationship
          ++ ([LF] ++ lit "    Duration: ") ++ duration
          ++ ([LF] ++ lit "    Key achievements: ") ++ achievements
          ++ ([LF] ++ lit "    Contact: ") ++ contact_info)
         ++ lit " " ++ [LF] ++ lit "Respond in " ++ language
         ++ lit " language")])
  /\
  (context !! lit "language" = None ->
   generate_reference_letter context = Raised (Raise KeyError (lit "'language'"))).
Proof.
  split.
  - intros Hl Hlang H1 H2 H3 H4 H5.
    unfold generate_reference_letter, getitem. rewrite Hl. cbn [obind].
    apply (generate_localized_content_formatted _ _ _ _ Hlang).
    apply reference_letter_formats;
      (apply lookup_with_language; [discriminate|assumption]).
  - intros Hl. unfold generate_reference_letter, getitem. now rewrite Hl.
Qed.

End PromptBuilderMore.

(** ** The "Import Profile" action *)

Lemma join_items_strs (i : nat) (l : list str) :
  join_items i (map JStr l) = Return l.
Proof.
  revert i. induction l as [|s l IH]; intros i; simpl; [reflexivity|].
  now rewrite IH.
Qed.

Lemma join_characters_length (sep c : N) (text : str) :
  length (join [sep] (map (fun x => [x]) (c :: text))) = S (2 * length text).
Proof.
  revert c. induction text as [|c' text IH]; intros c; [reflexivity|].
  change (join [sep] (map (fun x => [x]) (c :: c' :: text)))
    with (c :: sep :: join [sep] (map (fun x => [x]) (c' :: text))).
  cbn [length]. rewrite IH. lia.
Qed.

Lemma flattened_profile_shape (v : json) (items : list (str * json)) :
  flattened_profile v = Return items ->
  exists name e d s,
    items = [(lit "name", name); (lit "experience", JStr e);
             (lit "education", JStr d); (lit "skills", JStr s)].
Proof.
  unfold flattened_profile. intros Hf.
  destruct (py_get v (lit "name") (JStr [])) as [name|]; [|discriminate].
  cbn [obind] in Hf.
  destruct (py_get v (lit "experience") (JArr [])) as [e0|]; [|discriminate].
  cbn [obind] in Hf.
  destruct (py_join [LF] e0) as [e|]; [|discriminate]. cbn [obind] in Hf.
  destruct (py_get v (lit "education") (JArr [])) as [d0|]; [|discriminate].
  cbn [obind] in Hf.
  destruct (py_join [LF] d0) as [d|]; [|discriminate]. cbn [obind] in Hf.
  destruct (py_get v (lit "skills") (JArr [])) as [s0|]; [|discriminate].
  cbn [obind] in Hf.
  destruct (py_join (lit ", ") s0) as [s|]; [|discriminate]. cbn [obind] in Hf.
  injection Hf as <-. now exists name, e, d, s.
Qed.

Section ImportProfileMore.
Context `{Externals}.

(** What the action does, by the way the adapter ended. *)
Lemma import_profile_cases (url : str) (w : world) :
  url <> [] ->
  (exists e,
      import_profile url w
      = (Return tt,
         add_ui SUCCESS
           (add_ui (StError (lit "LinkedIn import error: " ++ exn_str e)) w)))
  \/ import_profile url w = (Return tt, add_ui SUCCESS w)
  \/ (exists v items,
         flattened_profile v = Return items
         /\ import_profile url w
            = (Return tt, add_ui SUCCESS (snd (resume_data_update items w))))
  \/ (exists e,
         import_profile url w
         = (Return tt,
            add_ui (StError (lit "Failed to process LinkedIn profile: " ++ exn_str e)) w)).
Proof.
  intros Hurl.
  destruct (linkedin_import_cases url w) as [(v & Hv & _)|(e & He)].
  - rewrite (import_profile_after _ _ _ _ Hurl Hv).
    destruct (py_bool v); [|right; left; reflexivity].
    destruct (flattened_profile v) as [items|e] eqn:Ef.
    + right; right; left. now exists v, items.
    + right; right; right. now exists e.
  - left. exists e. rewrite (import_profile_after _ _ _ _ Hurl He). reflexivity.
Qed.

(** X19.  The Import Profile action never raises and never touches a
    file; with an empty URL it does nothing at all, and otherwise it adds
    one or two messages to the page, the last of which is the success
    message or "Failed to process LinkedIn profile: ...". *)
Theorem import_profile_contained (url : str) (w : world) :
  fst (import_profile url w) = Return tt
  /\ fs (snd (import_profile url w)) = fs w
  /\ (url = [] -> snd (import_profile url w) = w)
  /\ (url <> [] ->
      exists before last,
        ui (snd (import_profile url w)) = ui w ++ before ++ [last]
        /\ (length before <= 1)%nat
        /\ (last = SUCCESS
            \/ exists text,
                last = StError (lit "Failed to process LinkedIn profile: " ++ text))).
Proof.
  destruct url as [|c url].
  { repeat split; try reflexivity. intros Hne. contradiction. }
  assert (Hurl : c :: url <> []) by discriminate.
  destruct (import_profile_cases (c :: url) w Hurl)
    as [(e & ->)|[->|[(v & items & _ & ->)|(e & ->)]]];
    (split; [reflexivity|]); (split; [reflexivity|]);
    (split; [intros E; discriminate E|]); intros _.
  - exists [StError (lit "LinkedIn import error: " ++ exn_str e)], SUCCESS.
    cbn [snd ui add_ui length]. rewrite <- app_assoc.
    repeat split; [lia|now left].
  - exists [], SUCCESS. cbn [snd ui add_ui length app].
    repeat split; [lia|now left].
  - exists [], SUCCESS. cbn [snd ui add_ui length app].
    repeat split; [lia|now left].
  - exists [], (StError (lit "Failed to process LinkedIn profile: " ++ exn_str e)).
    cbn [snd ui add_ui length app].
    repeat split; [lia|right; now exists (exn_str e)].
Qed.

(** X20.  The resume data after the action is either what it was or what
    it was with all four of name, experience, education and skills set,
    the last three to strings; every other field (email, phone,
    job_description) keeps its value. *)
Theorem import_profile_all_or_nothing (url : str) (w : world) :
  (resume_data (snd (import_profile url w)) = resume_data w
   \/ exists name e d s,
       resume_data (snd (import_profile url w))
       = <[ lit "skills" := JStr s ]>
           (<[ lit "education" := JStr d ]>
              (<[ lit "experience" := JStr e ]>
                 (<[ lit "name" := name ]> (resume_data w)))))
  /\ forall k,
      k <> lit "name" -> k <> lit "experience" ->
      k <> lit "education" -> k <> lit "skills" ->
      resume_data (snd (import_profile url w)) !! k = resume_data w !! k.
Proof.
  assert (Hcases :
            resume_data (snd (import_profile url w)) = resume_data w
            \/ exists name e d s,
                resume_data (snd (import_profile url w))
                = <[ lit "skills" := JStr s ]>
                    (<[ lit "education" := JStr d ]>
                       (<[ lit "experience" := JStr e ]>
                          (<[ lit "name" := name ]> (resume_data w))))).
  { destruct url as [|c url]; [now left|].
    assert (Hurl : c :: url <> []) by discriminate.
    destruct (import_profile_cases (c :: url) w Hurl)
      as [(e & ->)|[->|[(v & items & Hf & ->)|(e & ->)]]];
      try (left; reflexivity).
    right. destruct (flattened_profile_shape _ _ Hf) as (name & e & d & s & ->).
    now exists name, e, d, s. }
  split; [exact Hcases|].
  intros k H1 H2 H3 H4.
  destruct Hcases as [->|(name & e & d & s & ->)]; [reflexivity|].
  now rewrite !lookup_insert_ne by congruence.
Qed.

(** X21.  A profile whose experience, education and skills are lists of
    strings is stored flattened: the name as it is, experience and
    education joined by newlines, skills joined by ", ", and the success
    message is shown. *)
Theorem import_profile_stores_flattened
    (url : str) (w : world) (d : dict) (name : json) (es ds ss : list str) :
  url <> [] ->
  linkedin_import url w = (Return (JObj d), w) ->
  dict_get d (lit "name") = Some name ->
  dict_get d (lit "experience") = Some (JArr (map JStr es)) ->
  dict_get d (lit "education") = Some (JArr (map JStr ds)) ->
  dict_get d (lit "skills") = Some (JArr (map JStr ss)) ->
  import_profile url w
  = (Return tt,
     add_ui SUCCESS
       (set_resume_data
          (<[ lit "skills" := JStr (join (lit ", ") ss) ]>
             (<[ lit "education" := JStr (join [LF] ds) ]>
                (<[ lit "experience" := JStr (join [LF] es) ]>
                   (<[ lit "name" := name ]> (resume_data w)))))
          w)).
Proof.
  intros Hurl Himp Hn He Hd Hs.
  rewrite (import_profile_after _ _ _ _ Hurl Himp).
  assert (Hb : py_bool (JObj d) = true).
  { destruct d; [discriminate Hn|reflexivity]. }
  rewrite Hb. unfold flattened_profile, py_get, py_join.
  rewrite Hn, He, Hd, Hs. cbn [obind].
  rewrite !join_items_strs. cbn [obind]. reflexivity.
Qed.

(** X22.  A profile whose experience is one string, not a list of
    strings, is stored with a newline between every two characters of
    that string. *)
Theorem import_profile_splits_a_string
    (url : str) (w : world) (d : dict) (name : json) (text : str)
    (ds ss : list str) :
  url <> [] ->
  linkedin_import url w = (Return (JObj d), w) ->
  dict_get d (lit "name") = Some name ->
  dict_get d (lit "experience") = Some (JStr text) ->
  dict_get d (lit "education") = Some (JArr (map JStr ds)) ->
  dict_get d (lit "skills") = Some (JArr (map JStr ss)) ->
  resume_data (snd (import_profile url w)) !! lit "experience"
  = Some (JStr (join [LF] (map (fun c => [c]) text)))
  /\ (text <> [] ->
      length (join [LF] (map (fun c => [c]) text)) = (2 * length text - 1)%nat).
Proof.
  intros Hurl Himp Hn He Hd Hs. split.
  - rewrite (import_profile_after _ _ _ _ Hurl Himp).
    assert (Hb : py_bool (JObj d) = true).
    { destruct d; [discriminate Hn|reflexivity]. }
    rewrite Hb. unfold flattened_profile, py_get, py_join.
    rewrite Hn, He, Hd, Hs. cbn [obind].
    rewrite !join_items_strs. cbn [obind].
    cbn [snd resume_data_update add_ui set_resume_data resume_data foldl fst].
    rewrite lookup_insert_ne by discriminate.
    rewrite lookup_insert_ne by discriminate.
    now rewrite lookup_insert_eq.
  - intros Hne. destruct text as [|c text]; [contradiction|].
    rewrite join_characters_length. cbn [length]. lia.
Qed.

End ImportProfileMore.

(** ** One run of [main] *)

Lemma sbind_returned {A B} (c : Run A) (k : A -> Run B) (s s' : session) (a : A) :
  c s = (Return a, s') -> sbind c k s = k a s'.
Proof. intros Hc. unfold sbind. now rewrite Hc. Qed.

Lemma sbind_raised {A B} (c : Run A) (k : A -> Run B) (s s' : session) (e : exn) :
  c s = (Raised e, s') -> sbind c k s = (Raised e, s').
Proof. intros Hc. unfold sbind. now rewrite Hc. Qed.

Lemma keeps_resume_data_sret {A} (a : A) : keeps_resume_data (sret a).
Proof. intros s. reflexivity. Qed.

Lemma keeps_resume_data_sbind {A B} (c : Run A) (k : A -> Run B) :
  keeps_resume_data c -> (forall a, keeps_resume_data (k a)) ->
  keeps_resume_data (sbind c k).
Proof.
  intros Hc Hk s. unfold sbind. specialize (Hc s).
  destruct (c s) as [[a|e] s1]; cbn [snd] in *; [|exact Hc].
  now rewrite Hk.
Qed.

Lemma keeps_resume_data_read {A} (f : session -> A) : keeps_resume_data (read f).
Proof. intros s. reflexivity. Qed.

Lemma keeps_resume_data_call {A} (o : outcome A) : keeps_resume_data (call o).
Proof. intros s. reflexivity. Qed.

Lemma keeps_resume_data_update (g : session -> session) :
  (forall s, base (g s) = base s) -> keeps_resume_data (update g).
Proof. intros Hg s. unfold update. cbn [snd]. now rewrite Hg. Qed.

Lemma keeps_resume_data_in_world {A} (c : M A) :
  (forall w, resume_data (snd (c w)) = resume_data w) ->
  keeps_resume_data (in_world c).
Proof.
  intros Hc s. unfold in_world. specialize (Hc (base s)).
  destruct (c (base s)) as [r w']. exact Hc.
Qed.

Lemma keeps_resume_data_session_language : keeps_resume_data session_language.
Proof. intros s. unfold session_language. now destruct (ss_language s). Qed.

(** After a statement that keeps the resume data, the resume data is
    that of the statement before it. *)
Lemma resume_data_after {A B} (c : Run A) (k : A -> Run B) (s : session) :
  (forall a, keeps_resume_data (k a)) ->
  resume_data (base (snd (sbind c k s))) = resume_data (base (snd (c s))).
Proof.
  intros Hk. unfold sbind.
  destruct (c s) as [[a|e] s1]; cbn [snd]; [apply Hk|reflexivity].
Qed.

(** Rules for statements that end well. *)
Lemma ends_well_weaken {A} (P P' : session -> Prop) (c : Run A)
    (Q Q' : A -> session -> Prop) :
  ends_well P' c Q' -> (forall s, P s -> P' s) ->
  (forall a s, Q' a s -> Q a s) -> ends_well P c Q.
Proof.
  intros Hc HP HQ s Hs. destruct (Hc s (HP s Hs)) as (a & s' & E & Hq).
  exists a, s'. split; [exact E|now apply HQ].
Qed.

Lemma ends_well_sret {A} (P : session -> Prop) (a : A) (Q : A -> session -> Prop) :
  (forall s, P s -> Q a s) -> ends_well P (sret a) Q.
Proof. intros HQ s Hs. exists a, s. split; [reflexivity|now apply HQ]. Qed.

Lemma ends_well_sbind {A B} (P : session -> Prop) (c : Run A)
    (Q : A -> session -> Prop) (k : A -> Run B) (R : B -> session -> Prop) :
  ends_well P c Q -> (forall a, ends_well (Q a) (k a) R) ->
  ends_well P (sbind c k) R.
Proof.
  intros Hc Hk s Hs. destruct (Hc s Hs) as (a & s1 & E & Hq).
  destruct (Hk a s1 Hq) as (b & s2 & E2 & Hr).
  exists b, s2. split; [|exact Hr]. now rewrite (sbind_returned _ _ _ _ _ E).
Qed.

Lemma ends_well_pure {A} (fact : Prop) (P : session -> Prop) (c : Run A)
    (Q : A -> session -> Prop) :
  (fact -> ends_well P c Q) -> ends_well (fun s => fact /\ P s) c Q.
Proof. intros Hc s [Hf Hs]. now apply Hc. Qed.

Lemma ends_well_read {A} (P : session -> Prop) (f : session -> A)
    (Q : A -> session -> Prop) :
  (forall s, P s -> Q (f s) s) -> ends_well P (read f) Q.
Proof. intros HQ s Hs. exists (f s), s. split; [reflexivity|now apply HQ]. Qed.

Lemma ends_well_update (P : session -> Prop) (g : session -> session)
    (Q : unit -> session -> Prop) :
  (forall s, P s -> Q tt (g s)) -> ends_well P (update g) Q.
Proof. intros HQ s Hs. exists tt, (g s). split; [reflexivity|now apply HQ]. Qed.

Lemma ends_well_call {A} (P : session -> Prop) (o : outcome A) (a : A)
    (Q : A -> session -> Prop) :
  o = Return a -> (forall s, P s -> Q a s) -> ends_well P (call o) Q.
Proof.
  intros -> HQ s Hs. exists a, s. split; [reflexivity|now apply HQ].
Qed.

Lemma ends_well_in_world {A} (P : session -> Prop) (c : M A)
    (Q : A -> session -> Prop) :
  (forall w, exists a, fst (c w) = Return a) ->
  (forall s a w', P s -> Q a (with_base w' s)) ->
  ends_well P (in_world c) Q.
Proof.
  intros Hc HQ s Hs. unfold in_world.
  destruct (Hc (base s)) as (a & Ha).
  destruct (c (base s)) as [r w']. cbn [fst] in Ha. subst r.
  exists a, (with_base w' s). split; [reflexivity|now apply HQ].
Qed.

Lemma ends_well_session_language (l : str) :
  ends_well (selected l) session_language (fun a s => a = l /\ selected l s).
Proof.
  intros s Hs. exists l, s. unfold session_language.
  unfold selected in Hs. rewrite Hs. now repeat split.
Qed.

Lemma ends_well_st_markdown (l text : str) :
  ends_well (selected l) (st_markdown text) (fun _ => selected l).
Proof. apply ends_well_update. intros s Hs. exact Hs. Qed.

Section MainProperties.
Context `{Externals} `{PyStr}.

Lemma import_profile_returns (url : str) (w : world) :
  fst (import_profile url w) = Return tt.
Proof.
  destruct url as [|c url]; [reflexivity|].
  assert (Hurl : c :: url <> []) by discriminate.
  destruct (import_profile_cases (c :: url) w Hurl)
    as [(e & ->)|[->|[(v & items & _ & ->)|(e & ->)]]]; reflexivity.
Qed.

Lemma keeps_resume_data_show_with_link (i : widgets) (content filename : str) :
  keeps_resume_data (show_with_link i content filename).
Proof.
  unfold show_with_link, st_markdown.
  apply keeps_resume_data_sbind; [now apply keeps_resume_data_update|].
  intros _. apply keeps_resume_data_sbind.
  - apply keeps_resume_data_in_world. intros w.
    apply (keeps_create_download_link content _ filename w).
  - intros link. now apply keeps_resume_data_update.
Qed.

Lemma keeps_resume_data_resume_field (key : str) :
  keeps_resume_data (resume_field key).
Proof. apply keeps_resume_data_read. Qed.

Lemma keeps_resume_data_tab2 (i : widgets) : keeps_resume_data (tab2 i).
Proof.
  unfold tab2. apply keeps_resume_data_sbind.
  - destruct (in_generate_cover i); [|apply keeps_resume_data_sret].
    apply keeps_resume_data_sbind; [apply keeps_resume_data_session_language|].
    intros language. apply keeps_resume_data_sbind; [apply keeps_resume_data_read|].
    intros data. apply keeps_resume_data_sbind; [apply keeps_resume_data_resume_field|].
    intros job. apply keeps_resume_data_sbind; [apply keeps_resume_data_call|].
    intros text. now apply keeps_resume_data_update.
  - intros _. apply keeps_resume_data_sbind; [apply keeps_resume_data_read|].
    intros [|c t]; [apply keeps_resume_data_sret|].
    apply keeps_resume_data_show_with_link.
Qed.

Lemma keeps_resume_data_tab3 (i : widgets) : keeps_resume_data (tab3 i).
Proof.
  unfold tab3, st_markdown.
  apply keeps_resume_data_sbind; [now apply keeps_resume_data_update|].
  intros _. apply keeps_resume_data_sbind; [now apply keeps_resume_data_update|].
  intros _. apply keeps_resume_data_sbind.
  - destruct (in_generate_prep i); [|apply keeps_resume_data_sret].
    apply keeps_resume_data_sbind; [apply keeps_resume_data_session_language|].
    intros language. apply keeps_resume_data_sbind; [apply keeps_resume_data_resume_field|].
    intros position. apply keeps_resume_data_sbind; [intros s; reflexivity|].
    intros company. apply keeps_resume_data_sbind; [intros s; reflexivity|].
    intros skills. apply keeps_resume_data_sbind; [apply keeps_resume_data_call|].
    intros guide. now apply keeps_resume_data_update.
  - intros _. apply keeps_resume_data_sbind; [apply keeps_resume_data_read|].
    intros [text|]; [now apply keeps_resume_data_update|apply keeps_resume_data_sret].
Qed.

Lemma keeps_resume_data_tab4 (i : widgets) : keeps_resume_data (tab4 i).
Proof.
  unfold tab4, st_markdown. apply keeps_resume_data_sbind.
  - destruct (in_generate_guide i); [|apply keeps_resume_data_sret].
    apply keeps_resume_data_sbind; [apply keeps_resume_data_session_language|].
    intros language. apply keeps_resume_data_sbind; [apply keeps_resume_data_call|].
    intros guide. now apply keeps_resume_data_update.
  - intros _. apply keeps_resume_data_sbind; [apply keeps_resume_data_read|].
    intros [text|]; [now apply keeps_resume_data_update|apply keeps_resume_data_sret].
Qed.

Lemma keeps_resume_data_tab5 (i : widgets) : keeps_resume_data (tab5 i).
Proof.
  unfold tab5. apply keeps_resume_data_sbind.
  - destruct (in_generate_letter i); [|apply keeps_resume_data_sret].
    apply keeps_resume_data_sbind; [apply keeps_resume_data_session_language|].
    intros language. apply keeps_resume_data_sbind; [apply keeps_resume_data_resume_field|].
    intros achievements. apply keeps_resume_data_sbind; [apply keeps_resume_data_call|].
    intros letter. now apply keeps_resume_data_update.
  - intros _. apply keeps_resume_data_sbind; [apply keeps_resume_data_read|].
    intros [text|]; [apply keeps_resume_data_show_with_link|apply keeps_resume_data_sret].
Qed.

(** The resume builder stores the form and then keeps the resume data. *)
Lemma resume_data_tab1 (i : widgets) (s : session) :
  resume_data (base (snd (tab1 i s))) = form_data i (resume_data (base s)).
Proof.
  unfold tab1. rewrite resume_data_after; [reflexivity|].
  intros _. apply keeps_resume_data_sbind.
  - destruct (in_generate_resume i); [|apply keeps_resume_data_sret].
    apply keeps_resume_data_sbind; [apply keeps_resume_data_session_language|].
    intros language. apply keeps_resume_data_sbind; [apply keeps_resume_data_read|].
    intros data. apply keeps_resume_data_sbind; [apply keeps_resume_data_call|].
    intros text. now apply keeps_resume_data_update.
  - intros _. apply keeps_resume_data_sbind; [apply keeps_resume_data_read|].
    intros [text|]; [apply keeps_resume_data_show_with_link|apply keeps_resume_data_sret].
Qed.

(** The sidebar never raises, and it selects the language. *)
Lemma sidebar_returns (i : widgets) (s : session) :
  exists s', sidebar i s = (Return tt, s')
             /\ ss_language s' = Some (language_text (in_language i))
             /\ page s' = page s
             /\ ss_resume_content s' = ss_resume_content s.
Proof.
  unfold sidebar, sbind, update. destruct (in_import i).
  - unfold in_world. cbn [base with_language].
    pose proof (import_profile_returns (in_linkedin_url i) (base s)) as Hr.
    destruct (import_profile (in_linkedin_url i) (base s)) as [r w'].
    cbn [fst] in Hr. subst r. eexists. split; [reflexivity|]. now repeat split.
  - eexists. split; [reflexivity|]. now repeat split.
Qed.

(** X23.  At the end of every run of [main], whatever it did and however
    it ended, the seven resume fields hold what the resume form returned
    in that run: a profile imported in the run is overwritten by the
    form before anything reads it. *)
Theorem main_stores_the_form (i : widgets) (s : session) :
  let r := resume_data (base (snd (main i s))) in
  r !! lit "name" = Some (JStr (in_full_name i))
  /\ r !! lit "email" = Some (JStr (in_email i))
  /\ r !! lit "phone" = Some (JStr (in_phone i))
  /\ r !! lit "education" = Some (JStr (in_education i))
  /\ r !! lit "experience" = Some (JStr (in_experience i))
  /\ r !! lit "skills" = Some (JStr (in_skills i))
  /\ r !! lit "job_description" = Some (JStr (in_job_description i)).
Proof.
  destruct (sidebar_returns i s) as (s1 & Hside & _).
  assert (Hr : resume_data (base (snd (main i s)))
               = form_data i (resume_data (base s1))).
  { unfold main. rewrite (sbind_returned _ _ _ _ _ Hside).
    rewrite resume_data_after; [apply resume_data_tab1|].
    intros _. apply keeps_resume_data_sbind; [apply keeps_resume_data_tab2|].
    intros _. apply keeps_resume_data_sbind; [apply keeps_resume_data_tab3|].
    intros _. apply keeps_resume_data_sbind; [apply keeps_resume_data_tab4|].
    intros _. apply keeps_resume_data_tab5. }
  cbv zeta. rewrite Hr. unfold form_data.
  repeat split;
    repeat (rewrite lookup_insert_ne by discriminate);
    apply lookup_insert_eq.
Qed.


Lemma language_text_supported (c : language_choice) : language_text c ∈ LANGUAGES.
Proof. destruct c; unfold LANGUAGES; cbn [language_text]; repeat constructor. Qed.

Lemma parse_resume_prompt :
  parse_template InText resume_prompt
  = Return (map Text (lit "Create ") ++ Field (lit "language") None []
          :: map Text (lit " resume with template: ") ++ Field (lit "template") None []
          :: map Text ([LF] ++ lit "                    ATS-friendly, include: ")
          ++ Field (lit "sections") None [] :: []).
Proof. vm_compute. reflexivity. Qed.

Lemma parse_cover_letter_prompt :
  parse_template InText cover_letter_prompt
  = Return (map Text (lit "Write ") ++ Field (lit "language") None []
          :: map Text (lit " cover letter for:" ++ [LF] ++ lit "                Resume: ")
          ++ Field (lit "resume") None []
          :: map Text ([LF] ++ lit "                Job: ")
          ++ Field (lit "job_desc") None [] :: []).
Proof. vm_compute. reflexivity. Qed.

Lemma resume_prompt_formats (ctx : gmap str str) (language template sections : str) :
  ctx !! lit "language" = Some language ->
  ctx !! lit "template" = Some template ->
  ctx !! lit "sections" = Some sections ->
  format_template resume_prompt ctx
  = Return (lit "Create " ++ language
            ++ lit " resume with template: " ++ template
            ++ ([LF] ++ lit "                    ATS-friendly, include: ") ++ sections).
Proof.
  intros H1 H2 H3.
  unfold format_template. rewrite parse_resume_prompt. cbn [obind].
  repeat (rewrite ?variables_text; cbn [variables]).
  rewrite (bound_cons _ _ language) by exact H1.
  rewrite (bound_cons _ _ template) by exact H2.
  rewrite (bound_cons _ _ sections) by exact H3.
  cbn [bound forallb].
  rewrite render_text, (render_field _ _ language) by (reflexivity || exact H1).
  rewrite render_text, (render_field _ _ template) by (reflexivity || exact H2).
  rewrite render_text, (render_field _ _ sections) by (reflexivity || exact H3).
  cbn [render obind]. now rewrite app_nil_r.
Qed.

Lemma cover_letter_prompt_formats (ctx : gmap str str) (language resume job_desc : str) :
  ctx !! lit "language" = Some language ->
  ctx !! lit "resume" = Some resume ->
  ctx !! lit "job_desc" = Some job_desc ->
  format_template cover_letter_prompt ctx
  = Return (lit "Write " ++ language
            ++ (lit " cover letter for:" ++ [LF] ++ lit "                Resume: ") ++ resume
            ++ ([LF] ++ lit "                Job: ") ++ job_desc).
Proof.
  intros H1 H2 H3.
  unfold format_template. rewrite parse_cover_letter_prompt. cbn [obind].
  repeat (rewrite ?variables_text; cbn [variables]).
  rewrite (bound_cons _ _ language) by exact H1.
  rewrite (bound_cons _ _ resume) by exact H2.
  rewrite (bound_cons _ _ job_desc) by exact H3.
  cbn [bound forallb].
  rewrite render_text, (render_field _ _ language) by (reflexivity || exact H1).
  rewrite render_text, (render_field _ _ resume) by (reflexivity || exact H2).
  rewrite render_text, (render_field _ _ job_desc) by (reflexivity || exact H3).
  cbn [render obind]. now rewrite app_nil_r.
Qed.

Ltac solve_lookup :=
  repeat (rewrite lookup_insert_ne by discriminate);
  first [apply lookup_insert_eq | apply lookup_singleton_eq].

(** The prompt of the resume builder (lines 238 to 246). *)
Lemma resume_generation (language : str) (data : gmap str json) :
  language ∈ LANGUAGES ->
  generate_localized_content resume_prompt language
    (<[ lit "sections" := str_of_dict data ]>
       {[ lit "template" := lit "Chronological" ]})
  = model_invoke
      [(Human,
        (lit "Create " ++ language
         ++ lit " resume with template: " ++ lit "Chronological"
         ++ ([LF] ++ lit "                    ATS-friendly, include: ")
         ++ str_of_dict data)
        ++ language_directive language)].
Proof.
  intros Hlang.
  apply (generate_localized_content_formatted _ _ _ _ Hlang).
  apply resume_prompt_formats; solve_lookup.
Qed.

Lemma cover_letter_generation (language job_desc : str) (data : gmap str json) :
  language ∈ LANGUAGES ->
  generate_localized_content cover_letter_prompt language
    (<[ lit "job_desc" := job_desc ]> {[ lit "resume" := str_of_dict data ]})
  = model_invoke
      [(Human,
        (lit "Write " ++ language
         ++ (lit " cover letter for:" ++ [LF] ++ lit "                Resume: ")
         ++ str_of_dict data
         ++ ([LF] ++ lit "                Job: ") ++ job_desc)
        ++ language_directive language)].
Proof.
  intros Hlang.
  apply (generate_localized_content_formatted _ _ _ _ Hlang).
  apply cover_letter_prompt_formats; solve_lookup.
Qed.

(** X24.  A failure of the model while a resume is generated is not
    caught: the run of [main] ends in the exception of the model, shows
    nothing and leaves the stored resume text as it was (whereas the
    same failure during an import is only reported). *)
Theorem main_generation_failure_escapes (i : widgets) (s : session) (e : exn) :
  (forall messages, model_invoke messages = Raised e) ->
  in_generate_resume i = true ->
  fst (main i s) = Raised e
  /\ page (snd (main i s)) = page s
  /\ ss_resume_content (snd (main i s)) = ss_resume_content s.
Proof.
  intros Hdown Hgen.
  destruct (sidebar_returns i s) as (s1 & Hside & Hlang & Hpage & Hcontent).
  unfold main. rewrite (sbind_returned _ _ _ _ _ Hside).
  assert (Htab : exists s2, tab1 i s1 = (Raised e, s2)
                            /\ page s2 = page s1
                            /\ ss_resume_content s2 = ss_resume_content s1).
  { unfold tab1, resume_form. rewrite Hgen.
    unfold sbind at 1. unfold update at 1.
    unfold sbind at 1. unfold sbind at 1.
    unfold session_language. cbn [ss_language with_base]. rewrite Hlang.
    unfold sbind at 1. unfold read at 1.
    unfold sbind at 1. unfold call at 1.
    rewrite (resume_generation _ _ (language_text_supported _)), Hdown.
    eexists. split; [reflexivity|]. now split. }
  destruct Htab as (s2 & Htab & Hp2 & Hc2).
  rewrite (sbind_raised _ _ _ _ _ Htab). cbn [fst snd].
  repeat split; congruence.
Qed.


Lemma ends_well_show_with_link (i : widgets) (l content filename : str) :
  ends_well (selected l) (show_with_link i content filename) (fun _ => selected l).
Proof.
  unfold show_with_link.
  eapply ends_well_sbind; [apply ends_well_st_markdown|].
  intros ?; cbv beta. eapply ends_well_sbind with (Q := fun _ => selected l).
  - apply ends_well_in_world.
    + intros w. rewrite create_download_link_unfold. cbv zeta. cbn [fst].
      apply export_attempt_returns.
    + intros s0 a0 w' Hs. exact Hs.
  - intros link. apply ends_well_st_markdown.
Qed.

Section WhenTheModelAnswers.
Hypothesis Hanswers : model_answers.
Variable i : widgets.
Variable l : str.
Hypothesis Hl : l ∈ LANGUAGES.

Lemma ends_well_tab1 :
  ends_well (selected l) (tab1 i) (fun _ => selected l).
Proof.
  unfold tab1, resume_form.
  eapply ends_well_sbind with (Q := fun _ => selected l);
    [apply ends_well_update; intros s Hs; exact Hs|].
  intros ?; cbv beta. eapply ends_well_sbind with (Q := fun _ => selected l).
  - destruct (in_generate_resume i); [|now apply ends_well_sret].
    eapply ends_well_sbind; [apply ends_well_session_language|].
    intros language. apply ends_well_pure. intros Hsame. subst language.
    eapply ends_well_sbind with (Q := fun _ => selected l);
      [apply ends_well_read; intros s Hs; exact Hs|].
    intros data. rewrite (resume_generation _ _ Hl).
    destruct (Hanswers
                [(Human,
                  (lit "Create " ++ l ++ lit " resume with template: "
                   ++ lit "Chronological"
                   ++ ([LF] ++ lit "                    ATS-friendly, include: ")
                   ++ str_of_dict data) ++ language_directive l)])
      as (answer & Ha).
    eapply ends_well_sbind with (Q := fun _ => selected l).
    + apply (ends_well_call _ _ answer _ Ha). intros s Hs. exact Hs.
    + intros text. apply ends_well_update. intros s Hs. exact Hs.
  - intros ?; cbv beta. eapply ends_well_sbind with (Q := fun _ => selected l);
      [apply ends_well_read; intros s Hs; exact Hs|].
    intros [text|]; [apply ends_well_show_with_link|now apply ends_well_sret].
Qed.

Lemma ends_well_resume_field (key : str) :
  ends_well (selected l) (resume_field key) (fun _ => selected l).
Proof. apply ends_well_read. intros s Hs. exact Hs. Qed.

Lemma ends_well_tab2 :
  ends_well (selected l) (tab2 i) (fun _ => selected l).
Proof.
  unfold tab2.
  eapply ends_well_sbind with (Q := fun _ => selected l).
  - destruct (in_generate_cover i); [|now apply ends_well_sret].
    eapply ends_well_sbind; [apply ends_well_session_language|].
    intros language. apply ends_well_pure. intros Hsame. subst language.
    eapply ends_well_sbind with (Q := fun _ => selected l);
      [apply ends_well_read; intros s Hs; exact Hs|].
    intros data.
    eapply ends_well_sbind; [apply ends_well_resume_field|].
    intros job_desc. rewrite (cover_letter_generation _ _ _ Hl).
    destruct (Hanswers
                [(Human,
                  (lit "Write " ++ l
                   ++ (lit " cover letter for:" ++ [LF]
                       ++ lit "                Resume: ")
                   ++ str_of_dict data
                   ++ ([LF] ++ lit "                Job: ") ++ job_desc)
                  ++ language_directive l)])
      as (answer & Ha).
    eapply ends_well_sbind with (Q := fun _ => selected l).
    + apply (ends_well_call _ _ answer _ Ha). intros s Hs. exact Hs.
    + intros text. apply ends_well_update. intros s Hs. exact Hs.
  - intros ?; cbv beta. eapply ends_well_sbind with (Q := fun _ => selected l);
      [apply ends_well_read; intros s Hs; exact Hs|].
    intros [|c t]; [now apply ends_well_sret|apply ends_well_show_with_link].
Qed.

(** The generators on the contexts [main] builds. *)
Lemma interview_preparation_in_main (position company_type skills : str) :
  exists answer,
    interview_preparation
      (<[ lit "skills" := skills ]>
         (<[ lit "company_type" := company_type ]>
            (<[ lit "position" := position ]> {[ lit "language" := l ]})))
    = Return answer.
Proof.
  unfold interview_preparation, getitem.
  replace ((<[ lit "skills" := skills ]>
              (<[ lit "company_type" := company_type ]>
                 (<[ lit "position" := position ]> {[ lit "language" := l ]})))
             !! lit "language") with (Some l) by (symmetry; solve_lookup).
  cbn [obind].
  erewrite (generate_localized_content_formatted _ _ _ _ Hl);
    [apply Hanswers|].
  apply interview_preparation_formats; solve_lookup.
Qed.

Lemma salary_guide_in_main (industry experience location current_salary : str) :
  exists answer,
    salary_guide
      (<[ lit "current_salary" := current_salary ]>
         (<[ lit "location" := location ]>
            (<[ lit "experience" := experience ]>
               (<[ lit "industry" := industry ]> {[ lit "language" := l ]}))))
    = Return answer.
Proof.
  unfold salary_guide, getitem.
  replace ((<[ lit "current_salary" := current_salary ]>
              (<[ lit "location" := location ]>
                 (<[ lit "experience" := experience ]>
                    (<[ lit "industry" := industry ]> {[ lit "language" := l ]}))))
             !! lit "language") with (Some l) by (symmetry; solve_lookup).
  cbn [obind].
  erewrite (generate_localized_content_formatted _ _ _ _ Hl);
    [apply Hanswers|].
  apply salary_guide_formats; solve_lookup.
Qed.

Lemma reference_letter_in_main
    (referee_name relationship duration achievements contact_info : str) :
  exists answer,
    generate_reference_letter
      (<[ lit "contact_info" := contact_info ]>
         (<[ lit "achievements" := achievements ]>
            (<[ lit "duration" := duration ]>
               (<[ lit "relationship" := relationship ]>
                  (<[ lit "referee_name" := referee_name ]>
                     {[ lit "language" := l ]})))))
    = Return answer.
Proof.
  unfold generate_reference_letter, getitem.
  replace ((<[ lit "contact_info" := contact_info ]>
              (<[ lit "achievements" := achievements ]>
                 (<[ lit "duration" := duration ]>
                    (<[ lit "relationship" := relationship ]>
                       (<[ lit "referee_name" := referee_name ]>
                          {[ lit "language" := l ]})))))
             !! lit "language") with (Some l) by (symmetry; solve_lookup).
  cbn [obind].
  erewrite (generate_localized_content_formatted _ _ _ _ Hl);
    [apply Hanswers|].
  apply reference_letter_formats; solve_lookup.
Qed.

Lemma ends_well_interview_prep_item (key : str) :
  (forall s, prepared l s -> is_Some (ss_interview_prep s !! key)) ->
  ends_well (prepared l) (interview_prep_item key) (fun _ => prepared l).
Proof.
  intros Hkey s Hs. destruct (Hkey s Hs) as [v Hv].
  exists v, s. unfold interview_prep_item, getitem. rewrite Hv. now split.
Qed.

Lemma ends_well_tab3 :
  ends_well (selected l) (tab3 i) (fun _ => selected l).
Proof.
  unfold tab3.
  eapply ends_well_sbind with (Q := fun _ s =>
      selected l s /\ is_Some (ss_interview_prep s !! lit "company_type")).
  { apply ends_well_update. intros s Hs. split; [exact Hs|].
    cbn [ss_interview_prep with_interview_prep].
    rewrite lookup_insert_eq. eauto. }
  intros ?; cbv beta. eapply ends_well_sbind with (Q := fun _ => prepared l).
  { apply ends_well_update. intros s [Hs Hc]. split; [exact Hs|].
    cbn [ss_interview_prep with_interview_prep]. split.
    - rewrite lookup_insert_ne by discriminate. exact Hc.
    - rewrite lookup_insert_eq. eauto. }
  intros ?; cbv beta. eapply ends_well_sbind with (Q := fun _ => selected l).
  - destruct (in_generate_prep i);
      [|apply ends_well_sret; intros s Hs; apply Hs].
    eapply ends_well_sbind with (Q := fun a s => a = l /\ prepared l s).
    { intros s Hs. exists l, s. split; [|now split].
      unfold session_language. destruct Hs as [Hsel _].
      unfold selected in Hsel. now rewrite Hsel. }
    intros language. apply ends_well_pure. intros Hsame. subst language.
    eapply ends_well_sbind with (Q := fun _ => prepared l);
      [apply ends_well_read; intros s Hs; exact Hs|].
    intros position.
    eapply ends_well_sbind;
      [apply ends_well_interview_prep_item; intros s Hs; apply Hs|].
    intros company_type.
    eapply ends_well_sbind;
      [apply ends_well_interview_prep_item; intros s Hs; apply Hs|].
    intros skills.
    destruct (interview_preparation_in_main position company_type skills)
      as (answer & Ha).
    eapply ends_well_sbind with (Q := fun _ => selected l).
    + apply (ends_well_call _ _ answer _ Ha). intros s Hs. apply Hs.
    + intros guide. apply ends_well_update. intros s Hs. exact Hs.
  - intros ?; cbv beta. eapply ends_well_sbind with (Q := fun _ => selected l);
      [apply ends_well_read; intros s Hs; exact Hs|].
    intros [text|]; [apply ends_well_st_markdown|now apply ends_well_sret].
Qed.

Lemma ends_well_tab4 :
  ends_well (selected l) (tab4 i) (fun _ => selected l).
Proof.
  unfold tab4.
  eapply ends_well_sbind with (Q := fun _ => selected l).
  - destruct (in_generate_guide i); [|now apply ends_well_sret].
    eapply ends_well_sbind; [apply ends_well_session_language|].
    intros language. apply ends_well_pure. intros Hsame. subst language.
    destruct (salary_guide_in_main (in_industry i) (str_of_nat (in_years i))
                (in_location i) (str_of_nat (in_current_salary i)))
      as (answer & Ha).
    eapply ends_well_sbind with (Q := fun _ => selected l).
    + apply (ends_well_call _ _ answer _ Ha). intros s Hs. exact Hs.
    + intros guide. apply ends_well_update. intros s Hs. exact Hs.
  - intros ?; cbv beta. eapply ends_well_sbind with (Q := fun _ => selected l);
      [apply ends_well_read; intros s Hs; exact Hs|].
    intros [text|]; [apply ends_well_st_markdown|now apply ends_well_sret].
Qed.

Lemma ends_well_tab5 :
  ends_well (selected l) (tab5 i) (fun _ => selected l).
Proof.
  unfold tab5.
  eapply ends_well_sbind with (Q := fun _ => selected l).
  - destruct (in_generate_letter i); [|now apply ends_well_sret].
    eapply ends_well_sbind; [apply ends_well_session_language|].
    intros language. apply ends_well_pure. intros Hsame. subst language.
    eapply ends_well_sbind; [apply ends_well_resume_field|].
    intros achievements.
    destruct (reference_letter_in_main (in_ref_name i) (in_relationship i)
                (in_duration i) achievements (in_ref_title i))
      as (answer & Ha).
    eapply ends_well_sbind with (Q := fun _ => selected l).
    + apply (ends_well_call _ _ answer _ Ha). intros s Hs. exact Hs.
    + intros letter. apply ends_well_update. intros s Hs. exact Hs.
  - intros ?; cbv beta. eapply ends_well_sbind with (Q := fun _ => selected l);
      [apply ends_well_read; intros s Hs; exact Hs|].
    intros [text|]; [apply ends_well_show_with_link|now apply ends_well_sret].
Qed.

End WhenTheModelAnswers.

(** X25.  When the model answers every request, a run of [main] never
    raises, whatever the widgets return and whatever the session holds:
    every template of the script is well formed, every placeholder is
    bound where the template is used, and import and export contain
    their own failures. *)
Theorem main_returns_when_the_model_answers (i : widgets) (s : session) :
  model_answers -> fst (main i s) = Return tt.
Proof.
  intros Hanswers.
  destruct (sidebar_returns i s) as (s1 & Hside & Hlang & _).
  pose proof (language_text_supported (in_language i)) as Hl.
  assert (Hrest : ends_well (selected (language_text (in_language i)))
                    (let* _ := tab1 i in
                     let* _ := tab2 i in
                     let* _ := tab3 i in
                     let* _ := tab4 i in
                     tab5 i)
                    (fun _ => selected (language_text (in_language i)))).
  { eapply ends_well_sbind; [now apply ends_well_tab1|]. intros ?; cbv beta.
    eapply ends_well_sbind; [now apply ends_well_tab2|]. intros ?; cbv beta.
    eapply ends_well_sbind; [now apply ends_well_tab3|]. intros ?; cbv beta.
    eapply ends_well_sbind; [now apply ends_well_tab4|]. intros ?; cbv beta.
    now apply ends_well_tab5. }
  destruct (Hrest s1 Hlang) as ([] & s2 & E & _).
  unfold main. rewrite (sbind_returned _ _ _ _ _ Hside). now rewrite E.
Qed.

(** X26.  The resume builder, when "Generate Resume" is pressed and the
    model answers: the prompt is built from the selected language, the
    template name "Chronological" and the text of the resume data as the
    form of this run has just stored it; the answer becomes the stored
    resume text and is shown, followed by the download link made from
    it. *)
Theorem resume_builder_generates
    (i : widgets) (s : session) (l answer : str) :
  ss_language s = Some l -> l ∈ LANGUAGES ->
  in_generate_resume i = true ->
  model_invoke
    [(Human,
      (lit "Create " ++ l ++ lit " resume with template: " ++ lit "Chronological"
       ++ ([LF] ++ lit "                    ATS-friendly, include: ")
       ++ str_of_dict (form_data i (resume_data (base s))))
      ++ language_directive l)]
  = Return answer ->
  exists s',
    tab1 i s = (Return tt, s')
    /\ ss_resume_content s' = Some answer
    /\ page s'
       = page s
         ++ [answer;
             match fst (create_download_link answer
                          (export_format_lower (in_export_format i)) (lit "resume")
                          (set_resume_data (form_data i (resume_data (base s))) (base s)))
             with
             | Return link => link
             | Raised _ => []
             end].
Proof.
  intros Hlang Hl Hgen Hanswer.
  unfold tab1, resume_form. rewrite Hgen.
  unfold sbind at 1. unfold update at 1.
  unfold sbind at 1. unfold sbind at 1.
  unfold session_language. cbn [ss_language with_base]. rewrite Hlang.
  unfold sbind at 1. unfold read at 1.
  unfold sbind at 1. unfold call at 1.
  rewrite (resume_generation _ _ Hl).
  cbn [base with_base resume_data set_resume_data].
  rewrite Hanswer.
  unfold update at 1. unfold sbind at 1. unfold read at 1.
  cbn [ss_resume_content with_resume_content].
  unfold show_with_link, st_markdown.
  unfold sbind at 1. unfold update at 1.
  unfold sbind at 1. unfold in_world.
  cbn [base with_page with_resume_content with_base].
  destruct (create_download_link answer
              (export_format_lower (in_export_format i)) (lit "resume")
              (set_resume_data (form_data i (resume_data (base s))) (base s)))
    as [r w'] eqn:E.
  pose proof (export_attempt_returns
                (let! _ := generate_file answer
                             (export_format_lower (in_export_format i))
                             (temp_path_of (export_format_lower (in_export_format i))
                                (lit "resume")) in
                 let! data := read_binary
                                (temp_path_of (export_format_lower (in_export_format i))
                                   (lit "resume")) in
                 ret (download_link (b64encode data) (lit "resume")
                        (export_format_lower (in_export_format i))))
                (export_format_lower (in_export_format i))
                (set_resume_data (form_data i (resume_data (base s))) (base s)))
    as (link & Hlink).
  rewrite create_download_link_unfold in E. cbv zeta in E.
  injection E as Er Ew. rewrite Hlink in Er. subst r.
  unfold update. eexists. split; [reflexivity|].
  cbn [ss_resume_content page with_page with_base fst].
  split; [reflexivity|]. now rewrite <- app_assoc.
Qed.

(** X27.  A run in which no button is pressed and no generated text is
    stored touches neither the model nor any file and shows nothing: it
    only records the selected language, the resume form and the two
    entries of the interview form. *)
Theorem main_idle_run (i : widgets) (s : session) :
  in_import i = false -> in_generate_resume i = false ->
  in_generate_cover i = false -> in_generate_prep i = false ->
  in_generate_guide i = false -> in_generate_letter i = false ->
  ss_resume_content s = None -> ss_cover_letter s = [] ->
  ss_interview_guide s = None -> ss_salary_guide s = None ->
  ss_reference_letter s = None ->
  main i s
  = (Return tt,
     Session
       (set_resume_data (form_data i (resume_data (base s))) (base s))
       (Some (language_text (in_language i)))
       []
       (<[ lit "technical_skills" := in_technical_skills i ]>
          (<[ lit "company_type" := company_text (in_company_type i) ]>
             (ss_interview_prep s)))
       None None None None
       (page s)).
Proof.
  intros H1 H2 H3 H4 H5 H6 Hr Hc Hg Hs Hl.
  destruct s as [w lang cl ip rc ig sg rl pg].
  cbn [ss_resume_content ss_cover_letter ss_interview_guide ss_salary_guide
       ss_reference_letter] in Hr, Hc, Hg, Hs, Hl.
  subst rc cl ig sg rl.
  unfold main, sidebar, tab1, tab2, tab3, tab4, tab5, resume_form.
  rewrite H1, H2, H3, H4, H5, H6.
  reflexivity.
Qed.

(** X28.  The cover letter tab, when "Generate Cover Letter" is pressed
    and the model answers: the prompt holds the text of the resume data
    and its job description (the empty text when there is none); the
    answer replaces the stored cover letter; a non-empty answer is shown,
    followed by its download link, and an empty answer shows nothing. *)
Theorem cover_letter_tab_generates
    (i : widgets) (s : session) (l answer : str) :
  ss_language s = Some l -> l ∈ LANGUAGES ->
  in_generate_cover i = true ->
  model_invoke
    [(Human,
      (lit "Write " ++ l
       ++ (lit " cover letter for:" ++ [LF] ++ lit "                Resume: ")
       ++ str_of_dict (resume_data (base s))
       ++ ([LF] ++ lit "                Job: ")
       ++ py_str (default (JStr []) (resume_data (base s) !! lit "job_description")))
      ++ language_directive l)]
  = Return answer ->
  exists s',
    tab2 i s = (Return tt, s')
    /\ ss_cover_letter s' = answer
    /\ (answer = [] -> page s' = page s)
    /\ (answer <> [] ->
        page s'
        = page s
          ++ [answer;
              match fst (create_download_link answer
                           (export_format_lower (in_export_format i))
                           (lit "cover_letter") (base s))
              with
              | Return link => link
              | Raised _ => []
              end]).
Proof.
  intros Hlang Hl Hgen Hanswer.
  unfold tab2. rewrite Hgen.
  unfold sbind at 1. unfold sbind at 1.
  unfold session_language. rewrite Hlang.
  unfold sbind at 1. unfold read at 1.
  unfold sbind at 1. unfold resume_field, read at 1.
  unfold sbind at 1. unfold call at 1.
  rewrite (cover_letter_generation _ _ _ Hl).
  rewrite Hanswer.
  unfold update at 1. unfold sbind at 1. unfold read at 1.
  cbn [ss_cover_letter with_cover_letter].
  destruct answer as [|c t].
  - unfold sret. eexists. split; [reflexivity|].
    cbn [ss_cover_letter page with_cover_letter].
    split; [reflexivity|]. split; [reflexivity|]. intros Hne. now destruct Hne.
  - unfold show_with_link, st_markdown.
    unfold sbind at 1. unfold update at 1.
    unfold sbind at 1. unfold in_world.
    cbn [base with_page with_cover_letter with_base].
    destruct (create_download_link (c :: t)
                (export_format_lower (in_export_format i)) (lit "cover_letter")
                (base s))
      as [r w'] eqn:E.
    pose proof (export_attempt_returns
                  (let! _ := generate_file (c :: t)
                               (export_format_lower (in_export_format i))
                               (temp_path_of (export_format_lower (in_export_format i))
                                  (lit "cover_letter")) in
                   let! data := read_binary
                                  (temp_path_of (export_format_lower (in_export_format i))
                                     (lit "cover_letter")) in
                   ret (download_link (b64encode data) (lit "cover_letter")
                          (export_format_lower (in_export_format i))))
                  (export_format_lower (in_export_format i))
                  (base s))
      as (link & Hlink).
    rewrite create_download_link_unfold in E. cbv zeta in E.
    injection E as Er Ew. rewrite Hlink in Er. subst r.
    unfold update. eexists. split; [reflexivity|].
    cbn [ss_cover_letter page with_page with_base with_cover_letter fst].
    split; [reflexivity|]. split; [discriminate|].
    intros _. now rewrite <- app_assoc.
Qed.

End MainProperties.

(** * The theorems on sample inputs *)

Import Demo Examples Cases.


Lemma extract_json_idempotent_witness :
  extract_json ann_object empty_world = (Return ann_object, empty_world).
Proof.
  apply (extract_json_idempotent framed_answer ann_object empty_world empty_world).
  vm_compute. reflexivity.
Defined.

Lemma linkedin_import_result_invariant_witness :
  Forall (fun k => dict_has ann_dict k = true) required_fields.
Proof.
  destruct (linkedin_import_result_invariant (H := answering framed_answer)
              profile_url empty_world empty_world (JObj ann_dict))
    as [_ Hkeys]; [vm_compute; reflexivity|].
  destruct Hkeys as (_ & _ & Hd); [discriminate|].
  apply Hd. reflexivity.
Defined.

Lemma linkedin_import_model_failure_witness :
  linkedin_import (H := model_down) profile_url empty_world
  = (Return (JObj []),
     add_ui (StError (lit "LinkedIn import error: " ++ exn_str outage))
            empty_world).
Proof.
  apply (linkedin_import_model_failure (H := model_down)); reflexivity.
Defined.

Lemma linkedin_import_decode_failure_witness :
  linkedin_import (H := answering stray_braces_answer) profile_url empty_world
  = (Return (JObj []),
     add_ui (StError (lit "LinkedIn import error: "
                      ++ exn_str (Raise JSONDecodeError (lit "Expecting value"))))
            empty_world).
Proof.
  apply (linkedin_import_decode_failure (H := answering stray_braces_answer)
           profile_url (lit "Format ")
           (lit "name, skills}: " ++ LBRACE :: ann_fields)
           []);
    try (vm_compute; reflexivity);
    apply absent_char; reflexivity.
Defined.

Lemma create_download_link_contained_witness :
  fs (snd (create_download_link (H := locked_windows)
             two_lines (lit "txt") (lit "resume") notes_world))
    !! lit "/tmp/notes.txt"
  = Some [x68; x69].
Proof.
  destruct (create_download_link_contained (H := locked_windows)
              two_lines (lit "txt") (lit "resume") notes_world)
    as (_ & _ & Hfiles & _).
  rewrite Hfiles; [reflexivity|]. vm_compute. discriminate.
Defined.

Lemma create_download_link_pdf_without_renderer_witness :
  create_download_link (H := answering framed_answer)
    two_lines (lit "pdf") (lit "resume") empty_world
  = (Return [],
     World (ui empty_world
            ++ [StError (lit "Error generating pdf: PDF export requires wkhtmltopdf installation")])
           (delete (temp_path_of (H := answering framed_answer)
                      (lit "pdf") (lit "resume"))
                   (fs empty_world))
           (resume_data empty_world)).
Proof.
  apply (create_download_link_pdf_without_renderer (H := answering framed_answer));
    reflexivity.
Defined.

Lemma create_download_link_binary_formats_witness :
  fst (create_download_link (H := office)
         two_lines (lit "docx") (lit "resume") empty_world)
  = Return (download_link (H := office) (b64encode docx_bytes)
              (lit "resume") (lit "docx"))
  /\ fst (create_download_link (H := office)
            two_lines (lit "pdf") (lit "resume") empty_world)
     = Return (download_link (H := office) (b64encode pdf_bytes)
                 (lit "resume") (lit "pdf")).
Proof.
  split.
  - apply (create_download_link_binary_formats (H := office)
             two_lines (lit "resume") docx_bytes empty_world eq_refl).
    reflexivity.
  - apply (proj2 (create_download_link_binary_formats (H := office)
                    two_lines (lit "resume") pdf_bytes empty_world eq_refl)
                 (fun _ => Written (Some pdf_bytes) None));
      reflexivity.
Defined.

Lemma utf8_decode_utf8_encode_witness :
  utf8_decode [xc3; xa9; xe2; x82; xac] = Some [233%N; 8364%N]
  /\ forall t, utf8_encode t = Some [xc3; xa9; xe2; x82; xac] ->
               t = [233%N; 8364%N].
Proof.
  apply (utf8_decode_utf8_encode [233%N; 8364%N]). reflexivity.
Defined.

Lemma txt_download_reads_back_witness :
  option_map utf8_decode (b64decode (b64encode [x61; x0a; x62]))
  = Some (Some two_lines).
Proof.
  destruct (txt_download_reads_back (H := answering framed_answer)
              two_lines (lit "resume") [x61; x0a; x62] empty_world
              eq_refl eq_refl eq_refl eq_refl) as (_ & _ & Hsame).
  apply Hsame. reflexivity.
Defined.

Lemma generate_localized_content_missing_key_witness :
  generate_localized_content (H := echoing)
    (lit "Hello {who!r}") (lit "French") ∅
  = Raised (Raise KeyError
              (lit "Input to ChatPromptTemplate is missing variables {'who'}")).
Proof.
  rewrite (generate_localized_content_missing_key (H := echoing)
             (lit "Hello {who!r}") (lit "French") (lit "who") (Some 114) []
             (map Text (lit "Hello ") ++ [Field (lit "who") (Some 114) []]) ∅).
  - vm_compute. reflexivity.
  - unfold LANGUAGES. repeat constructor.
  - vm_compute. reflexivity.
  - apply elem_of_app. right. apply list_elem_of_singleton. reflexivity.
  - vm_compute. reflexivity.
Defined.

Lemma salary_guide_prompt_sent_witness :
  salary_guide (H := echoing) salary_context
  = Return (lit "Generate salary negotiation advice for:" ++ [LF]
            ++ lit "    Industry: Software" ++ [LF]
            ++ lit "    Experience: 5 years" ++ [LF]
            ++ lit "    Location: Paris" ++ [LF]
            ++ lit "    Current Salary: 50000" ++ [LF]
            ++ lit "    Include: Market rates, negotiation strategies, benefits considerations"
            ++ lit " " ++ [LF] ++ lit "Respond in French language").
Proof.
  rewrite (proj1 (salary_guide_prompt_sent (H := echoing) salary_context
                    (lit "French") (lit "Software") (lit "5") (lit "Paris")
                    (lit "50000")));
    try (vm_compute; reflexivity).
  unfold LANGUAGES. repeat constructor.
Defined.

Lemma interview_preparation_prompt_sent_witness :
  interview_preparation (H := echoing) interview_context
  = Return (lit "Generate interview preparation guide for:" ++ [LF]
            ++ lit "    Position: Proof engineer" ++ [LF]
            ++ lit "    Company Type: Startup" ++ [LF]
            ++ lit "    Technical Skills: Rocq" ++ [LF]
            ++ lit "    Include: Common questions, STAR method examples, technical tests preparation"
            ++ lit " " ++ [LF] ++ lit "Respond in French language").
Proof.
  rewrite (proj1 (interview_preparation_prompt_sent (H := echoing)
                    interview_context (lit "French") (lit "Proof engineer")
                    (lit "Startup") (lit "Rocq")));
    try (vm_compute; reflexivity).
  unfold LANGUAGES. repeat constructor.
Defined.

Lemma generate_reference_letter_prompt_sent_witness :
  generate_reference_letter (H := echoing) reference_context
  = Return (lit "Write professional reference letter from:" ++ [LF]
            ++ lit "    Referee: Bob" ++ [LF]
            ++ lit "    Relationship: Manager" ++ [LF]
            ++ lit "    Duration: 3 years" ++ [LF]
            ++ lit "    Key achievements: Engineer at Acme" ++ [LF]
            ++ lit "    Contact: CTO"
            ++ lit " " ++ [LF] ++ lit "Respond in French language").
Proof.
  rewrite (proj1 (generate_reference_letter_prompt_sent (H := echoing)
                    reference_context (lit "French") (lit "Bob") (lit "Manager")
                    (lit "3 years") (lit "Engineer at Acme") (lit "CTO")));
    try (vm_compute; reflexivity).
  unfold LANGUAGES. repeat constructor.
Defined.

Lemma import_profile_contained_witness :
  exists before last,
    ui (snd (import_profile (H := answering no_skills_object)
               profile_url empty_world))
    = ui empty_world ++ before ++ [last]
    /\ (length before <= 1)%nat
    /\ (last = SUCCESS
        \/ exists text,
            last = StError (lit "Failed to process LinkedIn profile: " ++ text)).
Proof.
  destruct (import_profile_contained (H := answering no_skills_object)
              profile_url empty_world) as (_ & _ & _ & Hmessages).
  apply Hmessages. discriminate.
Defined.

Lemma import_profile_all_or_nothing_witness :
  resume_data (snd (import_profile (H := answering framed_answer)
                      profile_url filled_world)) !! lit "email"
  = resume_data filled_world !! lit "email".
Proof.
  destruct (import_profile_all_or_nothing (H := answering framed_answer)
              profile_url filled_world) as [_ Hothers].
  apply Hothers; vm_compute; discriminate.
Defined.

Lemma import_profile_stores_flattened_witness :
  import_profile (H := answering framed_answer) profile_url empty_world
  = (Return tt,
     add_ui SUCCESS
       (set_resume_data
          (<[ lit "skills" := JStr (join (lit ", ") [lit "Rocq"; lit "Python"]) ]>
             (<[ lit "education" := JStr (join [LF] [lit "BSc at MIT"]) ]>
                (<[ lit "experience" := JStr (join [LF] [lit "Engineer at Acme"]) ]>
                   (<[ lit "name" := JStr (lit "Ann") ]> (resume_data empty_world)))))
          empty_world)).
Proof.
  apply (import_profile_stores_flattened (H := answering framed_answer)
           profile_url empty_world ann_dict (JStr (lit "Ann"))
           [lit "Engineer at Acme"] [lit "BSc at MIT"] [lit "Rocq"; lit "Python"]);
    try (vm_compute; reflexivity).
  discriminate.
Defined.

Lemma import_profile_splits_a_string_witness :
  resume_data (snd (import_profile (H := answering string_experience_object)
                      profile_url empty_world)) !! lit "experience"
  = Some (JStr (join [LF] (map (fun c => [c]) (lit "Dev"))))
  /\ length (join [LF] (map (fun c => [c]) (lit "Dev")))
     = (2 * length (lit "Dev") - 1)%nat.
Proof.
  destruct (import_profile_splits_a_string (H := answering string_experience_object)
              profile_url empty_world string_experience_dict (JStr (lit "Ann"))
              (lit "Dev") [] []) as [Hstored Hlength];
    try (vm_compute; reflexivity);
    [discriminate|].
  split; [exact Hstored | apply Hlength; discriminate].
Defined.

Lemma main_generation_failure_escapes_witness :
  fst (main (H := model_down) (H0 := plain_str) resume_widgets fresh_session)
  = Raised outage
  /\ page (snd (main (H := model_down) (H0 := plain_str)
                  resume_widgets fresh_session))
     = page fresh_session
  /\ ss_resume_content (snd (main (H := model_down) (H0 := plain_str)
                               resume_widgets fresh_session))
     = ss_resume_content fresh_session.
Proof.
  apply (main_generation_failure_escapes (H := model_down) (H0 := plain_str)
           resume_widgets fresh_session outage).
  - intros messages. reflexivity.
  - reflexivity.
Defined.

Lemma main_returns_when_the_model_answers_witness :
  fst (main (H := answering framed_answer) (H0 := plain_str)
         resume_widgets fresh_session)
  = Return tt.
Proof.
  apply (main_returns_when_the_model_answers (H := answering framed_answer)
           (H0 := plain_str) resume_widgets fresh_session).
  intros messages. exists framed_answer. reflexivity.
Defined.

Lemma resume_builder_generates_witness :
  exists s',
    tab1 (H := answering framed_answer) (H0 := plain_str)
      resume_widgets french_session
    = (Return tt, s')
    /\ ss_resume_content s' = Some framed_answer
    /\ page s'
       = page french_session
         ++ [framed_answer;
             match fst (create_download_link (H := answering framed_answer)
                          framed_answer
                          (export_format_lower (in_export_format resume_widgets))
                          (lit "resume")
                          (set_resume_data
                             (form_data resume_widgets
                                (resume_data (base french_session)))
                             (base french_session)))
             with
             | Return link => link
             | Raised _ => []
             end].
Proof.
  apply (resume_builder_generates (H := answering framed_answer)
           (H0 := plain_str) resume_widgets french_session (lit "French")
           framed_answer);
    try reflexivity.
  unfold LANGUAGES. repeat constructor.
Defined.

Lemma main_idle_run_witness :
  main (H := answering framed_answer) (H0 := plain_str)
    idle_widgets fresh_session
  = (Return tt,
     Session
       (set_resume_data (form_data idle_widgets (resume_data (base fresh_session)))
                        (base fresh_session))
       (Some (language_text (in_language idle_widgets)))
       []
       (<[ lit "technical_skills" := in_technical_skills idle_widgets ]>
          (<[ lit "company_type" := company_text (in_company_type idle_widgets) ]>
             (ss_interview_prep fresh_session)))
       None None None None
       (page fresh_session)).
Proof.
  apply (main_idle_run (H := answering framed_answer) (H0 := plain_str)
           idle_widgets fresh_session);
    reflexivity.
Defined.

Lemma cover_letter_tab_generates_witness :
  exists s',
    tab2 (H := answering framed_answer) (H0 := plain_str)
      cover_widgets french_session
    = (Return tt, s')
    /\ ss_cover_letter s' = framed_answer
    /\ page s'
       = page french_session
         ++ [framed_answer;
             match fst (create_download_link (H := answering framed_answer)
                          framed_answer
                          (export_format_lower (in_export_format cover_widgets))
                          (lit "cover_letter") (base french_session))
             with
             | Return link => link
             | Raised _ => []
             end].
Proof.
  destruct (cover_letter_tab_generates (H := answering framed_answer)
              (H0 := plain_str) cover_widgets french_session (lit "French")
              framed_answer)
    as (s' & Hrun & Hstored & _ & Hshown);
    try reflexivity.
  - unfold LANGUAGES. repeat constructor.
  - exists s'. split; [exact Hrun|]. split; [exact Hstored|].
    apply Hshown. discriminate.
Defined.
